(** * The transitive Snowman engine: a shallow embedding and its checked properties

    The development follows [snow/engine/snowman/transitive.go] (the engine)
    and [vms/components/missing/block.go] (the missing-block sentinel).

    The engine is a single-threaded, event-driven state machine.  Every Go
    method of [Transitive] becomes a function over an explicit engine state
    [Transitive]; the external collaborators (VM, Consensus, Validators, the
    wall clock) are an interface [Collaborators] over an opaque [World];
    the [Sender] is write-only and becomes a log of calls.  Metrics and
    logging have no influence on the engine and are left out. *)

From Stdlib Require Import ZArith List Lia Bool.
From stdpp Require Import base option list gmap.

Local Open Scope Z_scope.

(** ** Identifiers, bytes, errors *)

(** [ids.ID] is a 32-byte array and [ids.ShortID] a 20-byte array; both are
    only compared and used as keys, so a number stands for each.  The zero
    value [ids.ID{}] is [0]. *)
Abbreviation ID := Z (only parsing).
Abbreviation ShortID := Z (only parsing).
Abbreviation Bytes := (list Byte.byte) (only parsing).

Definition ID_zero : ID := 0.

(** Go's [error]: [None] is [nil]. *)
Inductive error : Type :=
| errMissingBlock
| errExternal (code : Z).

(** [len(b)] of a byte slice as a Go [int].  A slice length is bounded by the
    address space, far below the range of [int], so the sums of a few
    lengths computed by the engine are exact. *)
Definition len (b : Bytes) : Z := Z.of_nat (length b).

(** [t.RequestID++] on a [uint32]. *)
Definition uint32_incr (n : Z) : Z := (n + 1) mod 2 ^ 32.

(** ** [choices.Status] *)

Module choices.

Inductive Status : Type := Unknown | Processing | Rejected | Accepted.

  (** Modelled from the spec: [choices.Status.Decided] lives in
      [snow/choices/status.go]; the glossary has "Decided: Accepted or
      Rejected by Consensus". *)
Definition Decided (s : Status) : bool :=
    match s with
    | Accepted | Rejected => true
    | _ => false
    end.

  (** Modelled from the spec: [choices.Status.Fetched] lives in
      [snow/choices/status.go]; the glossary has "Fetched: Status in
      {Processing, Accepted, Rejected}". *)
Definition Fetched (s : Status) : bool :=
    match s with
    | Processing => true
    | s => Decided s
    end.

Definition eqb (a b : Status) : bool :=
    match a, b with
    | Unknown, Unknown | Processing, Processing
    | Rejected, Rejected | Accepted, Accepted => true
    | _, _ => false
    end.

End choices.

(** ** The missing-block sentinel ([vms/components/missing/block.go]) *)

Module missing.

  (** [type Block struct{ BlkID ids.ID }] *)
Record Block : Type := { BlkID : ID }.

Definition ID (mb : Block) : Z := BlkID mb.
Definition Height (mb : Block) : Z := 0.
Definition Status (mb : Block) : choices.Status := choices.Unknown.
Definition Parent (mb : Block) : Z := ID_zero.
Definition Verify (mb : Block) : option error := Some errMissingBlock.
Definition Bytes (mb : Block) : list Byte.byte := [].

End missing.

(** ** Blocks *)

(** A block handed out by the VM.  [ID], [Parent], [Bytes] never change for
    a given block; [Status], [Verify] and [Options] are answered by the VM
    and are part of [Collaborators].  [vmOracle] tells whether the Go value
    also implements [OracleBlock] (the type switch in [deliver]). *)
Record VMBlock : Type := {
  vmID : ID;
  vmParent : ID;
  vmBytes : Bytes;
  vmOracle : bool;
}.

(** The two implementations of [snowman.Block] the engine handles. *)
Inductive Block : Type :=
| VMBlk (b : VMBlock)
| MissingBlk (mb : missing.Block).

Definition Block_ID (blk : Block) : ID :=
  match blk with
  | VMBlk b => vmID b
  | MissingBlk mb => missing.ID mb
  end.

Definition Block_Parent (blk : Block) : ID :=
  match blk with
  | VMBlk b => vmParent b
  | MissingBlk mb => missing.Parent mb
  end.

Definition Block_Bytes (blk : Block) : Bytes :=
  match blk with
  | VMBlk b => vmBytes b
  | MissingBlk mb => missing.Bytes mb
  end.

(** ** External collaborators

    Everything the engine calls but does not own.  [World] is the joint
    state of the VM (with its blocks), the Consensus core, the validator
    sampler and the clock.  Queries are functions of the world; calls that
    may change something return the new world. *)
Class Collaborators (World : Type) : Type := {
  (* methods of VM blocks *)
  VMBlock_Status : World -> VMBlock -> choices.Status;
  VMBlock_Verify : World -> VMBlock -> World * option error;
  VMBlock_Options : World -> VMBlock -> list VMBlock + error;
  (* the VM *)
  VM_ParseBlock : World -> Bytes -> VMBlock + error;
  VM_GetBlock : World -> ID -> VMBlock + error;
  VM_BuildBlock : World -> World * (VMBlock + error);
  VM_LastAccepted : World -> ID;
  VM_SetPreference : World -> ID -> World;
  (* the Consensus core *)
  Consensus_Initialize : World -> ID -> World;
  Consensus_Issued : World -> Block -> bool;
  Consensus_Add : World -> Block -> World * (bool * option error);
  Consensus_Preference : World -> ID;
  Consensus_RecordPoll : World -> list ID -> World * (list ID * option error);
  (* the validator set: [Sample(k)] *)
  Validators_Sample : World -> Z -> World * (list ShortID + error);
  (* [time.Since(startTime) < common.MaxTimeFetchingAncestors], asked
     before the iteration that fetches container number [numFetched] *)
  Clock_WithinFetchBudget : World -> Z -> bool;
}.

(** [blk.Status()] *)
Definition Block_Status `{Collaborators World} (w : World) (blk : Block)
  : choices.Status :=
  match blk with
  | VMBlk b => VMBlock_Status w b
  | MissingBlk mb => missing.Status mb
  end.

(** [blk.Verify()] *)
Definition Block_Verify `{Collaborators World} (w : World) (blk : Block)
  : World * option error :=
  match blk with
  | VMBlk b => VMBlock_Verify w b
  | MissingBlk mb => (w, missing.Verify mb)
  end.

(** ** Engine-private containers *)

(** Modelled from the spec: [cache.LRU] lives in [cache/lru_cache.go]; the
    spec has "bounded LRU maps", "strict LRUs by recency-of-insert/access",
    "Keys are full block IDs".  The entries are kept most recent first. *)
Module LRU.
Section LRU.
Context {V : Type}.

Definition Evict (k : ID) (c : list (ID * V)) : list (ID * V) :=
      filter (fun e => e.1 ≠ k) c.

Definition Put (Size : nat) (k : ID) (v : V) (c : list (ID * V))
      : list (ID * V) :=
      take Size ((k, v) :: Evict k c).

Definition lookup (k : ID) (c : list (ID * V)) : option V :=
      snd <$> List.find (fun e => bool_decide (e.1 = k)) c.

    (** [Get] returns the value and counts as an access. *)
Definition Get (k : ID) (c : list (ID * V)) : option V * list (ID * V) :=
      match lookup k c with
      | Some v => (Some v, (k, v) :: Evict k c)
      | None => (None, c)
      end.
End LRU.
End LRU.

(** Modelled from the spec: [common.Requests] lives in
    [snow/engine/common/requests.go]; the spec has "a bidirectional mapping
    between (validator, requestID) pairs and block IDs". *)
Module Requests.

Definition t : Type := list ((ShortID * Z) * ID).

Definition Contains (blkID : ID) (r : t) : bool :=
    existsb (fun e => bool_decide (e.2 = blkID)) r.

Definition RemoveAny (blkID : ID) (r : t) : t :=
    filter (fun e => e.2 ≠ blkID) r.

Definition lookup (vdr : ShortID) (requestID : Z) (r : t) : option ID :=
    snd <$> List.find (fun e => bool_decide (e.1 = (vdr, requestID))) r.

  (** [Remove(vdr, requestID)] returns the block ID and whether it was there. *)
Definition Remove (vdr : ShortID) (requestID : Z) (r : t) : option ID * t :=
    (lookup vdr requestID r, filter (fun e => e.1 ≠ (vdr, requestID)) r).

  (** [Add] keeps both directions functional. *)
Definition Add (vdr : ShortID) (requestID : Z) (blkID : ID) (r : t) : t :=
    ((vdr, requestID), blkID)
      :: filter (fun e => e.1 ≠ (vdr, requestID)) (RemoveAny blkID r).

Definition Len (r : t) : Z := Z.of_nat (length r).

End Requests.

(** Modelled from the spec: [poll.Set] lives in
    [snow/consensus/snowman/poll]; the spec has "tracks in-flight pull/push
    queries, keyed by request ID, each carrying the bag of queried
    validators and accumulated chits" and a poll is "removed when
    Consensus.RecordPoll completes (sufficient chits received or every
    validator failed)", [Alpha] being the quorum threshold. *)
Module poll.

Record Poll : Type := {
  validatorBag : list ShortID;   (* validators that have not answered *)
  chits : list ID;               (* votes received *)
}.

Definition Len (s : gmap Z Poll) : Z := Z.of_nat (size s).

(** Registration succeeds unless the request ID already names a poll. *)
Definition Add (requestID : Z) (vdrs : list ShortID) (s : gmap Z Poll)
  : bool * gmap Z Poll :=
  match s !! requestID with
  | Some _ => (false, s)
  | None => (true, <[requestID := {| validatorBag := vdrs; chits := [] |}]> s)
  end.

Definition Finished (alpha : Z) (p : Poll) : bool :=
  match validatorBag p with
  | [] => true
  | _ => alpha <=? Z.of_nat (length (chits p))
  end.

(** The validator's answer ([None]: it failed) is counted once for each
    time it was sampled. *)
Definition record (vdr : ShortID) (response : option ID) (p : Poll) : Poll :=
  let n := length (filter (fun v => v = vdr) (validatorBag p)) in
  {| validatorBag := filter (fun v => v ≠ vdr) (validatorBag p);
     chits := chits p ++ match response with
                         | Some blkID => repeat blkID n
                         | None => []
                         end |}.

(** Feed an answer to the poll [requestID]; when the poll concludes it is
    removed and its bag of votes returned. *)
Definition Vote (alpha : Z) (requestID : Z) (vdr : ShortID)
  (response : option ID) (s : gmap Z Poll) : option (list ID) * gmap Z Poll :=
  match s !! requestID with
  | None => (None, s)
  | Some p =>
      let p' := record vdr response p in
      if Finished alpha p' then (Some (chits p'), delete requestID s)
      else (None, <[requestID := p']> s)
  end.

End poll.

(** [snowball.Parameters], the fields the engine reads. *)
Module snowball.

Record Parameters : Type := {
  K : Z;
  Alpha : Z;
  ConcurrentRepolls : Z;
}.

End snowball.

(** [common.Message], what the VM notifies the engine with. *)
Inductive Message : Type :=
| PendingTxs
| OtherMessage (code : Z).

(** ** Continuations and the Blocker *)

(** Modelled from the spec: [issuer], [convincer] and [voter] live in
    [issuer.go], [convincer.go] and [voter.go]; the spec has "Continuations
    are variants: Issuer (issues its blk to Consensus via deliver),
    Convincer (sends chits reply for a received pull/push query), Voter
    (records a peer's vote with Consensus, possibly concluding a poll)".
    The fields are those the engine sets when it builds the Go structs; the
    zero value of [voter.response] is [None]. *)
Inductive Action : Type :=
| issuer (blk : Block)
| convincer (vdr : ShortID) (requestID : Z)
| voter (vdr : ShortID) (requestID : Z) (response : option ID).

(** Modelled from the spec: [events.Blockable] lives in [snow/events]; the
    spec has a continuation as "(dependency set of block IDs, action)". *)
Record Blockable : Type := {
  deps : gset Z;
  action : Action;
}.

(** ** Constants *)

(** Max size of cache of accepted/rejected block IDs *)
Definition decidedCacheSize : nat := 5000.

(** Max size of cache of dropped blocks *)
Definition droppedCacheSize : nat := 1000.

Section Engine.

Context {World : Type} `{Collab : Collaborators World}.

(** ** Calls to collaborators

    The engine's outbound effects, in the order they happen: the messages
    handed to [Sender], the calls that change the VM or Consensus, and the
    operations requested from the Blocker.  A call of [Consensus.Add]
    is recorded with the state [w] the collaborators are in when it is
    made. *)
Inductive Event : Type :=
| Sender_Get (vdr : ShortID) (requestID : Z) (blkID : ID)
| Sender_Put (vdr : ShortID) (requestID : Z) (blkID : ID) (blk : Bytes)
| Sender_MultiPut (vdr : ShortID) (requestID : Z) (containers : list Bytes)
| Sender_PullQuery (vdrs : gset Z) (requestID : Z) (blkID : ID)
| Sender_PushQuery (vdrs : gset Z) (requestID : Z) (blkID : ID) (blk : Bytes)
| Sender_Chits (vdr : ShortID) (requestID : Z) (votes : list ID)
| Sender_Gossip (blkID : ID) (blk : Bytes)
| Block_Verify_called (blk : Block)
| Consensus_Add_called (w : World) (blk : Block)
| Consensus_RecordPoll_called (votes : list ID)
| VM_SetPreference_called (blkID : ID)
| Blocker_Register (c : Blockable)
| Blocker_Fulfill (blkID : ID)
| Blocker_Abandon (blkID : ID).

(** Constants declared outside the engine's file:
    [network.DefaultMaxMessageSize], [wrappers.IntLen] and
    [common.MaxContainersPerMultiPut]. *)
Variable DefaultMaxMessageSize : Z.
Variable IntLen : Z.
Variable MaxContainersPerMultiPut : Z.

(** Max containers size in a MultiPut message; Go's integer division
    truncates, and the operands are not negative. *)
Definition maxContainersLen : Z := 4 * DefaultMaxMessageSize / 5.

(** ** The engine state: [type Transitive struct] and the fields it reads
    from the embedded [bootstrap.Bootstrapper] *)
Record Transitive : Type := {
  Ctx_IsBootstrapped : bool;            (* t.Ctx.IsBootstrapped() *)
  RequestID : Z;                        (* uint32 *)
  world : World;                        (* VM, Consensus, Validators *)
  Params : snowball.Parameters;
  polls : gmap Z poll.Poll;             (* outstanding preference requests *)
  blkReqs : Requests.t;                 (* outstanding Get requests *)
  pending : gset Z;                     (* queued to be issued *)
  blocked : list Blockable;             (* events.Blocker *)
  errs : option error;                  (* wrappers.Errs: the first error *)
  processing : gmap Z Block;            (* pinned processing blocks *)
  decidedCache : list (Z * unit);       (* cache.LRU, decidedCacheSize *)
  droppedCache : list (Z * Block);      (* cache.LRU, droppedCacheSize *)
  calls : list Event;                   (* outbound effects so far *)
}.

Definition set_Ctx_IsBootstrapped (v : bool) (t : Transitive) : Transitive :=
    {| Ctx_IsBootstrapped := v;
       RequestID := RequestID t;
       world := world t;
       Params := Params t;
       polls := polls t;
       blkReqs := blkReqs t;
       pending := pending t;
       blocked := blocked t;
       errs := errs t;
       processing := processing t;
       decidedCache := decidedCache t;
       droppedCache := droppedCache t;
       calls := calls t |}.

Definition set_RequestID (v : Z) (t : Transitive) : Transitive :=
    {| Ctx_IsBootstrapped := Ctx_IsBootstrapped t;
       RequestID := v;
       world := world t;
       Params := Params t;
       polls := polls t;
       blkReqs := blkReqs t;
       pending := pending t;
       blocked := blocked t;
       errs := errs t;
       processing := processing t;
       decidedCache := decidedCache t;
       droppedCache := droppedCache t;
       calls := calls t |}.

Definition set_world (v : World) (t : Transitive) : Transitive :=
    {| Ctx_IsBootstrapped := Ctx_IsBootstrapped t;
       RequestID := RequestID t;
       world := v;
       Params := Params t;
       polls := polls t;
       blkReqs := blkReqs t;
       pending := pending t;
       blocked := blocked t;
       errs := errs t;
       processing := processing t;
       decidedCache := decidedCache t;
       droppedCache := droppedCache t;
       calls := calls t |}.

Definition set_Params (v : snowball.Parameters) (t : Transitive) : Transitive :=
    {| Ctx_IsBootstrapped := Ctx_IsBootstrapped t;
       RequestID := RequestID t;
       world := world t;
       Params := v;
       polls := polls t;
       blkReqs := blkReqs t;
       pending := pending t;
       blocked := blocked t;
       errs := errs t;
       processing := processing t;
       decidedCache := decidedCache t;
       droppedCache := droppedCache t;
       calls := calls t |}.

Definition set_polls (v : gmap Z poll.Poll) (t : Transitive) : Transitive :=
    {| Ctx_IsBootstrapped := Ctx_IsBootstrapped t;
       RequestID := RequestID t;
       world := world t;
       Params := Params t;
       polls := v;
       blkReqs := blkReqs t;
       pending := pending t;
       blocked := blocked t;
       errs := errs t;
       processing := processing t;
       decidedCache := decidedCache t;
       droppedCache := droppedCache t;
       calls := calls t |}.

Definition set_blkReqs (v : Requests.t) (t : Transitive) : Transitive :=
    {| Ctx_IsBootstrapped := Ctx_IsBootstrapped t;
       RequestID := RequestID t;
       world := world t;
       Params := Params t;
       polls := polls t;
       blkReqs := v;
       pending := pending t;
       blocked := blocked t;
       errs := errs t;
       processing := processing t;
       decidedCache := decidedCache t;
       droppedCache := droppedCache t;
       calls := calls t |}.

Definition set_pending (v : gset Z) (t : Transitive) : Transitive :=
    {| Ctx_IsBootstrapped := Ctx_IsBootstrapped t;
       RequestID := RequestID t;
       world := world t;
       Params := Params t;
       polls := polls t;
       blkReqs := blkReqs t;
       pending := v;
       blocked := blocked t;
       errs := errs t;
       processing := processing t;
       decidedCache := decidedCache t;
       droppedCache := droppedCache t;
       calls := calls t |}.

Definition set_blocked (v : list Blockable) (t : Transitive) : Transitive :=
    {| Ctx_IsBootstrapped := Ctx_IsBootstrapped t;
       RequestID := RequestID t;
       world := world t;
       Params := Params t;
       polls := polls t;
       blkReqs := blkReqs t;
       pending := pending t;
       blocked := v;
       errs := errs t;
       processing := processing t;
       decidedCache := decidedCache t;
       droppedCache := droppedCache t;
       calls := calls t |}.

Definition set_errs (v : option error) (t : Transitive) : Transitive :=
    {| Ctx_IsBootstrapped := Ctx_IsBootstrapped t;
       RequestID := RequestID t;
       world := world t;
       Params := Params t;
       polls := polls t;
       blkReqs := blkReqs t;
       pending := pending t;
       blocked := blocked t;
       errs := v;
       processing := processing t;
       decidedCache := decidedCache t;
       droppedCache := droppedCache t;
       calls := calls t |}.

Definition set_processing (v : gmap Z Block) (t : Transitive) : Transitive :=
    {| Ctx_IsBootstrapped := Ctx_IsBootstrapped t;
       RequestID := RequestID t;
       world := world t;
       Params := Params t;
       polls := polls t;
       blkReqs := blkReqs t;
       pending := pending t;
       blocked := blocked t;
       errs := errs t;
       processing := v;
       decidedCache := decidedCache t;
       droppedCache := droppedCache t;
       calls := calls t |}.

Definition set_decidedCache (v : list (Z * unit)) (t : Transitive) : Transitive :=
    {| Ctx_IsBootstrapped := Ctx_IsBootstrapped t;
       RequestID := RequestID t;
       world := world t;
       Params := Params t;
       polls := polls t;
       blkReqs := blkReqs t;
       pending := pending t;
       blocked := blocked t;
       errs := errs t;
       processing := processing t;
       decidedCache := v;
       droppedCache := droppedCache t;
       calls := calls t |}.

Definition set_droppedCache (v : list (Z * Block)) (t : Transitive) : Transitive :=
    {| Ctx_IsBootstrapped := Ctx_IsBootstrapped t;
       RequestID := RequestID t;
       world := world t;
       Params := Params t;
       polls := polls t;
       blkReqs := blkReqs t;
       pending := pending t;
       blocked := blocked t;
       errs := errs t;
       processing := processing t;
       decidedCache := decidedCache t;
       droppedCache := v;
       calls := calls t |}.

Definition set_calls (v : list Event) (t : Transitive) : Transitive :=
    {| Ctx_IsBootstrapped := Ctx_IsBootstrapped t;
       RequestID := RequestID t;
       world := world t;
       Params := Params t;
       polls := polls t;
       blkReqs := blkReqs t;
       pending := pending t;
       blocked := blocked t;
       errs := errs t;
       processing := processing t;
       decidedCache := decidedCache t;
       droppedCache := droppedCache t;
       calls := v |}.

Definition emit (e : Event) (t : Transitive) : Transitive :=
  set_calls (calls t ++ [e]) t.

(** Modelled from the spec: [wrappers.Errs.Add] lives in
    [utils/wrappers/errors.go]; the spec has "The errs accumulator captures
    the first internal error observed". *)
Definition errs_Add (e : option error) (t : Transitive) : Transitive :=
  match errs t with
  | Some _ => t
  | None => set_errs e t
  end.

(** Modelled from the spec: [wrappers.Errs.Errored], whether the
    "cumulative-error flag" is tripped. *)
Definition errs_Errored (t : Transitive) : bool :=
  match errs t with
  | Some _ => true
  | None => false
  end.

(** IsBootstrapped returns true iff this chain is done bootstrapping *)
Definition IsBootstrapped (t : Transitive) : bool := Ctx_IsBootstrapped t.

(** GetBlock gets a block by its ID: the processing set, then the cache of
    recently dropped blocks (a cache access), then the database. *)
Definition GetBlock (id : ID) (t : Transitive) : (Block + error) * Transitive :=
  match processing t !! id with
  | Some block => (inl block, t)
  | None =>
      match LRU.Get id (droppedCache t) with
      | (Some block, c) => (inl block, set_droppedCache c t)
      | (None, c) =>
          match VM_GetBlock (world t) id with
          | inl b => (inl (VMBlk b), set_droppedCache c t)
          | inr e => (inr e, set_droppedCache c t)
          end
      end
  end.

(** Request that [vdr] send us block [blkID] *)
Definition sendRequest (vdr : ShortID) (blkID : ID) (t : Transitive)
  : Transitive :=
  if Requests.Contains blkID (blkReqs t) then t
  else
    let t := set_RequestID (uint32_incr (RequestID t)) t in
    let t := set_blkReqs (Requests.Add vdr (RequestID t) blkID (blkReqs t)) t in
    emit (Sender_Get vdr (RequestID t) blkID) t.

(** send a pull request for this block ID *)
Definition pullSample (blkID : ID) (t : Transitive) : Transitive :=
  (* The validators we will query *)
  let '(w, vdrs) := Validators_Sample (world t) (snowball.K (Params t)) in
  let t := set_world w t in
  let vdrBag : list ShortID := match vdrs with inl l => l | inr _ => [] end in
  let t := set_RequestID (uint32_incr (RequestID t)) t in
  match vdrs with
  | inl _ =>
      let '(ok, s) := poll.Add (RequestID t) vdrBag (polls t) in
      let t := set_polls s t in
      if ok then
        let vdrSet : gset Z := list_to_set vdrBag in
        emit (Sender_PullQuery vdrSet (RequestID t) blkID) t
      else t
  | inr _ => t        (* the query is dropped *)
  end.

(** send a push request for this block *)
Definition pushSample (blk : Block) (t : Transitive) : Transitive :=
  let '(w, vdrs) := Validators_Sample (world t) (snowball.K (Params t)) in
  let t := set_world w t in
  let vdrBag : list ShortID := match vdrs with inl l => l | inr _ => [] end in
  let t := set_RequestID (uint32_incr (RequestID t)) t in
  match vdrs with
  | inl _ =>
      let '(ok, s) := poll.Add (RequestID t) vdrBag (polls t) in
      let t := set_polls s t in
      if ok then
        let vdrSet : gset Z := list_to_set vdrBag in
        emit (Sender_PushQuery vdrSet (RequestID t) (Block_ID blk) (Block_Bytes blk)) t
      else t
  | inr _ => t        (* the query is dropped *)
  end.

(** The loop of [repoll]: [for i := t.polls.Len(); i < ConcurrentRepolls; i++],
    with [n] the number of iterations left. *)
Fixpoint repoll_loop (n : nat) (prefID : ID) (t : Transitive) : Transitive :=
  match n with
  | O => t
  | S n => repoll_loop n prefID (pullSample prefID t)
  end.

(** Issue another poll to the network, asking what it prefers given the
    block we prefer. *)
Definition repoll (t : Transitive) : Transitive :=
  let prefID := Consensus_Preference (world t) in
  repoll_loop
    (Z.to_nat (snowball.ConcurrentRepolls (Params t) - poll.Len (polls t)))
    prefID t.


(** ** Computations that may re-enter the engine

    Running a continuation can call back into [deliver], which can run
    further continuations.  Such functions return [None] when the recursion
    budget they were given is used up. *)
Definition M (A : Type) : Type := Transitive -> option (A * Transitive).

Definition ret {A : Type} (a : A) : M A := fun t => Some (a, t).

Definition bind {A B : Type} (m : M A) (k : A -> M B) : M B :=
  fun t => match m t with
           | Some (a, t') => k a t'
           | None => None
           end.

Definition lift (f : Transitive -> Transitive) : M unit :=
  fun t => Some (tt, f t).

Definition lift' {A : Type} (f : Transitive -> A * Transitive) : M A :=
  fun t => Some (f t).

Definition get {A : Type} (f : Transitive -> A) : M A :=
  fun t => Some (f t, t).

Notation "x <- m ;; k" := (bind m (fun x => k))
  (at level 100, m at next level, right associativity).
Notation "m ;;; k" := (bind m (fun _ => k))
  (at level 100, right associativity).

Fixpoint forM {A : Type} (f : A -> M unit) (l : list A) : M unit :=
  match l with
  | [] => ret tt
  | a :: l => f a ;;; forM f l
  end.

(** ** The Blocker *)

(** Modelled from the spec: [events.Blocker] lives in
    [snow/events/blocker.go]; the spec has "Abandon(id): remove every
    continuation attached to id without running it; also propagate by
    calling Abandon on every block ID that those continuations were
    themselves awaiting to satisfy (transitive cancellation of the issuance
    subtree)", and a block leaves [pending] when it is "delivered or
    abandoned".  A cancelled Issuer takes its block out of [pending] and
    abandons it in turn; cancelled Convincers and Voters are dropped.
    [n] bounds the depth of the cascade. *)
Fixpoint Abandon_fuel (n : nat) (id : ID) : M unit :=
  match n with
  | O => fun _ => None
  | S n =>
      lift (emit (Blocker_Abandon id)) ;;;
      removed <- get (fun t => filter (fun c => id ∈ deps c) (blocked t)) ;;
      lift (fun t => set_blocked (filter (fun c => id ∉ deps c) (blocked t)) t) ;;;
      forM (fun c =>
              match action c with
              | issuer blk =>
                  lift (fun t => set_pending (pending t ∖ {[Block_ID blk]}) t) ;;;
                  Abandon_fuel n (Block_ID blk)
              | _ => ret tt
              end) removed
  end.

(** Every level of the cascade removes a continuation, so one more than the
    number of registered continuations is always enough
    ([Abandon_frame_ok] below). *)
Definition Abandon (id : ID) : M unit :=
  fun t => Abandon_fuel (S (length (blocked t))) id t.

(** Modelled from the spec: what a Voter does when it runs, [voter.Update]
    in [voter.go]; the spec has "it is responsible for calling into the
    poll set with (vdr, rid, response); the poll set decides if the poll
    concludes and, if so, calls Consensus.RecordPoll(bag-of-votes) which may
    yield acceptances/rejections. On any transition, update decidedCache,
    droppedCache, and processing in that atomic batch", followed by
    "cache updates -> repoll"; a tripped [errs] makes "further calls
    observe this and short-circuit". *)
Definition voter_Update (vdr : ShortID) (requestID : Z) (response : option ID)
  (t : Transitive) : Transitive :=
  if errs_Errored t then t
  else
    match poll.Vote (snowball.Alpha (Params t)) requestID vdr response (polls t) with
    | (None, s) => set_polls s t
    | (Some votes, s) =>
        let t := set_polls s t in
        let '(w, (decided, e)) := Consensus_RecordPoll (world t) votes in
        let t := emit (Consensus_RecordPoll_called votes) (set_world w t) in
        let t := errs_Add e t in
        if errs_Errored t then t
        else
          let t :=
            foldl (fun t blkID =>
                     let t := set_decidedCache
                                (LRU.Put decidedCacheSize blkID tt (decidedCache t)) t in
                     let t := set_droppedCache (LRU.Evict blkID (droppedCache t)) t in
                     set_processing (delete blkID (processing t)) t)
                  t decided in
          repoll t
    end.

(** Modelled from the spec: what a Convincer does when it runs,
    [convincer.Update] in [convincer.go]; the spec has "sends chits reply
    for a received pull/push query", the chit being the engine's current
    preference. *)
Definition convincer_Update (vdr : ShortID) (requestID : Z) (t : Transitive)
  : Transitive :=
  if errs_Errored t then t
  else emit (Sender_Chits vdr requestID [Consensus_Preference (world t)]) t.

(** Modelled from the spec: running a continuation whose dependencies are
    all fulfilled; for an Issuer this is [issuer.Update] in [issuer.go],
    which "issues its blk to Consensus via deliver" and feeds the result to
    the [errs] accumulator.  [deliver] is the engine's [deliver], passed in
    because it runs continuations itself. *)
Definition Update (deliver : Block -> M (option error)) (c : Blockable)
  : M unit :=
  match action c with
  | issuer blk =>
      tripped <- get errs_Errored ;;
      if tripped then ret tt
      else e <- deliver blk ;; lift (errs_Add e)
  | convincer vdr requestID => lift (convincer_Update vdr requestID)
  | voter vdr requestID response => lift (voter_Update vdr requestID response)
  end.

(** Modelled from the spec: [Blocker.Register]; the spec has "if c.deps is
    empty, run c immediately; else attach c under each ID in c.deps". *)
Definition Register_with (deliver : Block -> M (option error)) (c : Blockable)
  : M unit :=
  lift (emit (Blocker_Register c)) ;;;
  if decide (deps c = ∅) then Update deliver c
  else lift (fun t => set_blocked (blocked t ++ [c]) t).

(** Modelled from the spec: [Blocker.Fulfill]; the spec has "remove id from
    every attached continuation's dep set; any continuation whose dep set
    becomes empty is run (in registration order)", the ready list being
    taken before anything runs. *)
Definition Fulfill_with (deliver : Block -> M (option error)) (id : ID)
  : M unit :=
  lift (emit (Blocker_Fulfill id)) ;;;
  lift (fun t => set_blocked
                   ((fun c => {| deps := deps c ∖ {[id]}; action := action c |})
                      <$> blocked t) t) ;;;
  ready <- get (fun t => filter (fun c => deps c = ∅) (blocked t)) ;;
  lift (fun t => set_blocked (filter (fun c => deps c ≠ ∅) (blocked t)) t) ;;;
  forM (Update deliver) ready.

(** ** [deliver] *)

(** What [deliver] does with a block that Consensus reports as rejected on
    [Add]: [evictID] is the key passed to [droppedCache.Evict]. *)
Definition rejected_on_Add (blkID evictID : ID) (t : Transitive) : Transitive :=
  let t := set_decidedCache (LRU.Put decidedCacheSize blkID tt (decidedCache t)) t in
  let t := set_droppedCache (LRU.Evict evictID (droppedCache t)) t in
  set_processing (delete blkID (processing t)) t.

(** The loop over the options of an oracle block: [blkID] is the ID of the
    oracle block being delivered (the variable [blkID] of [deliver], which
    the loop body reads when an option is rejected).  The result is the
    error returned from inside the loop, or the [added] and [dropped]
    lists. *)
Fixpoint deliver_options (blkID : ID) (options : list VMBlock)
  (added dropped : list Block) (t : Transitive)
  : (error + list Block * list Block) * Transitive :=
  match options with
  | [] => (inr (added, dropped), t)
  | o :: options =>
      let blk := VMBlk o in
      let '(w, verr) := Block_Verify (world t) blk in
      let t := emit (Block_Verify_called blk) (set_world w t) in
      match verr with
      | Some _ => deliver_options blkID options added (dropped ++ [blk]) t
      | None =>
          let t := emit (Consensus_Add_called (world t) blk) t in
          let '(w, (rejected, err)) := Consensus_Add (world t) blk in
          let t := set_world w t in
          match err with
          | Some e => (inl e, t)
          | None =>
              let t :=
                if rejected then rejected_on_Add (Block_ID blk) blkID t else t in
              deliver_options blkID options (added ++ [blk]) dropped t
          end
      end
  end.

(** [blk.Options()] behind the type switch [case OracleBlock]: [None] when
    the block is not an oracle block. *)
Definition Block_Options (w : World) (blk : Block)
  : option (list VMBlock + error) :=
  match blk with
  | VMBlk b => if vmOracle b then Some (VMBlock_Options w b) else None
  | MissingBlk _ => None
  end.

(** issue [blk] to consensus.  [deliver_rec] stands for the calls of
    [deliver] made by the Issuers that [Fulfill] runs. *)
Definition deliver_body (deliver_rec : Block -> M (option error))
  (blk : Block) : M (option error) :=
  issued <- get (fun t => Consensus_Issued (world t) blk) ;;
  if (issued : bool) then ret None
  else
    (* we are adding the block to consensus, so it is no longer pending *)
    let blkID := Block_ID blk in
    lift (fun t => set_pending (pending t ∖ {[blkID]}) t) ;;;
    (* Make sure this block is valid *)
    verr <- lift' (fun t =>
              let '(w, verr) := Block_Verify (world t) blk in
              (verr, emit (Block_Verify_called blk) (set_world w t))) ;;
    match verr with
    | Some _ =>
        lift (fun t => set_processing (delete blkID (processing t)) t) ;;;
        lift (fun t => set_droppedCache
                         (LRU.Put droppedCacheSize blkID blk (droppedCache t)) t) ;;;
        (* if verify fails, then all descendants are also invalid *)
        Abandon blkID ;;;
        get errs
    | None =>
        r <- lift' (fun t =>
               let t := emit (Consensus_Add_called (world t) blk) t in
               let '(w, r) := Consensus_Add (world t) blk in
               (r, set_world w t)) ;;
        match r with
        | (_, Some e) => ret (Some e)
        | (rejected, None) =>
            (if (rejected : bool)
             then lift (rejected_on_Add blkID blkID) else ret tt) ;;;
            (* Add all the oracle blocks if they exist. *)
            opts <- get (fun t => Block_Options (world t) blk) ;;
            match opts with
            | Some (inr e) => ret (Some e)
            | _ =>
                let options :=
                  match opts with Some (inl l) => l | _ => [] end in
                res <- lift' (deliver_options blkID options [] []) ;;
                match res with
                | inl e => ret (Some e)
                | inr (added, dropped) =>
                    lift (fun t =>
                            let prefID := Consensus_Preference (world t) in
                            emit (VM_SetPreference_called prefID)
                              (set_world (VM_SetPreference (world t) prefID) t)) ;;;
                    (* Query the network for its preferences given this new block *)
                    lift (pushSample blk) ;;;
                    Fulfill_with deliver_rec blkID ;;;
                    forM (fun blk =>
                            lift (pushSample blk) ;;;
                            let blkID := Block_ID blk in
                            lift (fun t => set_pending (pending t ∖ {[blkID]}) t) ;;;
                            Fulfill_with deliver_rec blkID) added ;;;
                    forM (fun blk =>
                            let blkID := Block_ID blk in
                            lift (fun t => set_pending (pending t ∖ {[blkID]}) t) ;;;
                            Abandon blkID) dropped ;;;
                    (* If we should issue multiple queries at the same time, we need to repoll *)
                    lift repoll ;;;
                    get errs
                end
            end
        end
    end.

Fixpoint deliver_fuel (n : nat) (blk : Block) : M (option error) :=
  match n with
  | O => fun _ => None
  | S n => deliver_body (deliver_fuel n) blk
  end.

(** Every nested [deliver] is made by an Issuer that [Fulfill] has just
    removed from the Blocker, and [deliver] registers nothing, so one more
    than the number of registered continuations bounds the nesting
    ([deliver_total] below). *)
Definition deliver (blk : Block) : M (option error) :=
  fun t => deliver_fuel (S (length (blocked t))) blk t.

Definition Register : Blockable -> M unit := Register_with deliver.


(** ** The issuance resolver *)

(** Issue [blk] to consensus once its ancestors have been issued. *)
Definition issue (blk : Block) : M (option error) :=
  let blkID := Block_ID blk in
  (* mark that the block is queued to be added to consensus once its
     ancestors have been *)
  lift (fun t => set_pending (pending t ∪ {[blkID]}) t) ;;;
  (* Remove any outstanding requests for this block *)
  lift (fun t => set_blkReqs (Requests.RemoveAny blkID (blkReqs t)) t) ;;;
  (* block on the parent if needed *)
  let parentID := Block_Parent blk in
  inCache <- lift' (fun t =>
               let '(v, c) := LRU.Get parentID (decidedCache t) in
               (bool_decide (v ≠ None), set_decidedCache c t)) ;;
  parentIssued <-
    (if (inCache : bool) then ret true
     else
       parent <- lift' (GetBlock parentID) ;;
       match parent with
       | inl parent => get (fun t => Consensus_Issued (world t) parent)
       | inr _ => ret false
       end) ;;
  let i := {| deps := if (parentIssued : bool) then ∅ else {[parentID]};
              action := issuer blk |} in
  Register i ;;;
  get errs.

(** The loop of [issueFrom]; [blk] and [blkID] are the loop's variables.
    The walk follows parent links for as long as blocks are found, so it
    is given a budget [n] of iterations. *)
Fixpoint issueFrom_loop (n : nat) (vdr : ShortID) (blk : Block) (blkID : ID)
  : M (bool * option error) :=
  match n with
  | O => fun _ => None
  | S n =>
      continue <- get (fun t => negb (Consensus_Issued (world t) blk)
                                && negb (bool_decide (blkID ∈ pending t))) ;;
      if (continue : bool) then
        err <- issue blk ;;
        match err with
        | Some e => ret (false, Some e)
        | None =>
            let blkID := Block_Parent blk in
            decided <- lift' (fun t =>
                         let '(v, c) := LRU.Get blkID (decidedCache t) in
                         (bool_decide (v ≠ None), set_decidedCache c t)) ;;
            if (decided : bool) then
              (* We already decided this block. *)
              issued <- get (fun t => Consensus_Issued (world t) blk) ;;
              ret (issued, None)
            else
              r <- lift' (GetBlock blkID) ;;
              fetched <- get (fun t =>
                           match r with
                           | inl blk => choices.Fetched (Block_Status (world t) blk)
                           | inr _ => false
                           end) ;;
              match r, (fetched : bool) with
              | inl blk, true => issueFrom_loop n vdr blk blkID
              | _, _ =>
                  (* If we don't have this ancestor, request it from [vdr] *)
                  lift (sendRequest vdr blkID) ;;;
                  ret (false, None)
              end
        end
      else
        issued <- get (fun t => Consensus_Issued (world t) blk) ;;
        ret (issued, None)
  end.

(** issueFrom attempts to issue the branch ending with block [blkID] to
    consensus.  Returns true if the block was issued, now or previously, to
    consensus.  If a dependency is missing, request it from [vdr]. *)
Definition issueFrom (fuel : nat) (vdr : ShortID) (blk : Block)
  : M (bool * option error) :=
  issueFrom_loop fuel vdr blk (Block_ID blk).

(** issueFromByID attempts to issue the branch ending with a block [blkID]
    into consensus.  If we do not have [blkID], request it. *)
Definition issueFromByID (fuel : nat) (vdr : ShortID) (blkID : ID)
  : M (bool * option error) :=
  (* See if block [blkID] was recently accepted/rejected. *)
  wasDecided <- lift' (fun t =>
                  let '(v, c) := LRU.Get blkID (decidedCache t) in
                  (bool_decide (v ≠ None), set_decidedCache c t)) ;;
  if (wasDecided : bool) then ret (true, None)
  else
    r <- lift' (GetBlock blkID) ;;
    match r with
    | inr _ =>
        (* We don't have block [blkID]. Request it from [vdr]. *)
        lift (sendRequest vdr blkID) ;;;
        ret (false, None)
    | inl blk =>
        status <- get (fun t => Block_Status (world t) blk) ;;
        match status with
        | choices.Accepted | choices.Rejected =>
            (* block [blkID] has already been decided. *)
            lift (fun t => set_decidedCache
                             (LRU.Put decidedCacheSize blkID tt (decidedCache t)) t) ;;;
            ret (true, None)
        | _ =>
            (* We have block [blkID] but it's not yet decided. *)
            issueFrom fuel vdr blk
        end
    end.

(** The loop of [issueWithAncestors].  It ends either by returning from the
    function (left) or by leaving the loop with the current [blk] and
    [blkID] (right). *)
Fixpoint issueWithAncestors_loop (n : nat) (blk : Block) (blkID : ID)
  : M ((bool * option error) + (Block * ID)) :=
  match n with
  | O => fun _ => None
  | S n =>
      continue <- get (fun t => choices.Fetched (Block_Status (world t) blk)
                                && negb (Consensus_Issued (world t) blk)
                                && negb (bool_decide (blkID ∈ pending t))) ;;
      if (continue : bool) then
        err <- issue blk ;;
        match err with
        | Some e => ret (inl (false, Some e))
        | None =>
            let blkID := Block_Parent blk in
            r <- lift' (GetBlock blkID) ;;
            match r with
            | inl blk => issueWithAncestors_loop n blk blkID
            | inr _ =>
                (* Can't find the next ancestor *)
                issueWithAncestors_loop n
                  (MissingBlk {| missing.BlkID := blkID |}) blkID
            end
        end
      else ret (inr (blk, blkID))
  end.

(** issueWithAncestors attempts to issue the branch ending with [blk] to
    consensus.  If a dependency is missing and the dependency hasn't been
    requested, the issuance will be abandoned. *)
Definition issueWithAncestors (fuel : nat) (blk : Block)
  : M (bool * option error) :=
  r <- issueWithAncestors_loop fuel blk (Block_ID blk) ;;
  match r with
  | inl res => ret res
  | inr (blk, blkID) =>
      (* The block was issued into consensus. This is the happy path. *)
      issued <- get (fun t => Consensus_Issued (world t) blk) ;;
      if (issued : bool) then ret (true, None)
      else
        (* There's an outstanding request for this block. *)
        requested <- get (fun t => Requests.Contains blkID (blkReqs t)) ;;
        if (requested : bool) then ret (false, None)
        else
          (* Abandon the block to avoid a memory leak. *)
          Abandon blkID ;;;
          e <- get errs ;;
          ret (false, e)
  end.


(** ** Wire handlers *)

(** Gossip implements the Engine interface *)
Definition Gossip (t : Transitive) : option error * Transitive :=
  let blkID := VM_LastAccepted (world t) in
  match GetBlock blkID t with
  | (inr _, t) => (None, t)
  | (inl blk, t) => (None, emit (Sender_Gossip blkID (Block_Bytes blk)) t)
  end.

(** Get implements the Engine interface *)
Definition Get (vdr : ShortID) (requestID : Z) (blkID : ID) (t : Transitive)
  : option error * Transitive :=
  match GetBlock blkID t with
  | (inr _, t) => (None, t)
  | (inl blk, t) =>
      (* Respond to the validator with the fetched block and the same requestID. *)
      (None, emit (Sender_Put vdr requestID blkID (Block_Bytes blk)) t)
  end.

(** The loop of [GetAncestors],
    [for numFetched := 1; numFetched < MaxContainersPerMultiPut && ...; numFetched++],
    with [n] the number of iterations left.  The body's
    [blk, err := t.GetBlock(blkID)] declares variables of its own, so the
    [blk] whose [Parent()] is read at the top of every iteration is the
    function's [blk], which the loop never assigns. *)
Fixpoint GetAncestors_loop (n : nat) (numFetched : Z) (blk : Block)
  (ancestorsBytes : list Bytes) (ancestorsBytesLen : Z) (t : Transitive)
  : list Bytes * Transitive :=
  match n with
  | O => (ancestorsBytes, t)
  | S n =>
      if (numFetched <? MaxContainersPerMultiPut)
         && Clock_WithinFetchBudget (world t) numFetched
      then
        let blkID := Block_Parent blk in
        match GetBlock blkID t with
        | (inr _, t) => (ancestorsBytes, t)   (* We don't have the next block *)
        | (inl blk', t) =>
            let blkBytes := Block_Bytes blk' in
            (* Ensure response size isn't too large. *)
            let newLen := IntLen + ancestorsBytesLen + len blkBytes in
            if newLen <? maxContainersLen then
              GetAncestors_loop n (numFetched + 1) blk
                (ancestorsBytes ++ [blkBytes]) newLen t
            else (ancestorsBytes, t)          (* reached maximum response size *)
        end
      else (ancestorsBytes, t)
  end.

(** GetAncestors implements the Engine interface *)
Definition GetAncestors (vdr : ShortID) (requestID : Z) (blkID : ID)
  (t : Transitive) : option error * Transitive :=
  match GetBlock blkID t with
  | (inr _, t) => (None, t)       (* Don't have the block. Drop this request. *)
  | (inl blk, t) =>
      (* First elt is byte repr. of blk, then its parents, then grandparent, etc. *)
      let ancestorsBytes := [Block_Bytes blk] in
      let ancestorsBytesLen := len (Block_Bytes blk) + IntLen in
      let '(ancestorsBytes, t) :=
        GetAncestors_loop (Z.to_nat (MaxContainersPerMultiPut - 1)) 1 blk
          ancestorsBytes ancestorsBytesLen t in
      (None, emit (Sender_MultiPut vdr requestID ancestorsBytes) t)
  end.

(** GetFailed implements the Engine interface *)
Definition GetFailed (vdr : ShortID) (requestID : Z) : M (option error) :=
  (* not done bootstrapping --> didn't send a get --> this message is invalid *)
  bootstrapped <- get Ctx_IsBootstrapped ;;
  if negb bootstrapped then ret None
  else
    (* Check to see if we have an outstanding request and also get what the
       request was for if it exists. *)
    r <- lift' (fun t =>
           let '(blkID, reqs) := Requests.Remove vdr requestID (blkReqs t) in
           (blkID, set_blkReqs reqs t)) ;;
    match r with
    | None => ret None
    | Some blkID =>
        (* Because the get request was dropped, we no longer expect blkID to
           be issued. *)
        Abandon blkID ;;;
        get errs
    end.

(** Pin this block in memory until it's decided or dropped: the map is
    written under [key], the dropped cache evicted under [blkID]. *)
Definition pin (key blkID : ID) (blk : Block) (t : Transitive) : Transitive :=
  let t := set_processing (<[key := blk]> (processing t)) t in
  set_droppedCache (LRU.Evict blkID (droppedCache t)) t.

(** Put implements the Engine interface *)
Definition Put (fuel : nat) (vdr : ShortID) (requestID : Z) (blkID : ID)
  (blkBytes : Bytes) : M (option error) :=
  (* bootstrapping isn't done --> we didn't send any gets --> this put is invalid *)
  bootstrapped <- get IsBootstrapped ;;
  if negb bootstrapped then ret None
  else
    parsed <- get (fun t => VM_ParseBlock (world t) blkBytes) ;;
    match parsed with
    | inr _ =>
        (* we can safely call GetFailed here to potentially abandon the request. *)
        GetFailed vdr requestID
    | inl b =>
        let blk := VMBlk b in
        status <- get (fun t => Block_Status (world t) blk) ;;
        (if choices.eqb status choices.Processing
         then lift (pin (Block_ID blk) blkID blk) else ret tt) ;;;
        (* issue the block into consensus. *)
        r <- issueFrom fuel vdr blk ;;
        ret (snd r)
    end.

(** PullQuery implements the Engine interface *)
Definition PullQuery (fuel : nat) (vdr : ShortID) (requestID : Z) (blkID : ID)
  : M (option error) :=
  (* If the engine hasn't been bootstrapped, we aren't ready to respond to queries *)
  bootstrapped <- get Ctx_IsBootstrapped ;;
  if negb bootstrapped then ret None
  else
    (* Try to issue [blkID] to consensus.
       If we're missing an ancestor, request it from [vdr] *)
    r <- issueFromByID fuel vdr blkID ;;
    match r with
    | (_, Some e) => ret (Some e)
    | (added, None) =>
        (* Will send chits once we've issued block [blkID] into consensus;
           wait until we've issued block [blkID] before sending chits. *)
        let c := {| deps := if (added : bool) then ∅ else {[blkID]};
                    action := convincer vdr requestID |} in
        Register c ;;;
        get errs
    end.

(** PushQuery implements the Engine interface *)
Definition PushQuery (fuel : nat) (vdr : ShortID) (requestID : Z) (blkID : ID)
  (blkBytes : Bytes) : M (option error) :=
  (* if the engine hasn't been bootstrapped, we aren't ready to respond to queries *)
  bootstrapped <- get Ctx_IsBootstrapped ;;
  if negb bootstrapped then ret None
  else
    parsed <- get (fun t => VM_ParseBlock (world t) blkBytes) ;;
    match parsed with
    | inr _ => ret None   (* we just drop the request, as we didn't ask for it *)
    | inl b =>
        let blk := VMBlk b in
        if negb (Block_ID blk =? blkID) then ret None
        else
          status <- get (fun t => Block_Status (world t) blk) ;;
          (if choices.eqb status choices.Processing
           then lift (pin blkID blkID blk) else ret tt) ;;;
          r <- issueFrom fuel vdr blk ;;
          match snd r with
          | Some e => ret (Some e)
          | None =>
              (* register the chit request *)
              PullQuery fuel vdr requestID blkID
          end
    end.

(** QueryFailed implements the Engine interface *)
Definition QueryFailed (vdr : ShortID) (requestID : Z) : M (option error) :=
  (* If the engine hasn't been bootstrapped, we didn't issue a query *)
  bootstrapped <- get Ctx_IsBootstrapped ;;
  if negb bootstrapped then ret None
  else
    Register {| deps := ∅; action := voter vdr requestID None |} ;;;
    get errs.

(** Chits implements the Engine interface *)
Definition Chits (fuel : nat) (vdr : ShortID) (requestID : Z) (votes : gset Z)
  : M (option error) :=
  (* if the engine hasn't been bootstrapped, we shouldn't be receiving chits *)
  bootstrapped <- get Ctx_IsBootstrapped ;;
  if negb bootstrapped then ret None
  else
    (* Since this is a linear chain, there should only be one ID in the vote set *)
    match elements votes with
    | [blkID] =>
        r <- issueFromByID fuel vdr blkID ;;
        match r with
        | (_, Some e) => ret (Some e)
        | (added, None) =>
            (* Will record chits once [blkID] has been issued into consensus *)
            let v := {| deps := if (added : bool) then ∅ else {[blkID]};
                        action := voter vdr requestID (Some blkID) |} in
            Register v ;;;
            get errs
        end
    | _ =>
        (* we can safely call QueryFailed here to potentially abandon the request. *)
        QueryFailed vdr requestID
    end.

(** Notify implements the Engine interface *)
Definition Notify (fuel : nat) (msg : Message) : M (option error) :=
  (* if the engine hasn't been bootstrapped, we shouldn't build/issue blocks from the VM *)
  bootstrapped <- get Ctx_IsBootstrapped ;;
  if negb bootstrapped then ret None
  else
    match msg with
    | PendingTxs =>
        (* the pending txs message means we should attempt to build a block. *)
        built <- lift' (fun t =>
                   let '(w, r) := VM_BuildBlock (world t) in (r, set_world w t)) ;;
        match built with
        | inr _ => ret None
        | inl b =>
            let blk := VMBlk b in
            let blkID := Block_ID blk in
            (* a newly created block is expected to be processing. *)
            status <- get (fun t => Block_Status (world t) blk) ;;
            known <- get (fun t => bool_decide (blkID ∈ pending t)
                                   || Consensus_Issued (world t) blk) ;;
            if negb (choices.eqb status choices.Processing) then ret None
            else if (known : bool) then ret None
            else
              lift (pin blkID blkID blk) ;;;
              r <- issueWithAncestors fuel blk ;;
              match snd r with
              | Some e => ret (Some e)
              | None => ret None
              end
        end
    | OtherMessage _ => ret None
    end.

(** ** Start-up *)

(** Initialize implements the Engine interface: the engine's own fields.
    [w] is the state of the collaborators handed over in [config]. *)
Definition Initialize (params : snowball.Parameters) (w : World) : Transitive :=
  {| Ctx_IsBootstrapped := false;
     RequestID := 0;
     world := w;
     Params := params;
     polls := ∅;
     blkReqs := [];
     pending := ∅;
     blocked := [];
     errs := None;
     processing := ∅;
     decidedCache := [];
     droppedCache := [];
     calls := [] |}.

(** The loop of [finishBootstrapping] over the options of the last
    accepted block. *)
Fixpoint finishBootstrapping_options (options : list VMBlock) : M (option error) :=
  match options with
  | [] => ret None
  | o :: options =>
      (* note that deliver will set the VM's preference *)
      err <- deliver (VMBlk o) ;;
      match err with
      | Some e => ret (Some e)
      | None => finishBootstrapping_options options
      end
  end.

(** When bootstrapping is finished, this will be called.
    This initializes the consensus engine with the last accepted block. *)
Definition finishBootstrapping : M (option error) :=
  (* initialize consensus to the last accepted blockID *)
  lastAcceptedID <- get (fun t => VM_LastAccepted (world t)) ;;
  lift (fun t => set_world (Consensus_Initialize (world t) lastAcceptedID) t) ;;;
  lastAccepted <- get (fun t => VM_GetBlock (world t) lastAcceptedID) ;;
  match lastAccepted with
  | inr e => ret (Some e)
  | inl b =>
      opts <- get (fun t => Block_Options (world t) (VMBlk b)) ;;
      match opts with
      | Some (inr e) => ret (Some e)
      | Some (inl options) => finishBootstrapping_options options
      | None =>
          (* we need to set the preference to the last accepted block *)
          lift (fun t =>
                  emit (VM_SetPreference_called lastAcceptedID)
                    (set_world (VM_SetPreference (world t) lastAcceptedID) t)) ;;;
          ret None
      end
  end.

End Engine.

(** ** A small concrete set of collaborators

    Used to run the engine on explicit inputs: a VM that knows a fixed list
    of blocks, and a consensus core that keeps the tree of blocks added to
    it and rejects on [Add] a block whose parent is not in the tree. *)
Module Toy.

Record World : Type := {
  known : list VMBlock;             (* what ParseBlock recognises *)
  store : list VMBlock;             (* what VM.GetBlock finds *)
  status : gmap Z choices.Status;   (* absent: Processing *)
  invalid : gset Z;                 (* blocks whose Verify fails *)
  options : gmap Z (list VMBlock);  (* the options of oracle blocks *)
  built : option VMBlock;           (* what BuildBlock returns next *)
  lastAccepted : ID;
  vmPreference : ID;
  tree : gset Z;                    (* blocks in consensus *)
  preference : ID;
  validators : list ShortID;
}.

Definition bytes_eqb (a b : list Byte.byte) : bool :=
  (length a =? length b)%nat && forallb (fun p => Byte.eqb p.1 p.2) (combine a b).

Definition Status (w : World) (b : VMBlock) : choices.Status :=
  default choices.Processing (status w !! vmID b).

Definition Verify (w : World) (b : VMBlock) : World * option error :=
  (w, if bool_decide (vmID b ∈ invalid w) then Some (errExternal 1) else None).

Definition Options (w : World) (b : VMBlock) : list VMBlock + error :=
  inl (filter (fun o => vmParent o = vmID b) (default [] (options w !! vmID b))).

Definition ParseBlock (w : World) (bs : list Byte.byte) : VMBlock + error :=
  match List.find (fun b => bytes_eqb (vmBytes b) bs) (known w) with
  | Some b => inl b
  | None => inr (errExternal 2)
  end.

Definition GetBlock (w : World) (id : ID) : VMBlock + error :=
  match List.find (fun b => vmID b =? id) (store w) with
  | Some b => inl b
  | None => inr (errExternal 3)
  end.

Definition BuildBlock (w : World) : World * (VMBlock + error) :=
  ({| known := known w; store := store w; status := status w;
      invalid := invalid w; options := options w; built := None;
      lastAccepted := lastAccepted w; vmPreference := vmPreference w;
      tree := tree w; preference := preference w;
      validators := validators w |},
   match built w with
   | Some b => inl b
   | None => inr (errExternal 4)
   end).

Definition SetPreference (w : World) (id : ID) : World :=
  {| known := known w; store := store w; status := status w;
     invalid := invalid w; options := options w; built := built w;
     lastAccepted := lastAccepted w; vmPreference := id;
     tree := tree w; preference := preference w;
     validators := validators w |}.

Definition ConsensusInitialize (w : World) (lastAcceptedID : ID) : World :=
  {| known := known w; store := store w; status := status w;
     invalid := invalid w; options := options w; built := built w;
     lastAccepted := lastAccepted w; vmPreference := vmPreference w;
     tree := {[lastAcceptedID]}; preference := lastAcceptedID;
     validators := validators w |}.

Definition Issued (w : World) (blk : Block) : bool :=
  match blk with
  | VMBlk b => choices.Decided (Status w b) || bool_decide (vmID b ∈ tree w)
  | MissingBlk mb => bool_decide (missing.ID mb ∈ tree w)
  end.

Definition Add (w : World) (blk : Block) : World * (bool * option error) :=
  if bool_decide (Block_Parent blk ∈ tree w) then
    ({| known := known w; store := store w; status := status w;
        invalid := invalid w; options := options w; built := built w;
        lastAccepted := lastAccepted w; vmPreference := vmPreference w;
        tree := tree w ∪ {[Block_ID blk]};
        preference := if Block_Parent blk =? preference w
                      then Block_ID blk else preference w;
        validators := validators w |},
     (false, None))
  else
    ({| known := known w; store := store w;
        status := <[Block_ID blk := choices.Rejected]> (status w);
        invalid := invalid w; options := options w; built := built w;
        lastAccepted := lastAccepted w; vmPreference := vmPreference w;
        tree := tree w; preference := preference w;
        validators := validators w |},
     (true, None)).

Definition RecordPoll (w : World) (votes : list ID)
  : World * (list ID * option error) :=
  (w, ([], None)).

Definition Sample (w : World) (k : Z) : World * (list ShortID + error) :=
  (w, if k <=? Z.of_nat (length (validators w))
      then inl (take (Z.to_nat k) (validators w))
      else inr (errExternal 5)).

#[global] Instance collaborators : Collaborators World := {|
  VMBlock_Status := Status;
  VMBlock_Verify := Verify;
  VMBlock_Options := Options;
  VM_ParseBlock := ParseBlock;
  VM_GetBlock := GetBlock;
  VM_BuildBlock := BuildBlock;
  VM_LastAccepted := lastAccepted;
  VM_SetPreference := SetPreference;
  Consensus_Initialize := ConsensusInitialize;
  Consensus_Issued := Issued;
  Consensus_Add := Add;
  Consensus_Preference := preference;
  Consensus_RecordPoll := RecordPoll;
  Validators_Sample := Sample;
  Clock_WithinFetchBudget := fun _ _ => true;
|}.

(** The chain used in the examples: genesis [G] (accepted), then [A], [B]
    on top of it; [O] is an oracle block on [G] with options [O1], [O2]. *)
Definition bytes_of (n : nat) : list Byte.byte := repeat Byte.x2a n.

Definition G : VMBlock :=
  {| vmID := 1; vmParent := 0; vmBytes := bytes_of 1; vmOracle := false |}.
Definition A : VMBlock :=
  {| vmID := 2; vmParent := 1; vmBytes := bytes_of 2; vmOracle := false |}.
Definition B : VMBlock :=
  {| vmID := 3; vmParent := 2; vmBytes := bytes_of 3; vmOracle := false |}.
Definition O : VMBlock :=
  {| vmID := 10; vmParent := 1; vmBytes := bytes_of 10; vmOracle := true |}.
Definition O1 : VMBlock :=
  {| vmID := 11; vmParent := 10; vmBytes := bytes_of 11; vmOracle := false |}.
Definition O2 : VMBlock :=
  {| vmID := 12; vmParent := 10; vmBytes := bytes_of 12; vmOracle := false |}.

(** Genesis accepted and in consensus, three validators. *)
Definition w0 : World :=
  {| known := [G; A; B; O; O1; O2];
     store := [G];
     status := {[ 1 := choices.Accepted ]};
     invalid := ∅;
     options := {[ 10 := [O1; O2] ]};
     built := None;
     lastAccepted := 1;
     vmPreference := 1;
     tree := {[ 1 ]};
     preference := 1;
     validators := [101; 102; 103] |}.

Definition params0 : snowball.Parameters :=
  {| snowball.K := 2; snowball.Alpha := 2; snowball.ConcurrentRepolls := 1 |}.

(** A bootstrapped engine on [w0] with nothing in flight. *)
Definition t0 : Transitive :=
  set_Ctx_IsBootstrapped true (Initialize params0 w0).

(** The state reached by running a computation; the state it started from
    if it ran out of budget. *)
Definition run {A : Type} (m : @M World A) (t : Transitive) : Transitive :=
  match m t with
  | Some (_, t') => t'
  | None => t
  end.

(** The engine after the hand-over from the Bootstrapper. *)
Definition t_boot : Transitive :=
  set_Ctx_IsBootstrapped true (run finishBootstrapping (Initialize params0 w0)).

(** ... and after it has then received [Put(A)]. *)
Definition t_A : Transitive :=
  run (Put 5 101 0 2 (bytes_of 2)) t_boot.

End Toy.

(** ** Ordering of [Consensus.Add]: what is assumed and what is maintained *)

Section Ordering.

Context {World : Type} `{Collab : Collaborators World}.

(** "[Consensus.Issued(parent)] is true or the parent is decided", for a
    parent known by its ID: some block with that ID is issued, or is
    Accepted or Rejected. *)
Definition issued_or_decided (w : World) (id : ID) : Prop :=
  exists p : VMBlock,
    vmID p = id
    /\ (Consensus_Issued w (VMBlk p) = true
        \/ choices.Decided (VMBlock_Status w p) = true).

(** A change of the collaborators that un-issues and un-decides nothing. *)
Definition no_regress (w w' : World) : Prop :=
  forall id, issued_or_decided w id -> issued_or_decided w' id.

(** The contract of the collaborators the ordering relies on: Consensus
    never forgets a block it was given or a decision it took, a block is
    issued or decided once [Add] has returned, the decisions reported by
    [RecordPoll] are decisions, the options of an oracle block are its
    children, the VM answers [GetBlock(id)] with a block of that ID, and
    the last accepted block is known to a freshly initialized Consensus. *)
Class Contract : Prop := {
  Verify_no_regress : forall w b, no_regress w (VMBlock_Verify w b).1;
  Add_no_regress : forall w blk, no_regress w (Consensus_Add w blk).1;
  Add_issues : forall w b w' rejected,
    Consensus_Add w (VMBlk b) = (w', (rejected, None)) ->
    issued_or_decided w' (vmID b);
  SetPreference_no_regress : forall w id, no_regress w (VM_SetPreference w id);
  BuildBlock_no_regress : forall w, no_regress w (VM_BuildBlock w).1;
  RecordPoll_no_regress : forall w votes,
    no_regress w (Consensus_RecordPoll w votes).1;
  RecordPoll_decided : forall w votes w' decided e,
    Consensus_RecordPoll w votes = (w', (decided, e)) ->
    Forall (issued_or_decided w') decided;
  Sample_no_regress : forall w k, no_regress w (Validators_Sample w k).1;
  Options_children : forall w b options,
    VMBlock_Options w b = inl options ->
    Forall (fun o => vmParent o = vmID b) options;
  GetBlock_ID : forall w id b, VM_GetBlock w id = inl b -> vmID b = id;
  Initialize_lastAccepted : forall w,
    issued_or_decided (Consensus_Initialize w (VM_LastAccepted w))
      (VM_LastAccepted w);
}.

(** A block held under [id] is a VM block whose ID is [id]. *)
Definition from_VM (id : ID) (blk : Block) : Prop :=
  exists b, blk = VMBlk b /\ vmID b = id.

(** The invariant of the engine state behind the ordering. *)
Record Inv (t : @Transitive World) : Prop := {
  (* the decided cache only names blocks that are issued or decided *)
  inv_decided :
    Forall (fun e => issued_or_decided (world t) e.1) (decidedCache t);
  (* a registered Issuer waits for the parent of its block *)
  inv_blocked :
    Forall (fun c => forall blk, action c = issuer blk ->
                       from_VM (Block_ID blk) blk
                       /\ deps c = {[Block_Parent blk]}) (blocked t);
  inv_processing : map_Forall from_VM (processing t);
  inv_dropped : Forall (fun e => from_VM e.1 e.2) (droppedCache t);
  (* every [Consensus.Add(blk)] so far was made with the parent issued or
     decided *)
  inv_calls :
    Forall (fun e => forall w blk, e = Consensus_Add_called w blk ->
                       issued_or_decided w (Block_Parent blk)) (calls t);
}.

(** From [t] the engine got to [t'], keeping the invariant. *)
Record step (t t' : @Transitive World) : Prop := {
  step_inv : Inv t';
  step_world : no_regress (world t) (world t');
  step_boot : Ctx_IsBootstrapped t' = Ctx_IsBootstrapped t;
}.

(** Partial correctness of a computation that may re-enter the engine. *)
Definition wp {A : Type} (m : M A) (Q : A -> @Transitive World -> Prop)
  (t : Transitive) : Prop :=
  forall a t', m t = Some (a, t') -> Q a t'.

(** Total correctness: the computation completes within its budget and the
    result satisfies [Q]. *)
Definition twp {A : Type} (m : M A) (Q : A -> @Transitive World -> Prop)
  (t : Transitive) : Prop :=
  exists a t', m t = Some (a, t') /\ Q a t'.

(** Modelled from the spec: the hand-over from the Bootstrapper, which is
    not part of the engine's file; the spec has "When the external
    Bootstrapper signals completion, the engine initializes Consensus with
    the VM's LastAccepted() ID [...] After this point, IsBootstrapped()
    returns true and message handlers become active".  The states the
    engine can be in: it is initialized, the Bootstrapper hands over once,
    and messages are handled one at a time. *)
Inductive reachable (D IntLen Max : Z) : @Transitive World -> Prop :=
| reach_Initialize params w : reachable D IntLen Max (Initialize params w)
| reach_finishBootstrapping t t' :
    reachable D IntLen Max t ->
    Ctx_IsBootstrapped t = false ->
    finishBootstrapping t = Some (None, t') ->
    reachable D IntLen Max (set_Ctx_IsBootstrapped true t')
| reach_Gossip t :
    reachable D IntLen Max t -> reachable D IntLen Max (Gossip t).2
| reach_Get t vdr requestID blkID :
    reachable D IntLen Max t ->
    reachable D IntLen Max (Get vdr requestID blkID t).2
| reach_GetAncestors t vdr requestID blkID :
    reachable D IntLen Max t ->
    reachable D IntLen Max (GetAncestors D IntLen Max vdr requestID blkID t).2
| reach_Put t fuel vdr requestID blkID blkBytes e t' :
    reachable D IntLen Max t ->
    Put fuel vdr requestID blkID blkBytes t = Some (e, t') ->
    reachable D IntLen Max t'
| reach_GetFailed t vdr requestID e t' :
    reachable D IntLen Max t ->
    GetFailed vdr requestID t = Some (e, t') ->
    reachable D IntLen Max t'
| reach_PullQuery t fuel vdr requestID blkID e t' :
    reachable D IntLen Max t ->
    PullQuery fuel vdr requestID blkID t = Some (e, t') ->
    reachable D IntLen Max t'
| reach_PushQuery t fuel vdr requestID blkID blkBytes e t' :
    reachable D IntLen Max t ->
    PushQuery fuel vdr requestID blkID blkBytes t = Some (e, t') ->
    reachable D IntLen Max t'
| reach_Chits t fuel vdr requestID votes e t' :
    reachable D IntLen Max t ->
    Chits fuel vdr requestID votes t = Some (e, t') ->
    reachable D IntLen Max t'
| reach_QueryFailed t vdr requestID e t' :
    reachable D IntLen Max t ->
    QueryFailed vdr requestID t = Some (e, t') ->
    reachable D IntLen Max t'
| reach_Notify t fuel msg e t' :
    reachable D IntLen Max t ->
    Notify fuel msg t = Some (e, t') ->
    reachable D IntLen Max t'.

End Ordering.

(** The size of the containers of a [MultiPut], each one counted with its
    length prefix of [IntLen] bytes. *)
Definition containersLen (IntLen : Z) (containers : list (list Byte.byte)) : Z :=
  foldr (fun c n => len c + IntLen + n) 0 containers.


(** What an [Abandon] cascade leaves alone: every field but [blocked],
    [pending] and the record of calls. *)
Definition untouched_by_Abandon {World : Type} (t : @Transitive World) :=
  (Ctx_IsBootstrapped t, RequestID t, world t, Params t, polls t, blkReqs t,
   errs t, processing t, decidedCache t, droppedCache t).

(** The effect of an [Abandon] cascade on the engine: continuations and
    pending IDs are only removed, the calls made are calls of [Abandon]. *)
Record Abandon_frame {World : Type} (t t' : @Transitive World) : Prop := {
  af_blocked : blocked t' ⊆ blocked t;
  af_length : (length (blocked t') <= length (blocked t))%nat;
  af_pending : pending t' ⊆ pending t;
  af_untouched : untouched_by_Abandon t' = untouched_by_Abandon t;
  af_calls : exists ids, calls t' = calls t ++ (Blocker_Abandon <$> ids);
}.

(** ** Relations between engine states used by the further properties *)

(** What delivering a block never does: it queues nothing in [pending],
    pins nothing in [processing], and leaves the outstanding requests, the
    parameters and the bootstrapping flag alone. *)
Record releases {World : Type} (t t' : @Transitive World) : Prop := {
  rel_pending : pending t' ⊆ pending t;
  rel_processing : processing t' ⊆ processing t;
  rel_blkReqs : blkReqs t' = blkReqs t;
  rel_Params : Params t' = Params t;
  rel_boot : Ctx_IsBootstrapped t' = Ctx_IsBootstrapped t;
}.

(** Every call of [Consensus.Add] in a sequence of calls comes right after
    a call of [Verify] on the same block that returned no error: the state
    [w] of the collaborators in which [Add] is called is the one a
    [Verify] of the block left when it reported success. *)
Definition verified_adds {World : Type} `{Collab : Collaborators World}
  (l : list (@Event World)) : Prop :=
  forall l1 w blk l2,
    l = l1 ++ Consensus_Add_called w blk :: l2 ->
    exists l0 w0,
      l1 = l0 ++ [Block_Verify_called blk]
      /\ Block_Verify w0 blk = (w, None).

(** A call other than [Consensus.Add]. *)
Definition not_Add {World : Type} (e : @Event World) : Prop :=
  match e with Consensus_Add_called _ _ => False | _ => True end.

(** A call that serves a block to a peer: [Put], [MultiPut] or [Gossip]. *)
Definition serving {World : Type} (e : @Event World) : Prop :=
  match e with
  | Sender_Put _ _ _ _ | Sender_MultiPut _ _ _ | Sender_Gossip _ _ => True
  | _ => False
  end.

(** From [t] the engine got to [t'] by making calls in which every
    [Consensus.Add] follows a successful [Verify] of its block, with the
    parameters and the bootstrapping flag it had. *)
Record orderly {World : Type} `{Collab : Collaborators World}
  (t t' : @Transitive World) : Prop := {
  ord_calls : exists l, calls t' = calls t ++ l /\ verified_adds l;
  ord_Params : Params t' = Params t;
  ord_boot : Ctx_IsBootstrapped t' = Ctx_IsBootstrapped t;
}.

(** Collaborators whose [Consensus.Add], [Options] and
    [Consensus.RecordPoll] never return an error. *)
Class Faultless {World : Type} `{Collab : Collaborators World} : Prop := {
  Add_never_fails : forall w blk, (Consensus_Add w blk).2.2 = None;
  Options_never_fails : forall w b e, VMBlock_Options w b ≠ inr e;
  RecordPoll_never_fails : forall w votes,
    (Consensus_RecordPoll w votes).2.2 = None;
}.

(** The collaborators of the examples with a block [A] that fails
    verification. *)
Definition Toy_w_invalid : Toy.World :=
  {| Toy.known := Toy.known Toy.w0; Toy.store := Toy.store Toy.w0;
     Toy.status := Toy.status Toy.w0; Toy.invalid := {[ 2 ]};
     Toy.options := Toy.options Toy.w0; Toy.built := None;
     Toy.lastAccepted := 1; Toy.vmPreference := 1;
     Toy.tree := {[ 1 ]}; Toy.preference := 1;
     Toy.validators := Toy.validators Toy.w0 |}.

(** The engine of the examples after the hand-over and a [PullQuery] for
    the genesis block. *)
Definition Toy_t_query : Transitive :=
  Toy.run (PullQuery 5 101 7 1) Toy.t_boot.

(** ** Blocks identified by their ID, and what a rejection on [Add] leaves *)

(** The parent link of a block is the one its ID stands for. *)
Definition linked (parentOf : ID -> ID) (blk : Block) : Prop :=
  match blk with
  | VMBlk b => vmParent b = parentOf (vmID b)
  | MissingBlk _ => True
  end.

(** Collaborators for which an ID names one block: every block the VM hands
    out has the parent that [parentOf] gives for its ID (an ID is the hash
    of the block), and [Consensus.Issued] answers by ID, a decided block
    counting as issued. *)
Class Identified {World : Type} `{Collab : Collaborators World}
  (parentOf : ID -> ID) : Prop := {
  ParseBlock_linked : forall w bs b,
    VM_ParseBlock w bs = inl b -> linked parentOf (VMBlk b);
  GetBlock_linked : forall w id b,
    VM_GetBlock w id = inl b -> linked parentOf (VMBlk b);
  BuildBlock_linked : forall w b,
    (VM_BuildBlock w).2 = inl b -> linked parentOf (VMBlk b);
  Options_linked : forall w b options,
    VMBlock_Options w b = inl options ->
    Forall (fun o => linked parentOf (VMBlk o)) options;
  Issued_by_ID : forall w b,
    issued_or_decided w (vmID b) -> Consensus_Issued w (VMBlk b) = true;
}.

(** A block ID after the treatment of a rejection: not pinned in
    [processing], not in the dropped cache, and in the decided cache unless
    that cache is full. *)
Definition settled {World : Type} (t : @Transitive World) (id : ID) : Prop :=
  processing t !! id = None
  /\ LRU.lookup id (droppedCache t) = None
  /\ ((length (decidedCache t) < decidedCacheSize)%nat ->
      LRU.lookup id (decidedCache t) = Some tt).


(** A call, if it is a call of [Consensus.Add] that reported an immediate
    rejection, is on a block that is issued or decided and settled. *)
Definition rejection_settled {World : Type} `{Collab : Collaborators World}
  (t : @Transitive World) (e : @Event World) : Prop :=
  forall w blk,
    e = Consensus_Add_called w blk ->
    (Consensus_Add w blk).2 = (true, None) ->
    issued_or_decided (world t) (Block_ID blk) /\ settled t (Block_ID blk).

(** From [t0] the engine got to [t], keeping the ordering invariant and:
    the blocks it holds have the parent their ID stands for, a block in the
    dropped cache has a parent that is issued or decided, the decided cache
    holds an ID once, and the rejections reported by [Add] on the way are
    settled. *)
Record sound {World : Type} `{Collab : Collaborators World}
  (parentOf : ID -> ID) (t0 t : @Transitive World) : Prop := {
  snd_step : step t0 t;
  snd_processing : map_Forall (fun _ blk => linked parentOf blk) (processing t);
  snd_dropped :
    Forall (fun e => linked parentOf e.2
                     /\ issued_or_decided (world t) (parentOf e.1))
           (droppedCache t);
  snd_blocked :
    Forall (fun c => forall blk, action c = issuer blk -> linked parentOf blk)
           (blocked t);
  snd_decided : NoDup (decidedCache t).*1;
  snd_calls :
    exists l, calls t = calls t0 ++ l /\ Forall (rejection_settled t) l;
}.

(** ** Concrete collaborators whose VM checks the parent links

    The collaborators of [Toy], with a VM that hands out a block only if
    its parent is the one recorded for its ID in the chain of the
    examples. *)
Module Chain.

Record World : Type := { base : Toy.World }.

Definition parentOf (id : ID) : ID :=
  if id =? 2 then 1
  else if id =? 3 then 2
  else if id =? 10 then 1
  else if id =? 11 then 10
  else if id =? 12 then 10
  else 0.

Definition checked (b : VMBlock) : bool := vmParent b =? parentOf (vmID b).

Definition check (r : VMBlock + error) : VMBlock + error :=
  match r with
  | inl b => if checked b then inl b else inr (errExternal 6)
  | inr e => inr e
  end.

#[global] Instance collaborators : Collaborators World := {|
  VMBlock_Status := fun w b => Toy.Status (base w) b;
  VMBlock_Verify := fun w b =>
    ({| base := (Toy.Verify (base w) b).1 |}, (Toy.Verify (base w) b).2);
  VMBlock_Options := fun w b =>
    match Toy.Options (base w) b with
    | inl l => inl (filter (fun o => checked o = true) l)
    | inr e => inr e
    end;
  VM_ParseBlock := fun w bs => check (Toy.ParseBlock (base w) bs);
  VM_GetBlock := fun w id => check (Toy.GetBlock (base w) id);
  VM_BuildBlock := fun w =>
    ({| base := (Toy.BuildBlock (base w)).1 |}, check (Toy.BuildBlock (base w)).2);
  VM_LastAccepted := fun w => Toy.lastAccepted (base w);
  VM_SetPreference := fun w id => {| base := Toy.SetPreference (base w) id |};
  Consensus_Initialize := fun w id =>
    {| base := Toy.ConsensusInitialize (base w) id |};
  Consensus_Issued := fun w blk => Toy.Issued (base w) blk;
  Consensus_Add := fun w blk =>
    ({| base := (Toy.Add (base w) blk).1 |}, (Toy.Add (base w) blk).2);
  Consensus_Preference := fun w => Toy.preference (base w);
  Consensus_RecordPoll := fun w votes =>
    ({| base := (Toy.RecordPoll (base w) votes).1 |},
     (Toy.RecordPoll (base w) votes).2);
  Validators_Sample := fun w k =>
    ({| base := (Toy.Sample (base w) k).1 |}, (Toy.Sample (base w) k).2);
  Clock_WithinFetchBudget := fun _ _ => true;
|}.

(** [G] and [A] are accepted and [A] is the last accepted block, so that
    the oracle block [O], a sibling of [A], has a decided parent that is no
    longer in the tree of Consensus. *)
Definition w0 : World :=
  {| base :=
       {| Toy.known := Toy.known Toy.w0;
          Toy.store := [Toy.G; Toy.A];
          Toy.status := {[ 1 := choices.Accepted; 2 := choices.Accepted ]};
          Toy.invalid := ∅;
          Toy.options := Toy.options Toy.w0;
          Toy.built := None;
          Toy.lastAccepted := 2;
          Toy.vmPreference := 2;
          Toy.tree := {[ 2 ]};
          Toy.preference := 2;
          Toy.validators := Toy.validators Toy.w0 |} |}.

(** The state reached by running a computation; the state it started from
    if it ran out of budget. *)
Definition run {A : Type} (m : @M World A) (t : Transitive) : Transitive :=
  match m t with
  | Some (_, t') => t'
  | None => t
  end.

(** The engine after the hand-over from the Bootstrapper. *)
Definition t_boot : Transitive :=
  set_Ctx_IsBootstrapped true (run finishBootstrapping (Initialize Toy.params0 w0)).



End Chain.

(** * Properties *)

Section Properties.

Context {World : Type} `{Collab : Collaborators World}.

Implicit Types (t : @Transitive World) (blk : Block) (vdr requestID blkID : Z).

Notation "x <- m ;; k" := (bind m (fun x => k))
  (at level 100, m at next level, right associativity).
Notation "m ;;; k" := (bind m (fun _ => k))
  (at level 100, right associativity).

(** ** Unfolding the re-entrant computations *)

Lemma bind_Some {A B : Type} (m : M A) (k : A -> M B) t a t' :
  m t = Some (a, t') -> bind m k t = k a t'.
Proof. intros H. unfold bind. rewrite H. reflexivity. Qed.

Lemma bind_get {A B : Type} (f : Transitive -> A) (k : A -> M B) t :
  bind (get f) k t = k (f t) t.
Proof. reflexivity. Qed.

Lemma bind_lift {B : Type} (f : Transitive -> Transitive) (k : unit -> M B) t :
  bind (lift f) k t = k tt (f t).
Proof. reflexivity. Qed.

Lemma bind_lift' {A B : Type} (f : Transitive -> A * Transitive) (k : A -> M B) t :
  bind (lift' f) k t = k (f t).1 (f t).2.
Proof. unfold bind, lift'. destruct (f t); reflexivity. Qed.

Lemma bind_ret {A B : Type} (a : A) (k : A -> M B) t :
  bind (ret a) k t = k a t.
Proof. reflexivity. Qed.

(** ** [deliver] on a block that is already issued *)

(** C10.  If [Consensus.Issued(blk)] already holds, [deliver(blk)] returns
    [nil] at once and the engine state, including the record of calls made
    to Verify, Consensus, Sender and the Blocker, is the one it started
    from. *)
Theorem deliver_issued_noop t blk :
  Consensus_Issued (world t) blk = true ->
  deliver blk t = Some (None, t).
Proof.
  intros Hissued. unfold deliver. cbn [deliver_fuel]. unfold deliver_body.
  rewrite bind_get, Hissued. reflexivity.
Qed.

(** ** Handlers before bootstrapping has finished *)

Lemma guarded_handlers_noop t :
  Ctx_IsBootstrapped t = false ->
  (forall fuel vdr requestID blkID blkBytes,
      Put fuel vdr requestID blkID blkBytes t = Some (None, t))
  /\ (forall vdr requestID, GetFailed vdr requestID t = Some (None, t))
  /\ (forall fuel vdr requestID blkID,
         PullQuery fuel vdr requestID blkID t = Some (None, t))
  /\ (forall fuel vdr requestID blkID blkBytes,
         PushQuery fuel vdr requestID blkID blkBytes t = Some (None, t))
  /\ (forall fuel vdr requestID votes,
         Chits fuel vdr requestID votes t = Some (None, t))
  /\ (forall vdr requestID, QueryFailed vdr requestID t = Some (None, t))
  /\ (forall fuel msg, Notify fuel msg t = Some (None, t)).
Proof.
  intros Hb.
  repeat split; intros;
    unfold Put, GetFailed, PullQuery, PushQuery, Chits, QueryFailed, Notify,
      IsBootstrapped;
    rewrite bind_get, Hb; reflexivity.
Qed.

(** C2 (amended).  While [IsBootstrapped()] is false the handlers [Put],
    [GetFailed], [PullQuery], [PushQuery], [Chits], [QueryFailed] and
    [Notify] return [nil] without changing the engine state and without
    any call to Sender, VM, Consensus or the Blocker.  ([Get],
    [GetAncestors] and [Gossip] have no such guard.) *)
Theorem guarded_handlers_drop_while_bootstrapping t :
  IsBootstrapped t = false ->
  (forall fuel vdr requestID blkID blkBytes,
      Put fuel vdr requestID blkID blkBytes t = Some (None, t))
  /\ (forall vdr requestID, GetFailed vdr requestID t = Some (None, t))
  /\ (forall fuel vdr requestID blkID,
         PullQuery fuel vdr requestID blkID t = Some (None, t))
  /\ (forall fuel vdr requestID blkID blkBytes,
         PushQuery fuel vdr requestID blkID blkBytes t = Some (None, t))
  /\ (forall fuel vdr requestID votes,
         Chits fuel vdr requestID votes t = Some (None, t))
  /\ (forall vdr requestID, QueryFailed vdr requestID t = Some (None, t))
  /\ (forall fuel msg, Notify fuel msg t = Some (None, t)).
Proof. unfold IsBootstrapped. apply guarded_handlers_noop. Qed.

(** ** [Chits] with a malformed vote set *)

(** C6.  When the vote set does not hold exactly one ID, [Chits(vdr, rid,
    votes)] is [QueryFailed(vdr, rid)]: same result, same engine state, same
    calls.  On a bootstrapped engine that is: a Voter with no response and
    no dependencies is registered (so it runs at once) and nothing else
    happens. *)
Theorem Chits_malformed_is_QueryFailed fuel vdr requestID (votes : gset Z) t :
  size votes ≠ 1%nat ->
  Chits fuel vdr requestID votes t = QueryFailed vdr requestID t
  /\ (Ctx_IsBootstrapped t = true ->
      let v := {| deps := ∅; action := voter vdr requestID None |} in
      let t' := voter_Update vdr requestID None (emit (Blocker_Register v) t) in
      QueryFailed vdr requestID t = Some (errs t', t')).
Proof.
  intros Hsize. split.
  - unfold Chits. rewrite bind_get.
    destruct (Ctx_IsBootstrapped t) eqn:Hb; cbn [negb].
    + destruct (elements votes) as [|blkID [|blkID' l]] eqn:He; try reflexivity.
      exfalso. apply Hsize. unfold size, set_size. cbn. rewrite He. reflexivity.
    + unfold QueryFailed. rewrite bind_get, Hb. reflexivity.
  - intros Hb. cbn zeta. unfold QueryFailed. rewrite bind_get, Hb. cbn [negb].
    unfold Register, Register_with.
    unfold bind at 1. unfold bind at 1. cbn [lift].
    destruct (decide ((∅ : gset Z) = ∅)) as [_|Hne]; [|congruence].
    reflexivity.
Qed.

(** ** The missing-block sentinel *)


(** ** The size of a [MultiPut] *)

Lemma GetBlock_calls id t : calls (GetBlock id t).2 = calls t.
Proof.
  unfold GetBlock. destruct (processing t !! id); [reflexivity|].
  destruct (LRU.Get id (droppedCache t)) as [[b|] c]; [reflexivity|].
  destruct (VM_GetBlock (world t) id); reflexivity.
Qed.

Lemma containersLen_nonneg IntLen (cs : list (list Byte.byte)) :
  0 <= IntLen -> 0 <= containersLen IntLen cs.
Proof.
  intros HI. induction cs as [|c cs IH]; cbn [containersLen foldr]; [lia|].
  fold (containersLen IntLen cs). unfold len. lia.
Qed.

(** What the loop appends: at most one container per iteration, and as soon
    as it appends anything the running total stays below the budget. *)
Lemma GetAncestors_loop_appends D IntLen Max n :
  forall numFetched blk acc accLen t,
    exists more,
      (GetAncestors_loop D IntLen Max n numFetched blk acc accLen t).1 = acc ++ more
      /\ (length more <= n)%nat
      /\ (more = [] \/ accLen + containersLen IntLen more < maxContainersLen D)
      /\ calls (GetAncestors_loop D IntLen Max n numFetched blk acc accLen t).2
         = calls t.
Proof.
  induction n as [|n IH]; intros numFetched blk acc accLen t; cbn [GetAncestors_loop].
  - exists []. rewrite app_nil_r. auto.
  - destruct ((numFetched <? Max) && Clock_WithinFetchBudget (world t) numFetched).
    2:{ exists []. rewrite app_nil_r. repeat split; auto. cbn. lia. }
    pose proof (GetBlock_calls (Block_Parent blk) t) as Hc.
    destruct (GetBlock (Block_Parent blk) t) as [[blk'|e] t1]; cbn [snd] in Hc.
    2:{ exists []. rewrite app_nil_r. repeat split; auto. cbn. lia. }
    destruct (IntLen + accLen + len (Block_Bytes blk') <? maxContainersLen D) eqn:Hlt.
    2:{ exists []. rewrite app_nil_r. repeat split; auto. cbn. lia. }
    apply Z.ltb_lt in Hlt.
    destruct (IH (numFetched + 1) blk (acc ++ [Block_Bytes blk'])
                (IntLen + accLen + len (Block_Bytes blk')) t1)
      as (more & Heq & Hlen & Hsz & Hcalls).
    exists (Block_Bytes blk' :: more). rewrite Heq, <- app_assoc. cbn [app].
    repeat split; auto.
    + cbn. lia.
    + right. cbn [containersLen foldr]. fold (containersLen IntLen more).
      destruct Hsz as [-> | Hsz]; cbn; lia.
    + congruence.
Qed.

(** C5 (amended).  [GetAncestors] sends nothing or exactly one [MultiPut].
    The [MultiPut] starts with the requested block, holds at most
    [MaxContainersPerMultiPut] containers, and as soon as it holds a second
    container its total size, prefixes included, is below
    [maxContainersLen]; a response made of the requested block alone has
    the size of that block and its prefix.  So the total never exceeds
    [maxContainersLen] when the requested block with its prefix does
    not. *)
Theorem GetAncestors_MultiPut_bounds D IntLen Max vdr requestID blkID t :
  1 <= Max ->
  let t' := (GetAncestors D IntLen Max vdr requestID blkID t).2 in
  calls t' = calls t
  \/ exists first rest,
      calls t' = calls t ++ [Sender_MultiPut vdr requestID (first :: rest)]
      /\ Z.of_nat (length (first :: rest)) <= Max
      /\ (rest = [] \/ containersLen IntLen (first :: rest) < maxContainersLen D)
      /\ (len first + IntLen <= maxContainersLen D ->
          containersLen IntLen (first :: rest) <= maxContainersLen D).
Proof.
  intros HMax. cbn zeta. unfold GetAncestors.
  pose proof (GetBlock_calls blkID t) as Hc.
  destruct (GetBlock blkID t) as [[blk|e] t1]; cbn [snd] in Hc; [|left; exact Hc].
  right.
  destruct (GetAncestors_loop_appends D IntLen Max (Z.to_nat (Max - 1)) 1 blk
              [Block_Bytes blk] (len (Block_Bytes blk) + IntLen) t1)
    as (more & Heq & Hlen & Hsz & Hcalls).
  destruct (GetAncestors_loop D IntLen Max (Z.to_nat (Max - 1)) 1 blk
              [Block_Bytes blk] (len (Block_Bytes blk) + IntLen) t1)
    as [cs t2]; cbn [fst snd] in *.
  subst cs. exists (Block_Bytes blk), more. cbn [app snd].
  assert (Hsz' : more = [] \/
            containersLen IntLen (Block_Bytes blk :: more) < maxContainersLen D).
  { destruct Hsz as [->|Hsz]; [left; reflexivity|right].
    cbn [containersLen foldr]. fold (containersLen IntLen more). lia. }
  repeat split.
  - unfold emit. cbn. congruence.
  - cbn [length]. lia.
  - exact Hsz'.
  - intros Hfirst. destruct Hsz' as [->|Hlt]; [cbn; lia|lia].
Qed.

(** The requested block is sent whatever its size: when it does not fit the
    budget by itself the [MultiPut] exceeds [maxContainersLen]. *)
Lemma GetAncestors_oversized_request D IntLen Max vdr requestID blkID blk t :
  1 <= Max -> 0 <= IntLen ->
  processing t !! blkID = Some blk ->
  maxContainersLen D < len (Block_Bytes blk) + IntLen ->
  exists rest,
    calls (GetAncestors D IntLen Max vdr requestID blkID t).2
    = calls t ++ [Sender_MultiPut vdr requestID (Block_Bytes blk :: rest)]
    /\ maxContainersLen D < containersLen IntLen (Block_Bytes blk :: rest).
Proof.
  intros HMax HInt Hp Hbig. unfold GetAncestors, GetBlock at 1. rewrite Hp.
  destruct (GetAncestors_loop_appends D IntLen Max (Z.to_nat (Max - 1)) 1 blk
              [Block_Bytes blk] (len (Block_Bytes blk) + IntLen) t)
    as (more & Heq & Hlen & Hsz & Hcalls).
  destruct (GetAncestors_loop D IntLen Max (Z.to_nat (Max - 1)) 1 blk
              [Block_Bytes blk] (len (Block_Bytes blk) + IntLen) t)
    as [cs t2]; cbn [fst snd] in *.
  subst cs. exists more. cbn [app]. split.
  - unfold emit. cbn. congruence.
  - cbn [containersLen foldr]. fold (containersLen IntLen more).
    pose proof (containersLen_nonneg IntLen more HInt). lia.
Qed.


(** ** The number of outstanding polls *)

Lemma poll_Add_Len requestID vdrs (s : gmap Z poll.Poll) :
  poll.Len s <= poll.Len (poll.Add requestID vdrs s).2 <= poll.Len s + 1.
Proof.
  unfold poll.Add, poll.Len. destruct (s !! requestID) eqn:Hl; cbn [snd]; [lia|].
  rewrite map_size_insert_None by exact Hl. lia.
Qed.

Lemma pullSample_polls blkID t :
  poll.Len (polls t) <= poll.Len (polls (pullSample blkID t)) <= poll.Len (polls t) + 1
  /\ Params (pullSample blkID t) = Params t.
Proof.
  unfold pullSample.
  destruct (Validators_Sample (world t) (snowball.K (Params t))) as [w [l|e]];
    cbn; [|split; [lia|reflexivity]].
  match goal with |- context [poll.Add ?r ?v ?s] =>
    pose proof (poll_Add_Len r v s) as H; destruct (poll.Add r v s) as [ok s'] end.
  cbn [snd] in H. destruct ok; cbn; (split; [lia|reflexivity]).
Qed.

Lemma pushSample_polls blk t :
  poll.Len (polls t) <= poll.Len (polls (pushSample blk t)) <= poll.Len (polls t) + 1
  /\ Params (pushSample blk t) = Params t.
Proof.
  unfold pushSample.
  destruct (Validators_Sample (world t) (snowball.K (Params t))) as [w [l|e]];
    cbn; [|split; [lia|reflexivity]].
  match goal with |- context [poll.Add ?r ?v ?s] =>
    pose proof (poll_Add_Len r v s) as H; destruct (poll.Add r v s) as [ok s'] end.
  cbn [snd] in H. destruct ok; cbn; (split; [lia|reflexivity]).
Qed.

Lemma repoll_loop_polls n prefID : forall t,
  poll.Len (polls t) <= poll.Len (polls (repoll_loop n prefID t))
                     <= poll.Len (polls t) + Z.of_nat n
  /\ Params (repoll_loop n prefID t) = Params t.
Proof.
  induction n as [|n IH]; intros t; cbn [repoll_loop]; [split; [lia|reflexivity]|].
  destruct (IH (pullSample prefID t)) as [Hl Hp].
  destruct (pullSample_polls prefID t) as [Hl' Hp'].
  split; [lia|congruence].
Qed.

(** C4 (amended).  [repoll] itself respects the budget: after [repoll()]
    the number of outstanding polls is at most the larger of
    [Params.ConcurrentRepolls] and the number there was before.
    [pushSample] is not tied to the budget: it registers up to one more
    poll whatever the count is. *)
Theorem repoll_respects_ConcurrentRepolls t :
  poll.Len (polls (repoll t))
  <= Z.max (poll.Len (polls t)) (snowball.ConcurrentRepolls (Params t))
  /\ (forall blk,
         poll.Len (polls (pushSample blk t)) <= poll.Len (polls t) + 1).
Proof.
  split.
  - unfold repoll.
    destruct (repoll_loop_polls
                (Z.to_nat (snowball.ConcurrentRepolls (Params t) - poll.Len (polls t)))
                (Consensus_Preference (world t)) t) as [Hl _].
    lia.
  - intros blk. apply pushSample_polls.
Qed.


(** ** [Abandon] *)

Lemma Abandon_frame_refl t : Abandon_frame t t.
Proof.
  constructor; try reflexivity. exists []. cbn. rewrite app_nil_r. reflexivity.
Qed.

Lemma Abandon_frame_trans t1 t2 t3 :
  Abandon_frame t1 t2 -> Abandon_frame t2 t3 -> Abandon_frame t1 t3.
Proof.
  intros [Hb Hl Hp Hu [ids Hc]] [Hb' Hl' Hp' Hu' [ids' Hc']].
  constructor.
  - etransitivity; eassumption.
  - lia.
  - etransitivity; eassumption.
  - congruence.
  - exists (ids ++ ids'). rewrite Hc', Hc, fmap_app, app_assoc. reflexivity.
Qed.

Lemma filter_split_length {A : Type} (P : A -> Prop) `{!forall x, Decision (P x)}
  (l : list A) :
  (length (filter P l) + length (filter (fun x => ~ P x) l) = length l)%nat.
Proof.
  induction l as [|x l IH]; [reflexivity|].
  rewrite !filter_cons. destruct (decide (P x)), (decide (~ P x)); cbn; try lia;
    tauto.
Qed.

(** With more fuel than registered continuations the cascade completes; it
    starts with the call [Abandon(id)] and leaves no continuation waiting
    on the abandoned ID. *)
Lemma Abandon_fuel_frame n : forall id t,
  (length (blocked t) < n)%nat ->
  exists t', Abandon_fuel n id t = Some (tt, t')
             /\ Abandon_frame t t'
             /\ (exists ids, calls t' = calls t ++ (Blocker_Abandon <$> (id :: ids)))
             /\ (forall c, c ∈ blocked t' -> id ∉ deps c).
Proof.
  induction n as [|n IH]; intros id t Hlen; [lia|].
  cbn [Abandon_fuel]. rewrite bind_lift, bind_get, bind_lift.
  set (t1 := set_blocked _ _).
  set (removed := filter _ _).
  assert (Hf1 : Abandon_frame t t1).
  { constructor; cbn; try reflexivity.
    - intros c Hc. apply list_elem_of_filter in Hc. tauto.
    - apply length_filter.
    - exists [id]. reflexivity. }
  assert (Hin1 : exists ids, calls t1 = calls t ++ (Blocker_Abandon <$> (id :: ids))).
  { exists []. reflexivity. }
  assert (Hno1 : forall c, c ∈ blocked t1 -> id ∉ deps c).
  { intros c Hc. cbn in Hc. apply list_elem_of_filter in Hc. tauto. }
  assert (Hfuel : removed ≠ [] -> (length (blocked t1) < n)%nat).
  { intros Hne. subst removed t1. cbn.
    pose proof (filter_split_length (fun c => id ∈ deps c)
                  (blocked (emit (Blocker_Abandon id) t))) as Hs.
    cbn in Hs. cbn in Hne.
    destruct (filter (fun c => id ∈ deps c) (blocked t)); [congruence|].
    cbn in Hs. lia. }
  clearbody t1 removed. clear Hlen.
  revert t1 Hf1 Hin1 Hno1 Hfuel.
  induction removed as [|c removed IHl]; intros t1 Hf1 Hin1 Hno1 Hfuel.
  - exists t1. cbn. auto.
  - cbn [forM]. specialize (Hfuel ltac:(discriminate)).
    assert (Hstep : exists t2,
               (match action c with
                | issuer blk =>
                    lift (fun t => set_pending (pending t ∖ {[Block_ID blk]}) t) ;;;
                    Abandon_fuel n (Block_ID blk)
                | _ => ret tt
                end) t1 = Some (tt, t2)
               /\ Abandon_frame t1 t2).
    { destruct (action c) as [blk| |].
      - rewrite bind_lift.
        destruct (IH (Block_ID blk)
                    (set_pending (pending t1 ∖ {[Block_ID blk]}) t1) Hfuel)
          as (t2 & Hrun & Hfr & _ & _).
        exists t2. split; [exact Hrun|].
        eapply Abandon_frame_trans; [|exact Hfr].
        constructor; cbn; try reflexivity.
        + apply subseteq_difference_l. reflexivity.
        + exists []. cbn. rewrite app_nil_r. reflexivity.
      - exists t1. split; [reflexivity|apply Abandon_frame_refl].
      - exists t1. split; [reflexivity|apply Abandon_frame_refl]. }
    destruct Hstep as (t2 & Hrun & Hfr).
    rewrite (bind_Some _ _ _ _ _ Hrun).
    apply IHl.
    + eapply Abandon_frame_trans; eassumption.
    + destruct Hfr as [_ _ _ _ [ids Hc]]. destruct Hin1 as [ids1 Hc1].
      exists (ids1 ++ ids). rewrite Hc, Hc1. rewrite <- app_assoc.
      rewrite !fmap_cons, fmap_app. reflexivity.
    + intros c' Hc'. apply Hno1. apply (af_blocked _ _ Hfr). exact Hc'.
    + intros _. pose proof (af_length _ _ Hfr). lia.
Qed.

Lemma Abandon_frame_ok id t :
  exists t', Abandon id t = Some (tt, t')
             /\ Abandon_frame t t'
             /\ (exists ids, calls t' = calls t ++ (Blocker_Abandon <$> (id :: ids)))
             /\ (forall c, c ∈ blocked t' -> id ∉ deps c).
Proof. unfold Abandon. apply Abandon_fuel_frame. lia. Qed.


(** ** [deliver] on a block that fails verification *)

Lemma LRU_lookup_Put {V : Type} (Size : nat) k (v : V) c :
  (0 < Size)%nat -> LRU.lookup k (LRU.Put Size k v c) = Some v.
Proof.
  intros HS. destruct Size as [|Size]; [lia|].
  unfold LRU.Put, LRU.lookup. cbn [take List.find fst].
  rewrite bool_decide_eq_true_2 by reflexivity. reflexivity.
Qed.

(** Past the [Issued] test: when [blk] is not already issued and
    [blk.Verify()] returns an error, [deliver] returns [errs.Err] and, when
    it returns: [blk]'s ID is not in [pending], [blk] is not in the
    [processing] map, the dropped cache holds [blk] under its own ID, the
    only calls made are [blk.Verify()] followed by [Abandon(blk.ID())] and
    the [Abandon]s it cascades into, and no continuation is left waiting on
    [blk]'s ID. *)
Lemma deliver_verify_failure t blk w' e :
  Consensus_Issued (world t) blk = false ->
  Block_Verify (world t) blk = (w', Some e) ->
  exists t',
    deliver blk t = Some (errs t', t')
    /\ (Block_ID blk ∉ pending t')
    /\ processing t' !! Block_ID blk = None
    /\ LRU.lookup (Block_ID blk) (droppedCache t') = Some blk
    /\ (exists ids,
           calls t' = calls t ++ Block_Verify_called blk
                                  :: (Blocker_Abandon <$> (Block_ID blk :: ids)))
    /\ (forall c, c ∈ blocked t' -> Block_ID blk ∉ deps c).
Proof.
  intros Hissued Hverify. unfold deliver. cbn [deliver_fuel]. unfold deliver_body.
  rewrite bind_get, Hissued. rewrite bind_lift, bind_lift'.
  cbn [world set_pending]. rewrite Hverify. cbn [fst snd].
  rewrite !bind_lift.
  match goal with |- context [bind (Abandon ?id) _ ?t1] =>
    destruct (Abandon_frame_ok id t1) as (t' & Hrun & Hfr & [ids Hcalls] & Hno);
    rewrite (bind_Some _ _ _ _ _ Hrun)
  end.
  exists t'. split; [reflexivity|].
  pose proof (af_pending _ _ Hfr) as Hp.
  pose proof (af_untouched _ _ Hfr) as Hu.
  unfold untouched_by_Abandon in Hu. cbn in Hu. cbn in Hp.
  inversion Hu as [[Hb Hr Hw Hpa Hpo Hbr Herr Hproc Hdec Hdrop]].
  repeat split.
  - intros Hin. apply Hp in Hin. apply elem_of_difference in Hin as [_ Hn].
    apply Hn. apply elem_of_singleton. reflexivity.
  - rewrite Hproc. apply lookup_delete_eq.
  - rewrite Hdrop. unfold LRU.lookup. cbn [List.find fst].
    rewrite bool_decide_eq_true_2 by reflexivity. reflexivity.
  - exists ids. rewrite Hcalls. cbn. rewrite <- app_assoc. reflexivity.
  - exact Hno.
Qed.

(** C7.  [deliver(blk)] always returns, and when the [blk.Verify()] it
    calls returns an error (the call of [Verify] is the first call the run
    makes; a run that stops at the [Issued] test makes none): [deliver]
    returns [errs.Err], [blk]'s ID is not in [pending], [blk] is not in the
    [processing] map, the dropped cache holds [blk] under its own ID,
    [Abandon(blk.ID())] is invoked on the Blocker and every other call is an
    [Abandon] it cascades into, so that no continuation is left waiting on
    [blk]'s ID, and [Consensus.Add] is called for no block at all. *)
Theorem deliver_failed_Verify t blk w' e :
  Block_Verify (world t) blk = (w', Some e) ->
  exists r t',
    deliver blk t = Some (r, t')
    /\ forall l,
         calls t' = calls t ++ Block_Verify_called blk :: l ->
         r = errs t'
         /\ (Block_ID blk ∉ pending t')
         /\ processing t' !! Block_ID blk = None
         /\ LRU.lookup (Block_ID blk) (droppedCache t') = Some blk
         /\ (exists ids, l = Blocker_Abandon <$> (Block_ID blk :: ids))
         /\ (forall c, c ∈ blocked t' -> Block_ID blk ∉ deps c)
         /\ (forall w b, ~ In (Consensus_Add_called w b) l).
Proof.
  intros Hverify. destruct (Consensus_Issued (world t) blk) eqn:Hissued.
  - exists None, t. split.
    + unfold deliver. cbn [deliver_fuel]. unfold deliver_body.
      rewrite bind_get, Hissued. reflexivity.
    + intros l Hl. exfalso. rewrite <- (app_nil_r (calls t)) in Hl at 1.
      apply app_inv_head in Hl. discriminate.
  - destruct (deliver_verify_failure t blk w' e Hissued Hverify)
      as (t' & Hrun & Hp & Hproc & Hdrop & [ids Hcalls] & Hno).
    exists (errs t'), t'. split; [exact Hrun|].
    intros l Hl. rewrite Hcalls in Hl. apply app_inv_head in Hl.
    injection Hl as <-.
    repeat split; try assumption.
    + exists ids. reflexivity.
    + intros w b Hin. apply list_elem_of_In in Hin.
      change (Consensus_Add_called w b ∈ Blocker_Abandon <$> (Block_ID blk :: ids))
        in Hin.
      apply list_elem_of_fmap in Hin as (x & Hx & _). discriminate.
Qed.


(** ** The same [Put] received twice *)

Lemma LRU_Evict_absent {V : Type} k (c : list (Z * V)) :
  LRU.lookup k c = None -> LRU.Evict k c = c.
Proof.
  unfold LRU.lookup, LRU.Evict. induction c as [|[k' v] c IH]; [reflexivity|].
  cbn [List.find fst]. rewrite filter_cons. cbn [fst].
  destruct (decide (k' = k)) as [->|Hne].
  - rewrite bool_decide_eq_true_2 by reflexivity. discriminate.
  - rewrite bool_decide_eq_false_2 by exact Hne. intros H.
    destruct (decide (k' ≠ k)); [|tauto]. rewrite IH by exact H. reflexivity.
Qed.

Lemma pin_pinned key blkID blk t :
  processing t !! key = Some blk ->
  LRU.lookup blkID (droppedCache t) = None ->
  pin key blkID blk t = t.
Proof.
  intros Hp Hd. destruct t. unfold pin, set_processing, set_droppedCache.
  cbn [Ctx_IsBootstrapped RequestID world Params polls blkReqs pending blocked
       errs processing decidedCache droppedCache calls] in *.
  rewrite insert_id by exact Hp. rewrite LRU_Evict_absent by exact Hd.
  reflexivity.
Qed.

(** [issueFrom] on a block that is issued or pending does nothing. *)
Lemma issueFrom_short_circuit fuel vdr blk t :
  Consensus_Issued (world t) blk = true \/ Block_ID blk ∈ pending t ->
  issueFrom (S fuel) vdr blk t = Some ((Consensus_Issued (world t) blk, None), t).
Proof.
  intros H. unfold issueFrom. cbn [issueFrom_loop]. rewrite bind_get.
  destruct H as [H|H].
  - rewrite H. cbn [negb andb]. rewrite bind_get, H. reflexivity.
  - rewrite (bool_decide_eq_true_2 _ H). rewrite andb_false_r.
    rewrite bind_get. reflexivity.
Qed.

(** C8 (amended).  Let a [Put] be received on a bootstrapped engine and
    then the same [Put] again.  If, after the first one, the bytes parse to
    a block that is pending or issued, the second one only re-pins that
    block when its status is Processing: [issueFrom] short-circuits, there
    is no further issuance, request or Blocker registration, and [nil] is
    returned.  If moreover the block is still pinned and the declared ID
    is not in the dropped cache, the engine state after the second [Put] is
    identical to the state after the first. *)
Theorem Put_twice fuel fuel' vdr requestID blkID blkBytes t r1 t1 b :
  Put fuel vdr requestID blkID blkBytes t = Some (r1, t1) ->
  IsBootstrapped t1 = true ->
  VM_ParseBlock (world t1) blkBytes = inl b ->
  Consensus_Issued (world t1) (VMBlk b) = true \/ vmID b ∈ pending t1 ->
  Put (S fuel') vdr requestID blkID blkBytes t1
  = Some (None,
          if choices.eqb (Block_Status (world t1) (VMBlk b)) choices.Processing
          then pin (vmID b) blkID (VMBlk b) t1 else t1)
  /\ (processing t1 !! vmID b = Some (VMBlk b) ->
      LRU.lookup blkID (droppedCache t1) = None ->
      Put (S fuel') vdr requestID blkID blkBytes t1 = Some (None, t1)).
Proof.
  intros _ Hb Hparse Hknown.
  assert (Hput : Put (S fuel') vdr requestID blkID blkBytes t1
    = Some (None,
            if choices.eqb (Block_Status (world t1) (VMBlk b)) choices.Processing
            then pin (vmID b) blkID (VMBlk b) t1 else t1)).
  { unfold Put. rewrite bind_get, Hb. cbn [negb]. rewrite bind_get, Hparse.
    rewrite bind_get. cbn [Block_ID].
    destruct (choices.eqb (Block_Status (world t1) (VMBlk b)) choices.Processing).
    - rewrite bind_lift.
      rewrite (bind_Some _ _ _ _ _
                 (issueFrom_short_circuit fuel' vdr (VMBlk b)
                    (pin (vmID b) blkID (VMBlk b) t1) Hknown)).
      reflexivity.
    - rewrite bind_ret.
      rewrite (bind_Some _ _ _ _ _
                 (issueFrom_short_circuit fuel' vdr (VMBlk b) _ Hknown)).
      reflexivity. }
  split; [exact Hput|].
  intros Hp Hd. rewrite Hput.
  destruct (choices.eqb _ _); [|reflexivity].
  rewrite pin_pinned by assumption. reflexivity.
Qed.


End Properties.

(** ** [deliver] always completes *)

Section Termination.

Context {World : Type} `{Collab : Collaborators World}.

Implicit Types (t : @Transitive World) (blk : Block) (vdr requestID blkID : Z).

Notation "x <- m ;; k" := (bind m (fun x => k))
  (at level 100, m at next level, right associativity).
Notation "m ;;; k" := (bind m (fun _ => k))
  (at level 100, right associativity).

Lemma twp_ret {A} (a : A) (Q : A -> Transitive -> Prop) t :
  Q a t -> twp (ret a) Q t.
Proof. intros H. exists a, t. split; [reflexivity|exact H]. Qed.

Lemma twp_get {A} (f : Transitive -> A) (Q : A -> Transitive -> Prop) t :
  Q (f t) t -> twp (get f) Q t.
Proof. intros H. exists (f t), t. split; [reflexivity|exact H]. Qed.

Lemma twp_lift (f : Transitive -> Transitive) (Q : unit -> Transitive -> Prop) t :
  Q tt (f t) -> twp (lift f) Q t.
Proof. intros H. exists tt, (f t). split; [reflexivity|exact H]. Qed.

Lemma twp_lift' {A} (f : Transitive -> A * Transitive) (Q : A -> Transitive -> Prop) t :
  Q (f t).1 (f t).2 -> twp (lift' f) Q t.
Proof.
  intros H. exists (f t).1, (f t).2. split; [|exact H].
  unfold lift'. destruct (f t); reflexivity.
Qed.

Lemma twp_bind {A B} (m : M A) (k : A -> M B) (Q : B -> Transitive -> Prop) t :
  twp m (fun a t' => twp (k a) Q t') t -> twp (bind m k) Q t.
Proof.
  intros (a & t1 & Hm & b & t2 & Hk & HQ). exists b, t2. split; [|exact HQ].
  unfold bind. rewrite Hm. exact Hk.
Qed.

Lemma twp_conseq {A} (m : M A) (Q Q' : A -> Transitive -> Prop) t :
  twp m Q t -> (forall a t', Q a t' -> Q' a t') -> twp m Q' t.
Proof. intros (a & t' & Hm & HQ) H. exists a, t'. split; [exact Hm|apply H, HQ]. Qed.

Ltac twp_go :=
  repeat (cbn beta;
          lazymatch goal with
          | |- twp (bind _ _) _ _ => apply twp_bind
          | |- twp (get _) _ _ => apply twp_get
          | |- twp (lift _) _ _ => apply twp_lift
          | |- twp (lift' _) _ _ => apply twp_lift'
          | |- twp (ret _) _ _ => apply twp_ret
          end); cbn beta.

(** The number of registered continuations does not grow. *)
Local Abbreviation shrinks t :=
  (fun _ t' => (length (blocked t') <= length (blocked t))%nat).

Lemma pullSample_blocked blkID t : blocked (pullSample blkID t) = blocked t.
Proof.
  unfold pullSample. destruct (Validators_Sample _ _) as [w [l|e]]; [|reflexivity].
  destruct (poll.Add _ _ _) as [[] s]; reflexivity.
Qed.

Lemma pushSample_blocked blk t : blocked (pushSample blk t) = blocked t.
Proof.
  unfold pushSample. destruct (Validators_Sample _ _) as [w [l|e]]; [|reflexivity].
  destruct (poll.Add _ _ _) as [[] s]; reflexivity.
Qed.

Lemma repoll_blocked t : blocked (repoll t) = blocked t.
Proof.
  unfold repoll. generalize (Consensus_Preference (world t)) as prefID.
  generalize (Z.to_nat (snowball.ConcurrentRepolls (Params t) - poll.Len (polls t))) as n.
  intros n prefID. revert t. induction n as [|n IH]; intros t; cbn [repoll_loop];
    [reflexivity|]. rewrite IH. apply pullSample_blocked.
Qed.

Lemma voter_Update_blocked vdr requestID response t :
  blocked (voter_Update vdr requestID response t) = blocked t.
Proof.
  unfold voter_Update. destruct (errs_Errored t); [reflexivity|].
  destruct (poll.Vote _ _ _ _ _) as [[votes|] s]; [|reflexivity].
  cbn [world set_polls].
  destruct (Consensus_RecordPoll (world t) votes) as [w [decided e]].
  match goal with |- blocked (if errs_Errored ?t1 then _ else _) = _ =>
    assert (H1 : blocked t1 = blocked t)
      by (unfold errs_Add; cbn; destruct (errs t); reflexivity);
    destruct (errs_Errored t1); [exact H1|]; revert H1; generalize t1
  end.
  intros t1 H1. rewrite repoll_blocked. rewrite <- H1. clear H1.
  revert t1. induction decided as [|id decided IH]; intros t1; cbn [foldl];
    [reflexivity|]. rewrite IH. reflexivity.
Qed.

Lemma convincer_Update_blocked vdr requestID t :
  blocked (convincer_Update vdr requestID t) = blocked t.
Proof. unfold convincer_Update. destruct (errs_Errored t); reflexivity. Qed.

Lemma deliver_options_blocked blkID options : forall added dropped t,
  blocked (deliver_options blkID options added dropped t).2 = blocked t.
Proof.
  induction options as [|o options IH]; intros added dropped t;
    cbn [deliver_options]; [reflexivity|].
  destruct (Block_Verify (world t) (VMBlk o)) as [w verr].
  destruct verr as [e|]; [rewrite IH; reflexivity|].
  match goal with |- context [Consensus_Add ?w ?b] =>
    destruct (Consensus_Add w b) as [w2 [rejected [e|]]] end;
    [reflexivity|].
  rewrite IH. destruct rejected; reflexivity.
Qed.

Lemma Abandon_shrinks id t : twp (Abandon id) (shrinks t) t.
Proof.
  destruct (Abandon_frame_ok id t) as (t' & Hrun & Hfr & _ & _).
  exists tt, t'. split; [exact Hrun|apply (af_length _ _ Hfr)].
Qed.

Section Nested.

(** The nested calls of [deliver] have the budget [n]. *)
Variable n : nat.
Variable deliver_rec : Block -> @M World (option error).
Hypothesis deliver_rec_total : forall blk t,
  (length (blocked t) < n)%nat -> twp (deliver_rec blk) (shrinks t) t.

Lemma Update_total c t :
  (length (blocked t) < n)%nat -> twp (Update deliver_rec c) (shrinks t) t.
Proof.
  intros Hn. unfold Update. destruct (action c) as [blk|vdr rid|vdr rid resp].
  - twp_go. destruct (errs_Errored t); twp_go; [lia|].
    eapply twp_conseq; [apply (deliver_rec_total blk t Hn)|].
    cbn beta. intros e t' Hle. twp_go.
    unfold errs_Add. destruct (errs t'); exact Hle.
  - twp_go. rewrite convincer_Update_blocked. lia.
  - twp_go. rewrite voter_Update_blocked. lia.
Qed.

Lemma forM_Update_total l : forall t,
  (l ≠ [] -> (length (blocked t) < n)%nat) ->
  twp (forM (Update deliver_rec) l) (shrinks t) t.
Proof.
  induction l as [|c l IH]; intros t Hn; cbn [forM].
  - twp_go. lia.
  - specialize (Hn ltac:(discriminate)). twp_go.
    eapply twp_conseq; [apply (Update_total c t Hn)|].
    cbn beta. intros _ t1 Hle.
    eapply twp_conseq; [apply (IH t1); intros _; lia|].
    cbn beta. intros _ t2 Hle2. lia.
Qed.

Lemma Fulfill_with_total id t :
  (length (blocked t) <= n)%nat ->
  twp (Fulfill_with deliver_rec id) (shrinks t) t.
Proof.
  intros Hn. unfold Fulfill_with. twp_go.
  cbn [blocked set_blocked emit set_calls].
  set (l' := (fun c : Blockable => {| deps := deps c ∖ {[id]}; action := action c |})
               <$> blocked t).
  pose proof (filter_split_length (fun c : Blockable => deps c = ∅) l') as Hsplit.
  assert (Hl' : length l' = length (blocked t)) by (subst l'; apply length_fmap).
  eapply twp_conseq.
  - apply forM_Update_total. cbn [blocked set_blocked]. intros Hne.
    destruct (filter (fun c : Blockable => deps c = ∅) l'); [congruence|].
    cbn [length] in Hsplit. lia.
  - cbn beta. cbn [blocked set_blocked]. intros _ t1 Hle.
    pose proof (length_filter (fun c : Blockable => deps c ≠ ∅) l'). lia.
Qed.

Lemma forM_added_total added : forall t,
  (length (blocked t) <= n)%nat ->
  twp (forM (fun blk =>
               lift (pushSample blk) ;;;
               let blkID := Block_ID blk in
               lift (fun t => set_pending (pending t ∖ {[blkID]}) t) ;;;
               Fulfill_with deliver_rec blkID) added)
      (shrinks t) t.
Proof.
  induction added as [|b added IH]; intros t Hn; cbn [forM].
  - twp_go. lia.
  - twp_go. eapply twp_conseq.
    + apply Fulfill_with_total. cbn [blocked set_pending].
      rewrite pushSample_blocked. exact Hn.
    + cbn beta. cbn [blocked set_pending]. rewrite pushSample_blocked.
      intros _ t1 Hle. eapply twp_conseq; [apply (IH t1); lia|].
      cbn beta. intros _ t2 Hle2. lia.
Qed.

Lemma forM_dropped_total dropped : forall t,
  twp (forM (fun blk =>
               let blkID := Block_ID blk in
               lift (fun t => set_pending (pending t ∖ {[blkID]}) t) ;;;
               Abandon blkID) dropped)
      (shrinks t) t.
Proof.
  induction dropped as [|b dropped IH]; intros t; cbn [forM].
  - twp_go. lia.
  - twp_go. eapply twp_conseq; [apply Abandon_shrinks|].
    cbn beta. cbn [blocked set_pending]. intros _ t1 Hle.
    eapply twp_conseq; [apply (IH t1)|]. cbn beta. intros _ t2 Hle2. lia.
Qed.

Lemma deliver_body_total blk t :
  (length (blocked t) <= n)%nat ->
  twp (deliver_body deliver_rec blk) (shrinks t) t.
Proof.
  intros Hn. unfold deliver_body. twp_go.
  destruct (Consensus_Issued (world t) blk); [twp_go; lia|].
  twp_go. cbn [world set_pending].
  destruct (Block_Verify (world t) blk) as [w1 [e|]]; cbn [fst snd].
  { twp_go. eapply twp_conseq; [apply Abandon_shrinks|].
    cbn beta. intros _ t1 Hle. twp_go. exact Hle. }
  twp_go. cbn [world emit set_calls set_world].
  destruct (Consensus_Add w1 blk) as [w2 [rejected [e|]]]; cbn [fst snd].
  { twp_go. cbn. lia. }
  twp_go.
  eapply (twp_conseq _ (fun _ t3 => blocked t3 = blocked t)).
  { destruct rejected; twp_go; reflexivity. }
  cbn beta. intros _ t3 Hb3. twp_go.
  destruct (Block_Options (world t3) blk) as [[options|e]|].
  2:{ twp_go. rewrite Hb3. lia. }
  all: twp_go.
  all: match goal with |- context [deliver_options ?i ?o ?a ?d ?t] =>
         pose proof (deliver_options_blocked i o a d t) as Hb4;
         destruct (deliver_options i o a d t) as [[e|[added dropped]] t4]
       end; cbn [fst snd] in *.
  all: try (twp_go; rewrite Hb4, Hb3; lia).
  all: twp_go.
  all: eapply twp_conseq;
    [apply Fulfill_with_total; rewrite pushSample_blocked; cbn; rewrite Hb4, Hb3; exact Hn|].
  all: cbn beta; rewrite pushSample_blocked; cbn [blocked emit set_calls set_world];
    intros _ t5 Hle5; twp_go.
  all: rewrite Hb4, Hb3 in Hle5.
  all: eapply twp_conseq; [apply (forM_added_total added t5); lia|].
  all: cbn beta; intros _ t6 Hle6; twp_go.
  all: eapply twp_conseq; [apply (forM_dropped_total dropped t6)|].
  all: cbn beta; intros _ t7 Hle7; twp_go.
  all: rewrite repoll_blocked; lia.
Qed.

End Nested.

Lemma deliver_fuel_total n : forall blk t,
  (length (blocked t) < n)%nat -> twp (deliver_fuel n blk) (shrinks t) t.
Proof.
  induction n as [|n IH]; intros blk t Hn; [lia|]. cbn [deliver_fuel].
  apply (deliver_body_total n (deliver_fuel n) IH). lia.
Qed.

(** [deliver] always completes: the budget it gives itself is enough. *)
Lemma deliver_total blk t : twp (deliver blk) (shrinks t) t.
Proof.
  destruct (deliver_fuel_total (S (length (blocked t))) blk t) as (e & t' & Hrun & Hle);
    [lia|].
  exists e, t'. split; [exact Hrun|exact Hle].
Qed.

End Termination.

(** ** Parents are added to Consensus before their children *)

Section OrderingProofs.

Context {World : Type} `{Collab : Collaborators World} {contract : Contract}.

Implicit Types (t : @Transitive World) (blk : Block) (vdr requestID blkID : Z).

Notation "x <- m ;; k" := (bind m (fun x => k))
  (at level 100, m at next level, right associativity).
Notation "m ;;; k" := (bind m (fun _ => k))
  (at level 100, right associativity).

(** *** Rules *)

Lemma wp_ret {A} (a : A) (Q : A -> Transitive -> Prop) t :
  Q a t -> wp (ret a) Q t.
Proof. intros H a' t' [= <- <-]. exact H. Qed.

Lemma wp_get {A} (f : Transitive -> A) (Q : A -> Transitive -> Prop) t :
  Q (f t) t -> wp (get f) Q t.
Proof. intros H a' t' [= <- <-]. exact H. Qed.

Lemma wp_lift (f : Transitive -> Transitive) (Q : unit -> Transitive -> Prop) t :
  Q tt (f t) -> wp (lift f) Q t.
Proof. intros H a' t' [= <- <-]. exact H. Qed.

Lemma wp_lift' {A} (f : Transitive -> A * Transitive) (Q : A -> Transitive -> Prop) t :
  Q (f t).1 (f t).2 -> wp (lift' f) Q t.
Proof. intros H a' t'. unfold lift'. destruct (f t). intros [= <- <-]. exact H. Qed.

Lemma wp_bind {A B} (m : M A) (k : A -> M B) (Q : B -> Transitive -> Prop) t :
  wp m (fun a t' => wp (k a) Q t') t -> wp (bind m k) Q t.
Proof.
  intros H b t'. unfold bind. destruct (m t) as [[a t1]|] eqn:Hm; [|discriminate].
  apply (H a t1 Hm).
Qed.

Lemma wp_conseq {A} (m : M A) (Q Q' : A -> Transitive -> Prop) t :
  wp m Q t -> (forall a t', Q a t' -> Q' a t') -> wp m Q' t.
Proof. intros H HQ a t' Hm. apply HQ, (H a t' Hm). Qed.

Lemma wp_stuck {A} (Q : A -> Transitive -> Prop) t :
  wp (fun _ => None) Q t.
Proof. intros a t'. discriminate. Qed.

(** *** The step relation *)

Lemma no_regress_refl (w : World) : no_regress w w.
Proof. intros id H. exact H. Qed.

Lemma no_regress_trans (w1 w2 w3 : World) :
  no_regress w1 w2 -> no_regress w2 w3 -> no_regress w1 w3.
Proof. intros H1 H2 id H. apply H2, H1, H. Qed.

Lemma step_refl t : Inv t -> step t t.
Proof. intros H. constructor; [exact H|apply no_regress_refl|reflexivity]. Qed.

Lemma step_trans t1 t2 t3 : step t1 t2 -> step t2 t3 -> step t1 t3.
Proof.
  intros [_ Hw Hb] [Hi Hw' Hb']. constructor; [exact Hi| |congruence].
  eapply no_regress_trans; eassumption.
Qed.

(** How each field update acts on the invariant.  All are stated as
    "if the engine got from [t0] to [t] then it gets from [t0] to the
    updated [t]", so that they chain from the outermost update inwards. *)
Lemma step_set_pending v t0 t : step t0 t -> step t0 (set_pending v t).
Proof. intros [[H1 H2 H3 H4 H5] Hw Hb]. repeat constructor; assumption. Qed.

Lemma step_set_blkReqs v t0 t : step t0 t -> step t0 (set_blkReqs v t).
Proof. intros [[H1 H2 H3 H4 H5] Hw Hb]. repeat constructor; assumption. Qed.

Lemma step_set_polls v t0 t : step t0 t -> step t0 (set_polls v t).
Proof. intros [[H1 H2 H3 H4 H5] Hw Hb]. repeat constructor; assumption. Qed.

Lemma step_set_RequestID v t0 t : step t0 t -> step t0 (set_RequestID v t).
Proof. intros [[H1 H2 H3 H4 H5] Hw Hb]. repeat constructor; assumption. Qed.

Lemma step_set_errs v t0 t : step t0 t -> step t0 (set_errs v t).
Proof. intros [[H1 H2 H3 H4 H5] Hw Hb]. repeat constructor; assumption. Qed.

Lemma step_errs_Add e t0 t : step t0 t -> step t0 (errs_Add e t).
Proof.
  intros H. unfold errs_Add. destruct (errs t); [exact H|apply step_set_errs, H].
Qed.

(** Recording a call that is not a call of [Consensus.Add]. *)
Lemma step_emit e t0 t :
  (forall w blk, e ≠ Consensus_Add_called w blk) ->
  step t0 t -> step t0 (emit e t).
Proof.
  intros He [[H1 H2 H3 H4 H5] Hw Hb]. repeat constructor; try assumption.
  cbn. apply Forall_app. split; [exact H5|]. constructor; [|constructor].
  intros w blk Heq. exfalso. exact (He w blk Heq).
Qed.

(** Recording a call of [Consensus.Add] made with the parent issued or
    decided. *)
Lemma step_emit_Add blk t0 t :
  issued_or_decided (world t) (Block_Parent blk) ->
  step t0 t -> step t0 (emit (Consensus_Add_called (world t) blk) t).
Proof.
  intros Hp [[H1 H2 H3 H4 H5] Hw Hb]. repeat constructor; try assumption.
  cbn. apply Forall_app. split; [exact H5|]. constructor; [|constructor].
  intros w blk' [= <- <-]. exact Hp.
Qed.

(** The collaborators moved on without regress. *)
Lemma step_set_world w t0 t :
  no_regress (world t) w -> step t0 t -> step t0 (set_world w t).
Proof.
  intros Hnr [[H1 H2 H3 H4 H5] Hw Hb]. repeat constructor; try assumption.
  - cbn. eapply Forall_impl; [exact H1|]. intros e He. apply Hnr, He.
  - cbn. eapply no_regress_trans; eassumption.
Qed.

Lemma step_set_decidedCache c t0 t :
  Forall (fun e => issued_or_decided (world t) e.1) c ->
  step t0 t -> step t0 (set_decidedCache c t).
Proof. intros Hc [[H1 H2 H3 H4 H5] Hw Hb]. repeat constructor; assumption. Qed.

Lemma step_set_droppedCache c t0 t :
  Forall (fun e => from_VM e.1 e.2) c ->
  step t0 t -> step t0 (set_droppedCache c t).
Proof. intros Hc [[H1 H2 H3 H4 H5] Hw Hb]. repeat constructor; assumption. Qed.

Lemma step_set_processing m t0 t :
  map_Forall from_VM m -> step t0 t -> step t0 (set_processing m t).
Proof. intros Hc [[H1 H2 H3 H4 H5] Hw Hb]. repeat constructor; assumption. Qed.

Lemma step_set_blocked l t0 t :
  Forall (fun c => forall blk, action c = issuer blk ->
                     from_VM (Block_ID blk) blk
                     /\ deps c = {[Block_Parent blk]}) l ->
  step t0 t -> step t0 (set_blocked l t).
Proof. intros Hc [[H1 H2 H3 H4 H5] Hw Hb]. repeat constructor; assumption. Qed.

(** What a step from [t] to itself gives for a function of [t]. *)
Lemma step_no_regress t t' : step t t' -> no_regress (world t) (world t').
Proof. apply step_world. Qed.

(** *** Caches *)

Lemma Forall_filter_keeps {A} (P : A -> Prop) (Q : A -> Prop)
  `{!forall x, Decision (Q x)} (l : list A) :
  Forall P l -> Forall P (filter Q l).
Proof.
  rewrite !Forall_forall. intros HP y Hy. apply list_elem_of_filter in Hy.
  apply HP, Hy.
Qed.

Lemma LRU_Evict_Forall {V} (P : Z * V -> Prop) k (c : list (Z * V)) :
  Forall P c -> Forall P (LRU.Evict k c).
Proof. intros H. unfold LRU.Evict. apply Forall_filter_keeps. exact H. Qed.

Lemma LRU_Put_Forall {V} (P : Z * V -> Prop) n k v (c : list (Z * V)) :
  Forall P c -> P (k, v) -> Forall P (LRU.Put n k v c).
Proof.
  intros H Hk. unfold LRU.Put. apply Forall_take. constructor; [exact Hk|].
  apply LRU_Evict_Forall, H.
Qed.

Lemma LRU_lookup_elem {V} k (v : V) (c : list (Z * V)) :
  LRU.lookup k c = Some v -> (k, v) ∈ c.
Proof.
  unfold LRU.lookup. destruct (List.find _ c) as [[k' v']|] eqn:Hf; [|discriminate].
  cbn. intros [= ->]. apply find_some in Hf as [Hin Hk]. cbn in Hk.
  apply bool_decide_eq_true in Hk. subst k'. apply list_elem_of_In. exact Hin.
Qed.

Lemma LRU_Get_Forall {V} (P : Z * V -> Prop) k (c : list (Z * V)) :
  Forall P c -> Forall P (LRU.Get k c).2.
Proof.
  intros H. unfold LRU.Get. destruct (LRU.lookup k c) as [v|] eqn:Hl; cbn; [|exact H].
  constructor; [|apply LRU_Evict_Forall, H].
  apply LRU_lookup_elem in Hl. rewrite Forall_forall in H. apply H, Hl.
Qed.

Lemma LRU_Get_Some {V} (P : Z * V -> Prop) k v (c : list (Z * V)) :
  Forall P c -> (LRU.Get k c).1 = Some v -> P (k, v).
Proof.
  intros H. unfold LRU.Get. destruct (LRU.lookup k c) as [v'|] eqn:Hl; cbn; [|discriminate].
  intros [= ->]. apply LRU_lookup_elem in Hl. rewrite Forall_forall in H. apply H, Hl.
Qed.

(** *** Leaves of the engine *)

Lemma GetBlock_step id t0 t :
  step t0 t ->
  step t0 (GetBlock id t).2
  /\ world (GetBlock id t).2 = world t
  /\ (forall blk, (GetBlock id t).1 = inl blk -> from_VM id blk).
Proof.
  intros Hs. pose proof (step_inv _ _ Hs) as [H1 H2 H3 H4 H5]. unfold GetBlock.
  destruct (processing t !! id) as [b|] eqn:Hp; cbn.
  { split; [exact Hs|]. split; [reflexivity|].
    intros blk [= <-]. apply (H3 id b Hp). }
  pose proof (LRU_Get_Forall _ id _ H4) as HG.
  pose proof (LRU_Get_Some (fun e => from_VM e.1 e.2) id) as HS.
  destruct (LRU.Get id (droppedCache t)) as [[b|] c] eqn:Hg; cbn in *.
  { split; [apply step_set_droppedCache; assumption|]. split; [reflexivity|].
    intros blk [= <-]. apply (HS b (droppedCache t) H4). rewrite Hg. reflexivity. }
  destruct (VM_GetBlock (world t) id) as [b|e] eqn:Hvm; cbn.
  - split; [apply step_set_droppedCache; assumption|]. split; [reflexivity|].
    intros blk [= <-]. exists b. split; [reflexivity|].
    eapply GetBlock_ID. exact Hvm.
  - split; [apply step_set_droppedCache; assumption|]. split; [reflexivity|].
    intros blk [=].
Qed.

Lemma sendRequest_step vdr blkID t0 t :
  step t0 t -> step t0 (sendRequest vdr blkID t).
Proof.
  intros Hs. unfold sendRequest.
  destruct (Requests.Contains blkID (blkReqs t)); [exact Hs|].
  apply step_emit; [discriminate|]. apply step_set_blkReqs, step_set_RequestID, Hs.
Qed.

Lemma sendRequest_world vdr blkID t : world (sendRequest vdr blkID t) = world t.
Proof.
  unfold sendRequest. destruct (Requests.Contains blkID (blkReqs t)); reflexivity.
Qed.

Lemma pullSample_step blkID t0 t : step t0 t -> step t0 (pullSample blkID t).
Proof.
  intros Hs. unfold pullSample.
  pose proof (Sample_no_regress (world t) (snowball.K (Params t))) as Hnr.
  destruct (Validators_Sample (world t) (snowball.K (Params t))) as [w vdrs].
  cbn [fst] in Hnr.
  destruct vdrs as [l|e].
  - destruct (poll.Add _ _ _) as [ok s]. destruct ok.
    + apply step_emit; [discriminate|].
      apply step_set_polls, step_set_RequestID, step_set_world; assumption.
    + apply step_set_polls, step_set_RequestID, step_set_world; assumption.
  - apply step_set_RequestID, step_set_world; assumption.
Qed.

Lemma pushSample_step blk t0 t : step t0 t -> step t0 (pushSample blk t).
Proof.
  intros Hs. unfold pushSample.
  pose proof (Sample_no_regress (world t) (snowball.K (Params t))) as Hnr.
  destruct (Validators_Sample (world t) (snowball.K (Params t))) as [w vdrs].
  cbn [fst] in Hnr.
  destruct vdrs as [l|e].
  - destruct (poll.Add _ _ _) as [ok s]. destruct ok.
    + apply step_emit; [discriminate|].
      apply step_set_polls, step_set_RequestID, step_set_world; assumption.
    + apply step_set_polls, step_set_RequestID, step_set_world; assumption.
  - apply step_set_RequestID, step_set_world; assumption.
Qed.

Lemma repoll_loop_step n prefID t0 : forall t,
  step t0 t -> step t0 (repoll_loop n prefID t).
Proof.
  induction n as [|n IH]; intros t Hs; cbn [repoll_loop]; [exact Hs|].
  apply IH, pullSample_step, Hs.
Qed.

Lemma repoll_step t0 t : step t0 t -> step t0 (repoll t).
Proof. intros Hs. unfold repoll. apply repoll_loop_step, Hs. Qed.

Lemma convincer_Update_step vdr requestID t0 t :
  step t0 t -> step t0 (convincer_Update vdr requestID t).
Proof.
  intros Hs. unfold convincer_Update.
  destruct (errs_Errored t); [exact Hs|].
  apply step_emit; [discriminate|exact Hs].
Qed.

(** The cache updates a Voter makes for the blocks [RecordPoll] decided. *)
Lemma voter_decided_step decided t0 : forall t,
  Forall (issued_or_decided (world t)) decided ->
  step t0 t ->
  step t0
    (foldl (fun t blkID =>
              let t := set_decidedCache
                         (LRU.Put decidedCacheSize blkID tt (decidedCache t)) t in
              let t := set_droppedCache (LRU.Evict blkID (droppedCache t)) t in
              set_processing (delete blkID (processing t)) t)
           t decided).
Proof.
  induction decided as [|id decided IH]; intros t Hd Hs; cbn [foldl]; [exact Hs|].
  apply Forall_cons in Hd as [Hid Hd].
  pose proof (step_inv _ _ Hs) as [H1 H2 H3 H4 H5].
  apply IH; [exact Hd|].
  apply step_set_processing; [apply map_Forall_delete, H3|].
  apply step_set_droppedCache; [apply LRU_Evict_Forall, H4|].
  apply step_set_decidedCache; [|exact Hs].
  apply LRU_Put_Forall; [exact H1|exact Hid].
Qed.

Lemma voter_Update_step vdr requestID response t0 t :
  step t0 t -> step t0 (voter_Update vdr requestID response t).
Proof.
  intros Hs. unfold voter_Update.
  destruct (errs_Errored t); [exact Hs|].
  destruct (poll.Vote _ _ _ _ _) as [[votes|] s]; [|apply step_set_polls, Hs].
  pose proof (RecordPoll_no_regress (world t) votes) as Hnr.
  pose proof (RecordPoll_decided (world t) votes) as Hdec.
  cbn [world set_polls].
  destruct (Consensus_RecordPoll (world t) votes) as [w [decided e]].
  cbn [fst] in Hnr. specialize (Hdec w decided e eq_refl).
  match goal with |- step t0 (if errs_Errored ?t1 then _ else _) =>
    assert (H1 : step t0 t1);
    [|assert (Hw1 : world t1 = w);
      [|destruct (errs_Errored t1); [exact H1|]]]
  end.
  - apply step_errs_Add. apply step_emit; [discriminate|].
    apply step_set_world; [exact Hnr|]. apply step_set_polls, Hs.
  - unfold errs_Add. cbn. destruct (errs t); reflexivity.
  - apply repoll_step. apply voter_decided_step; [|exact H1].
    rewrite Hw1. exact Hdec.
Qed.

Lemma Abandon_step id t0 t :
  step t0 t ->
  wp (Abandon id) (fun _ t' => step t0 t' /\ world t' = world t) t.
Proof.
  intros Hs [] t' Hrun.
  destruct (Abandon_frame_ok id t) as (t'' & Hrun' & Hfr & _ & _).
  rewrite Hrun' in Hrun. injection Hrun as <-.
  destruct Hfr as [Hb _ _ Hu [ids Hc]]. unfold untouched_by_Abandon in Hu.
  injection Hu as Hboot Hr Hw Hpa Hpo Hbr Herr Hproc Hdec Hdrop.
  destruct Hs as [[H1 H2 H3 H4 H5] Hnr Hbt].
  split; [|exact Hw].
  constructor; [constructor| |congruence].
  - rewrite Hw, Hdec. exact H1.
  - rewrite Forall_forall in H2 |- *. intros c Hc'. apply H2, Hb, Hc'.
  - rewrite Hproc. exact H3.
  - rewrite Hdrop. exact H4.
  - rewrite Hc. apply Forall_app. split; [exact H5|].
    apply Forall_fmap. apply Forall_true. intros x w blk. cbn. discriminate.
  - rewrite Hw. exact Hnr.
Qed.

(** *** Continuations *)

Lemma singleton_difference_same (id : Z) : ({[id]} : gset Z) ∖ {[id]} = ∅.
Proof.
  apply set_eq. intros x. rewrite elem_of_difference, elem_of_singleton.
  split; [tauto|]. intros H. exfalso. exact (not_elem_of_empty x H).
Qed.

Lemma singleton_difference_other (p id : Z) :
  p ≠ id -> ({[p]} : gset Z) ∖ {[id]} = {[p]}.
Proof.
  intros Hne. apply set_eq. intros x.
  rewrite elem_of_difference, !elem_of_singleton. split; [tauto|].
  intros ->. split; [reflexivity|exact Hne].
Qed.

Lemma singleton_nonempty (p : Z) : ({[p]} : gset Z) ≠ ∅.
Proof.
  intros H. apply (not_elem_of_empty (C := gset Z) p). rewrite <- H.
  apply elem_of_singleton. reflexivity.
Qed.

(** The engine got from [t0] to [t'], and from [t] to [t'] the
    collaborators did not regress. *)
Local Abbreviation advance t0 t :=
  (fun _ t' => step t0 t' /\ no_regress (world t) (world t')).

Ltac wp_go :=
  repeat (cbn beta;
          lazymatch goal with
          | |- wp (bind _ _) _ _ => apply wp_bind
          | |- wp (get _) _ _ => apply wp_get
          | |- wp (lift _) _ _ => apply wp_lift
          | |- wp (lift' _) _ _ => apply wp_lift'
          | |- wp (ret _) _ _ => apply wp_ret
          | |- wp (fun _ => None) _ _ => apply wp_stuck
          end); cbn beta.

(** What an Issuer needs to run: its block came from the VM and the parent
    of its block is issued or decided. *)
Local Abbreviation runnable w c :=
  (forall blk, action c = issuer blk ->
     from_VM (Block_ID blk) blk /\ issued_or_decided w (Block_Parent blk)).

Section Reentrant.

(** The nested calls of [deliver] are assumed to keep the ordering; this is
    discharged by induction on the nesting depth. *)
Variable deliver_rec : Block -> @M World (option error).
Hypothesis deliver_rec_ok : forall blk t0 t,
  step t0 t ->
  from_VM (Block_ID blk) blk ->
  issued_or_decided (world t) (Block_Parent blk) ->
  wp (deliver_rec blk) (advance t0 t) t.

Lemma Update_ok c t0 t :
  step t0 t -> runnable (world t) c ->
  wp (Update deliver_rec c) (advance t0 t) t.
Proof.
  intros Hs Hrun. unfold Update. destruct (action c) as [blk|vdr rid|vdr rid resp].
  - destruct (Hrun blk eq_refl) as [Hvm Hp].
    wp_go. destruct (errs_Errored t).
    + wp_go. split; [exact Hs|apply no_regress_refl].
    + wp_go. eapply wp_conseq; [apply (deliver_rec_ok blk t0 t Hs Hvm Hp)|].
      cbn beta. intros e t' [Hs' Hnr]. wp_go.
      split; [apply step_errs_Add, Hs'|].
      unfold errs_Add. destruct (errs t'); exact Hnr.
  - wp_go. split; [apply convincer_Update_step, Hs|].
    apply step_no_regress, convincer_Update_step, step_refl, Hs.
  - wp_go. split; [apply voter_Update_step, Hs|].
    apply step_no_regress, voter_Update_step, step_refl, Hs.
Qed.

Lemma forM_Update_ok l t0 : forall t,
  step t0 t -> Forall (fun c => runnable (world t) c) l ->
  wp (forM (Update deliver_rec) l) (advance t0 t) t.
Proof.
  induction l as [|c l IH]; intros t Hs Hl; cbn [forM].
  - wp_go. split; [exact Hs|apply no_regress_refl].
  - apply Forall_cons in Hl as [Hc Hl]. wp_go.
    eapply wp_conseq; [apply (Update_ok c t0 t Hs Hc)|].
    cbn beta. intros _ t1 [Hs1 Hnr1].
    eapply wp_conseq; [apply (IH t1 Hs1)|].
    + eapply Forall_impl; [exact Hl|]. intros c' Hc' blk Hb.
      destruct (Hc' blk Hb) as [Hvm Hp]. split; [exact Hvm|apply Hnr1, Hp].
    + cbn beta. intros _ t2 [Hs2 Hnr2]. split; [exact Hs2|].
      eapply no_regress_trans; eassumption.
Qed.

Lemma Register_with_ok c t0 t :
  step t0 t ->
  (forall blk, action c = issuer blk ->
     from_VM (Block_ID blk) blk
     /\ (deps c = ∅ -> issued_or_decided (world t) (Block_Parent blk))
     /\ (deps c ≠ ∅ -> deps c = {[Block_Parent blk]})) ->
  wp (Register_with deliver_rec c) (advance t0 t) t.
Proof.
  intros Hs Hc. unfold Register_with. wp_go.
  assert (Hs1 : step t0 (emit (Blocker_Register c) t))
    by (apply step_emit; [discriminate|exact Hs]).
  destruct (decide (deps c = ∅)) as [He|Hne].
  - apply (Update_ok c t0 _ Hs1). intros blk Hb.
    destruct (Hc blk Hb) as (Hvm & Hp & _). split; [exact Hvm|apply Hp, He].
  - wp_go. split; [|apply no_regress_refl].
    apply step_set_blocked; [|exact Hs1].
    apply Forall_app. split; [apply (step_inv _ _ Hs)|].
    constructor; [|constructor]. intros blk Hb.
    destruct (Hc blk Hb) as (Hvm & _ & Hd). split; [exact Hvm|apply Hd, Hne].
Qed.

Lemma Fulfill_with_ok id t0 t :
  step t0 t -> issued_or_decided (world t) id ->
  wp (Fulfill_with deliver_rec id) (advance t0 t) t.
Proof.
  intros Hs Hid. unfold Fulfill_with. wp_go.
  pose proof (inv_blocked _ (step_inv _ _ Hs)) as Hb.
  set (strip := fun c : Blockable => {| deps := deps c ∖ {[id]}; action := action c |}).
  cbn [blocked set_blocked emit set_calls].
  eapply wp_conseq; [apply forM_Update_ok|intros a t' H; exact H].
  - apply (step_set_blocked _ t0 (emit (Blocker_Fulfill id) t));
      [|apply step_emit; [discriminate|exact Hs]].
    rewrite Forall_forall in Hb |- *. intros c' Hc'.
    apply list_elem_of_filter in Hc' as [Hne Hc'].
    apply list_elem_of_fmap in Hc' as (c & -> & Hc).
    intros blk Hblk. cbn in Hblk, Hne |- *.
    destruct (Hb c Hc blk Hblk) as [Hvm Hd]. split; [exact Hvm|].
    rewrite Hd in Hne |- *.
    destruct (decide (Block_Parent blk = id)) as [Heq|Hneq].
    + exfalso. apply Hne. rewrite Heq. apply singleton_difference_same.
    + apply singleton_difference_other, Hneq.
  - cbn [world set_blocked emit set_calls].
    rewrite Forall_forall in Hb |- *. intros c' Hc'.
    apply list_elem_of_filter in Hc' as [He Hc'].
    apply list_elem_of_fmap in Hc' as (c & -> & Hc).
    intros blk Hblk. cbn in Hblk, He.
    destruct (Hb c Hc blk Hblk) as [Hvm Hd]. split; [exact Hvm|].
    rewrite Hd in He.
    destruct (decide (Block_Parent blk = id)) as [Heq|Hneq];
      [rewrite Heq; exact Hid|].
    exfalso. rewrite singleton_difference_other in He by exact Hneq.
    exact (singleton_nonempty _ He).
Qed.

(** *** [deliver] *)

Lemma rejected_on_Add_step blkID evictID t0 t :
  issued_or_decided (world t) blkID ->
  step t0 t -> step t0 (rejected_on_Add blkID evictID t).
Proof.
  intros Hid Hs. pose proof (step_inv _ _ Hs) as [H1 H2 H3 H4 H5].
  unfold rejected_on_Add.
  apply step_set_processing; [apply map_Forall_delete, H3|].
  apply step_set_droppedCache; [apply LRU_Evict_Forall, H4|].
  apply step_set_decidedCache; [|exact Hs].
  apply LRU_Put_Forall; [exact H1|exact Hid].
Qed.

Lemma deliver_options_ok blkID options : forall added dropped t0 t,
  step t0 t ->
  issued_or_decided (world t) blkID ->
  Forall (fun o => vmParent o = blkID) options ->
  Forall (fun b => issued_or_decided (world t) (Block_ID b)) added ->
  step t0 (deliver_options blkID options added dropped t).2
  /\ no_regress (world t) (world (deliver_options blkID options added dropped t).2)
  /\ forall added' dropped',
       (deliver_options blkID options added dropped t).1 = inr (added', dropped') ->
       Forall (fun b => issued_or_decided
                          (world (deliver_options blkID options added dropped t).2)
                          (Block_ID b)) added'.
Proof.
  induction options as [|o options IH]; intros added dropped t0 t Hs Hid Hopt Hadd;
    cbn [deliver_options].
  { split; [exact Hs|]. split; [apply no_regress_refl|].
    intros added' dropped' [= <- <-]. exact Hadd. }
  apply Forall_cons in Hopt as [Ho Hopt]. cbn [Block_Verify].
  pose proof (Verify_no_regress (world t) o) as Hnr1.
  destruct (VMBlock_Verify (world t) o) as [w1 verr]. cbn [fst] in Hnr1.
  set (t1 := emit (Block_Verify_called (VMBlk o)) (set_world w1 t)).
  assert (Hs1 : step t0 t1).
  { apply step_emit; [discriminate|]. apply step_set_world; assumption. }
  assert (Hw1 : world t1 = w1) by reflexivity.
  assert (Hadd1 : Forall (fun b => issued_or_decided (world t1) (Block_ID b)) added).
  { eapply Forall_impl; [exact Hadd|]. intros b Hb. apply Hnr1, Hb. }
  assert (Hid1 : issued_or_decided (world t1) blkID) by (apply Hnr1, Hid).
  destruct verr as [e|].
  { destruct (IH added (dropped ++ [VMBlk o]) t0 t1 Hs1 Hid1 Hopt Hadd1)
      as (Hs' & Hnr' & Hres).
    split; [exact Hs'|]. split; [|exact Hres].
    eapply no_regress_trans; [exact Hnr1|exact Hnr']. }
  set (t2 := emit (Consensus_Add_called (world t1) (VMBlk o)) t1).
  assert (Hs2 : step t0 t2).
  { apply step_emit_Add; [|exact Hs1]. cbn [Block_Parent]. rewrite Ho. exact Hid1. }
  pose proof (Add_no_regress (world t2) (VMBlk o)) as Hnr2.
  pose proof (Add_issues (world t2) o) as Hiss.
  destruct (Consensus_Add (world t2) (VMBlk o)) as [w2 [rejected err]].
  cbn [fst] in Hnr2.
  assert (Hs3 : step t0 (set_world w2 t2)) by (apply step_set_world; assumption).
  assert (Hnr3 : no_regress (world t) w2).
  { eapply no_regress_trans; [exact Hnr1|]. exact Hnr2. }
  destruct err as [e|].
  { cbn [fst snd]. split; [exact Hs3|]. split; [exact Hnr3|]. intros ? ? [=]. }
  specialize (Hiss w2 rejected eq_refl).
  set (t3 := if rejected then rejected_on_Add (Block_ID (VMBlk o)) blkID (set_world w2 t2)
             else set_world w2 t2).
  assert (Hs4 : step t0 t3 /\ world t3 = w2).
  { subst t3. destruct rejected; [|split; [exact Hs3|reflexivity]].
    split; [|reflexivity]. apply rejected_on_Add_step; [exact Hiss|exact Hs3]. }
  destruct Hs4 as [Hs4 Hw3].
  destruct (IH (added ++ [VMBlk o]) dropped t0 t3 Hs4) as (Hs' & Hnr' & Hres).
  - rewrite Hw3. apply Hnr2, Hid1.
  - exact Hopt.
  - rewrite Hw3. apply Forall_app. split.
    + eapply Forall_impl; [exact Hadd1|]. intros b Hb. apply Hnr2, Hb.
    + constructor; [exact Hiss|constructor].
  - split; [exact Hs'|]. split; [|exact Hres].
    eapply no_regress_trans; [exact Hnr3|]. rewrite <- Hw3. exact Hnr'.
Qed.

Lemma forM_added_ok added t0 : forall t,
  step t0 t ->
  Forall (fun b => issued_or_decided (world t) (Block_ID b)) added ->
  wp (forM (fun blk =>
              lift (pushSample blk) ;;;
              let blkID := Block_ID blk in
              lift (fun t => set_pending (pending t ∖ {[blkID]}) t) ;;;
              Fulfill_with deliver_rec blkID) added)
     (advance t0 t) t.
Proof.
  induction added as [|b added IH]; intros t Hs Hadd; cbn [forM].
  - wp_go. split; [exact Hs|apply no_regress_refl].
  - apply Forall_cons in Hadd as [Hb Hadd]. wp_go.
    pose proof (step_no_regress _ _ (pushSample_step b t t (step_refl t (step_inv _ _ Hs))))
      as Hnr1.
    eapply wp_conseq.
    + apply Fulfill_with_ok.
      * apply step_set_pending, pushSample_step, Hs.
      * apply Hnr1, Hb.
    + cbn beta. intros _ t1 [Hs1 Hnr2]. cbn [world set_pending] in Hnr2.
      eapply wp_conseq; [apply (IH t1 Hs1)|].
      * eapply Forall_impl; [exact Hadd|]. intros b' Hb'. apply Hnr2, Hnr1, Hb'.
      * cbn beta. intros _ t2 [Hs2 Hnr3]. split; [exact Hs2|].
        eapply no_regress_trans; [exact Hnr1|].
        eapply no_regress_trans; [exact Hnr2|exact Hnr3].
Qed.

Lemma forM_dropped_ok dropped t0 : forall t,
  step t0 t ->
  wp (forM (fun blk =>
              let blkID := Block_ID blk in
              lift (fun t => set_pending (pending t ∖ {[blkID]}) t) ;;;
              Abandon blkID) dropped)
     (advance t0 t) t.
Proof.
  induction dropped as [|b dropped IH]; intros t Hs; cbn [forM].
  - wp_go. split; [exact Hs|apply no_regress_refl].
  - wp_go. eapply wp_conseq; [apply Abandon_step, step_set_pending, Hs|].
    cbn beta. intros _ t1 [Hs1 Hw1]. cbn [world set_pending] in Hw1.
    eapply wp_conseq; [apply (IH t1 Hs1)|].
    cbn beta. intros _ t2 [Hs2 Hnr]. split; [exact Hs2|].
    rewrite <- Hw1. exact Hnr.
Qed.

Lemma deliver_body_ok blk t0 t :
  step t0 t ->
  from_VM (Block_ID blk) blk ->
  issued_or_decided (world t) (Block_Parent blk) ->
  wp (deliver_body deliver_rec blk) (advance t0 t) t.
Proof.
  intros Hs [b [-> Hid]] Hp. unfold deliver_body. wp_go.
  destruct (Consensus_Issued (world t) (VMBlk b)).
  { wp_go. split; [exact Hs|apply no_regress_refl]. }
  wp_go. cbn [world set_pending Block_Verify].
  pose proof (Verify_no_regress (world t) b) as Hnr1.
  destruct (VMBlock_Verify (world t) b) as [w1 verr]. cbn [fst snd] in Hnr1 |- *.
  set (t1 := emit (Block_Verify_called (VMBlk b))
               (set_world w1 (set_pending (pending t ∖ {[Block_ID (VMBlk b)]}) t))).
  assert (Hs1 : step t0 t1).
  { apply step_emit; [discriminate|]. apply step_set_world; [exact Hnr1|].
    apply step_set_pending, Hs. }
  assert (Hw1 : world t1 = w1) by reflexivity.
  destruct verr as [e|].
  { wp_go. eapply wp_conseq.
    - apply Abandon_step. apply step_set_droppedCache.
      + apply LRU_Put_Forall; [apply (step_inv _ _ Hs1)|].
        exists b. split; reflexivity.
      + apply step_set_processing; [|exact Hs1].
        apply map_Forall_delete, (step_inv _ _ Hs1).
    - cbn beta. intros _ t2 [Hs2 Hw2]. wp_go. split; [exact Hs2|].
      rewrite Hw2. exact Hnr1. }
  wp_go.
  set (t2 := emit (Consensus_Add_called (world t1) (VMBlk b)) t1).
  assert (Hs2 : step t0 t2).
  { apply step_emit_Add; [|exact Hs1]. rewrite Hw1. apply Hnr1, Hp. }
  pose proof (Add_no_regress (world t2) (VMBlk b)) as Hnr2.
  pose proof (Add_issues (world t2) b) as Hiss.
  destruct (Consensus_Add (world t2) (VMBlk b)) as [w2 [rejected err]].
  cbn [fst snd] in Hnr2 |- *.
  assert (Hs3 : step t0 (set_world w2 t2)) by (apply step_set_world; assumption).
  assert (Hnr3 : no_regress (world t) w2).
  { eapply no_regress_trans; [exact Hnr1|exact Hnr2]. }
  destruct err as [e|].
  { wp_go. split; [exact Hs3|exact Hnr3]. }
  specialize (Hiss w2 rejected eq_refl). wp_go.
  eapply (wp_conseq _ (fun _ t3 => step t0 t3 /\ world t3 = w2)).
  { destruct rejected; wp_go.
    - split; [|reflexivity]. apply rejected_on_Add_step; [exact Hiss|exact Hs3].
    - split; [exact Hs3|reflexivity]. }
  cbn beta. intros _ t3 [Hs4 Hw3]. wp_go.
  assert (Hcont : forall options,
    Forall (fun o => vmParent o = vmID b) options ->
    wp (res <- lift' (deliver_options (Block_ID (VMBlk b)) options [] []) ;;
        match res with
        | inl e => ret (Some e)
        | inr (added, dropped) =>
            lift (fun t =>
                    let prefID := Consensus_Preference (world t) in
                    emit (VM_SetPreference_called prefID)
                      (set_world (VM_SetPreference (world t) prefID) t)) ;;;
            lift (pushSample (VMBlk b)) ;;;
            Fulfill_with deliver_rec (Block_ID (VMBlk b)) ;;;
            forM (fun blk =>
                    lift (pushSample blk) ;;;
                    let blkID := Block_ID blk in
                    lift (fun t => set_pending (pending t ∖ {[blkID]}) t) ;;;
                    Fulfill_with deliver_rec blkID) added ;;;
            forM (fun blk =>
                    let blkID := Block_ID blk in
                    lift (fun t => set_pending (pending t ∖ {[blkID]}) t) ;;;
                    Abandon blkID) dropped ;;;
            lift repoll ;;;
            get errs
        end) (advance t0 t) t3).
  { intros options Hchildren. wp_go.
    destruct (deliver_options_ok (Block_ID (VMBlk b)) options [] [] t0 t3 Hs4)
      as (Hs5 & Hnr5 & Hres).
    { rewrite Hw3. exact Hiss. }
    { exact Hchildren. }
    { constructor. }
    destruct (deliver_options (Block_ID (VMBlk b)) options [] [] t3)
      as [[e|[added dropped]] t5]; cbn [fst snd] in *.
    { wp_go. split; [exact Hs5|].
      eapply no_regress_trans; [exact Hnr3|]. rewrite <- Hw3. exact Hnr5. }
    specialize (Hres added dropped eq_refl). wp_go.
    set (t6 := emit _ (set_world _ t5)).
    assert (Hnr6 : no_regress (world t5) (world t6)) by apply SetPreference_no_regress.
    assert (Hs6 : step t0 t6).
    { apply step_emit; [discriminate|]. apply step_set_world; [|exact Hs5].
      apply SetPreference_no_regress. }
    pose proof (step_no_regress _ _
                  (pushSample_step (VMBlk b) t6 t6 (step_refl t6 (step_inv _ _ Hs6))))
      as Hnr7.
    assert (Hs7 : step t0 (pushSample (VMBlk b) t6)) by (apply pushSample_step, Hs6).
    assert (Hnr07 : no_regress (world t) (world (pushSample (VMBlk b) t6))).
    { eapply no_regress_trans; [exact Hnr3|]. rewrite <- Hw3.
      eapply no_regress_trans; [exact Hnr5|].
      eapply no_regress_trans; [exact Hnr6|exact Hnr7]. }
    eapply wp_conseq.
    { apply Fulfill_with_ok; [exact Hs7|].
      apply Hnr7, Hnr6, Hnr5. rewrite Hw3. exact Hiss. }
    cbn beta. intros _ t8 [Hs8 Hnr8]. wp_go.
    eapply wp_conseq.
    { apply forM_added_ok; [exact Hs8|].
      eapply Forall_impl; [exact Hres|]. intros b' Hb'.
      apply Hnr8, Hnr7, Hnr6, Hb'. }
    cbn beta. intros _ t9 [Hs9 Hnr9]. wp_go.
    eapply wp_conseq; [apply forM_dropped_ok, Hs9|].
    cbn beta. intros _ t10 [Hs10 Hnr10]. wp_go.
    split; [apply repoll_step, Hs10|].
    eapply no_regress_trans; [exact Hnr07|].
    eapply no_regress_trans; [exact Hnr8|].
    eapply no_regress_trans; [exact Hnr9|].
    eapply no_regress_trans; [exact Hnr10|].
    apply step_no_regress, repoll_step, step_refl, (step_inv _ _ Hs10). }
  pose proof (Options_children (world t3) b) as Hch.
  unfold Block_Options. destruct (vmOracle b).
  - destruct (VMBlock_Options (world t3) b) as [l|e].
    + apply (Hcont l). apply Hch. reflexivity.
    + wp_go. split; [exact Hs4|]. rewrite Hw3. exact Hnr3.
  - apply (Hcont []). constructor.
Qed.

End Reentrant.

Lemma deliver_fuel_ok n : forall blk t0 t,
  step t0 t ->
  from_VM (Block_ID blk) blk ->
  issued_or_decided (world t) (Block_Parent blk) ->
  wp (deliver_fuel n blk) (advance t0 t) t.
Proof.
  induction n as [|n IH]; intros blk t0 t Hs Hvm Hp; cbn [deliver_fuel].
  - apply wp_stuck.
  - apply deliver_body_ok; assumption.
Qed.

Lemma deliver_ok blk t0 t :
  step t0 t ->
  from_VM (Block_ID blk) blk ->
  issued_or_decided (world t) (Block_Parent blk) ->
  wp (deliver blk) (advance t0 t) t.
Proof.
  intros Hs Hvm Hp a t' Hrun. unfold deliver in Hrun.
  exact (deliver_fuel_ok _ blk t0 t Hs Hvm Hp a t' Hrun).
Qed.

Lemma Register_ok c t0 t :
  step t0 t ->
  (forall blk, action c = issuer blk ->
     from_VM (Block_ID blk) blk
     /\ (deps c = ∅ -> issued_or_decided (world t) (Block_Parent blk))
     /\ (deps c ≠ ∅ -> deps c = {[Block_Parent blk]})) ->
  wp (Register c) (advance t0 t) t.
Proof. intros Hs Hc. unfold Register. apply Register_with_ok; [|assumption..]. apply deliver_ok. Qed.

(** *** The issuance resolver *)

Lemma decidedCache_Get_step id t0 t :
  step t0 t ->
  let r := (let '(v, c) := LRU.Get id (decidedCache t) in
            (bool_decide (v ≠ None), set_decidedCache c t)) in
  step t0 r.2 /\ world r.2 = world t
  /\ (r.1 = true -> issued_or_decided (world t) id).
Proof.
  intros Hs. cbn zeta. pose proof (inv_decided _ (step_inv _ _ Hs)) as H1.
  pose proof (LRU_Get_Forall _ id _ H1) as HG.
  pose proof (LRU_Get_Some (fun e : Z * unit => issued_or_decided (world t) e.1) id) as HS.
  destruct (LRU.Get id (decidedCache t)) as [v c] eqn:Hg. cbn [fst snd] in *.
  split; [apply step_set_decidedCache; assumption|]. split; [reflexivity|].
  intros Hv. apply bool_decide_eq_true in Hv. destruct v as [[]|]; [|congruence].
  apply (HS tt (decidedCache t) H1). rewrite Hg. reflexivity.
Qed.

Lemma issue_ok blk t0 t :
  step t0 t -> from_VM (Block_ID blk) blk ->
  wp (issue blk) (advance t0 t) t.
Proof.
  intros Hs Hvm. unfold issue. wp_go.
  set (t1 := set_blkReqs _ (set_pending _ t)).
  assert (Hs1 : step t0 t1) by (apply step_set_blkReqs, step_set_pending, Hs).
  assert (Hw1 : world t1 = world t) by reflexivity.
  destruct (decidedCache_Get_step (Block_Parent blk) t0 t1 Hs1) as (Hs2 & Hw2 & Hin).
  cbn zeta in Hs2, Hw2, Hin.
  destruct (let '(v, c) := LRU.Get (Block_Parent blk) (decidedCache t1) in
            (bool_decide (v ≠ None), set_decidedCache c t1)) as [inCache t2].
  cbn [fst snd] in *.
  eapply (wp_conseq _ (fun parentIssued t3 =>
            step t0 t3 /\ world t3 = world t
            /\ (parentIssued = true ->
                issued_or_decided (world t3) (Block_Parent blk)))).
  { destruct inCache.
    - wp_go. split; [exact Hs2|]. split; [congruence|]. intros _. rewrite Hw2.
      apply Hin. reflexivity.
    - wp_go. destruct (GetBlock_step (Block_Parent blk) t0 t2 Hs2) as (Hs3 & Hw3 & Hb).
      destruct (GetBlock (Block_Parent blk) t2) as [[parent|e] t3]; cbn [fst snd] in *.
      + wp_go. split; [exact Hs3|]. split; [congruence|]. intros Hiss.
        destruct (Hb parent eq_refl) as (p & -> & Hpid).
        exists p. split; [exact Hpid|]. left. exact Hiss.
      + wp_go. split; [exact Hs3|]. split; [congruence|]. intros [=]. }
  cbn beta. intros parentIssued t3 (Hs3 & Hw3 & Hpi). wp_go.
  eapply wp_conseq.
  { apply Register_ok; [exact Hs3|]. intros blk' [= <-]. cbn [deps].
    split; [exact Hvm|]. split.
    - intros He. destruct parentIssued; [apply Hpi; reflexivity|].
      exfalso. exact (singleton_nonempty _ He).
    - intros Hne. destruct parentIssued; [congruence|reflexivity]. }
  cbn beta. intros _ t4 [Hs4 Hnr4]. wp_go. split; [exact Hs4|].
  rewrite <- Hw3. exact Hnr4.
Qed.

Lemma issueFrom_loop_ok n vdr : forall blk blkID t0 t,
  step t0 t -> from_VM (Block_ID blk) blk ->
  wp (issueFrom_loop n vdr blk blkID) (advance t0 t) t.
Proof.
  induction n as [|n IH]; intros blk blkID t0 t Hs Hvm; cbn [issueFrom_loop].
  { apply wp_stuck. }
  wp_go.
  destruct (negb (Consensus_Issued (world t) blk) && negb (bool_decide (blkID ∈ pending t))).
  2:{ wp_go. split; [exact Hs|apply no_regress_refl]. }
  wp_go. eapply wp_conseq; [apply (issue_ok blk t0 t Hs Hvm)|].
  cbn beta. intros err t1 [Hs1 Hnr1]. destruct err as [e|].
  { wp_go. split; assumption. }
  wp_go.
  destruct (decidedCache_Get_step (Block_Parent blk) t0 t1 Hs1) as (Hs2 & Hw2 & _).
  cbn zeta in Hs2, Hw2.
  destruct (let '(v, c) := LRU.Get (Block_Parent blk) (decidedCache t1) in
            (bool_decide (v ≠ None), set_decidedCache c t1)) as [decided t2].
  cbn [fst snd] in *.
  assert (Hnr2 : no_regress (world t) (world t2)) by (rewrite Hw2; exact Hnr1).
  destruct decided.
  { wp_go. split; assumption. }
  wp_go. destruct (GetBlock_step (Block_Parent blk) t0 t2 Hs2) as (Hs3 & Hw3 & Hb).
  destruct (GetBlock (Block_Parent blk) t2) as [[blk'|e] t3]; cbn [fst snd] in *.
  - wp_go. destruct (choices.Fetched (Block_Status (world t3) blk')).
    + eapply wp_conseq.
      * apply (IH blk' (Block_Parent blk) t0 t3 Hs3).
        destruct (Hb blk' eq_refl) as (p & -> & Hpid). exists p. split; reflexivity.
      * cbn beta. intros _ t4 [Hs4 Hnr4]. split; [exact Hs4|].
        eapply no_regress_trans; [exact Hnr2|]. rewrite <- Hw3. exact Hnr4.
    + wp_go. split; [apply sendRequest_step, Hs3|].
      rewrite sendRequest_world, Hw3. exact Hnr2.
  - wp_go. split; [apply sendRequest_step, Hs3|].
    rewrite sendRequest_world, Hw3. exact Hnr2.
Qed.

Lemma issueFrom_ok fuel vdr blk t0 t :
  step t0 t -> from_VM (Block_ID blk) blk ->
  wp (issueFrom fuel vdr blk) (advance t0 t) t.
Proof. intros. unfold issueFrom. apply issueFrom_loop_ok; assumption. Qed.

Lemma issueFromByID_ok fuel vdr blkID t0 t :
  step t0 t -> wp (issueFromByID fuel vdr blkID) (advance t0 t) t.
Proof.
  intros Hs. unfold issueFromByID. wp_go.
  destruct (decidedCache_Get_step blkID t0 t Hs) as (Hs2 & Hw2 & _).
  cbn zeta in Hs2, Hw2.
  destruct (let '(v, c) := LRU.Get blkID (decidedCache t) in
            (bool_decide (v ≠ None), set_decidedCache c t)) as [decided t2].
  cbn [fst snd] in *.
  assert (Hnr2 : no_regress (world t) (world t2)) by (rewrite Hw2; apply no_regress_refl).
  destruct decided.
  { wp_go. split; assumption. }
  wp_go. destruct (GetBlock_step blkID t0 t2 Hs2) as (Hs3 & Hw3 & Hb).
  destruct (GetBlock blkID t2) as [[blk|e] t3]; cbn [fst snd] in *.
  2:{ wp_go. split; [apply sendRequest_step, Hs3|].
      rewrite sendRequest_world, Hw3. exact Hnr2. }
  wp_go. destruct (Hb blk eq_refl) as (p & -> & Hpid).
  assert (Hdec : choices.Decided (Block_Status (world t3) (VMBlk p)) = true ->
                 wp (lift (fun t => set_decidedCache
                                      (LRU.Put decidedCacheSize blkID tt (decidedCache t)) t) ;;;
                     ret (true, (None : option error))) (advance t0 t) t3).
  { intros Hd. wp_go. split; [|cbn; rewrite Hw3; exact Hnr2].
    apply step_set_decidedCache; [|exact Hs3].
    apply LRU_Put_Forall; [apply (step_inv _ _ Hs3)|].
    exists p. split; [exact Hpid|]. right. exact Hd. }
  assert (Hiss : wp (issueFrom fuel vdr (VMBlk p)) (advance t0 t) t3).
  { eapply wp_conseq;
      [apply (issueFrom_ok fuel vdr (VMBlk p) t0 t3 Hs3); exists p; split; reflexivity|].
    cbn beta. intros _ t4 [Hs4 Hnr4]. split; [exact Hs4|].
    eapply no_regress_trans; [exact Hnr2|]. rewrite <- Hw3. exact Hnr4. }
  destruct (Block_Status (world t3) (VMBlk p)) eqn:Hst;
    [exact Hiss|exact Hiss|apply Hdec; reflexivity|apply Hdec; reflexivity].
Qed.

Lemma issueWithAncestors_loop_ok n : forall blk blkID t0 t,
  step t0 t -> (choices.Fetched (Block_Status (world t) blk) = true ->
                from_VM (Block_ID blk) blk) ->
  wp (issueWithAncestors_loop n blk blkID) (advance t0 t) t.
Proof.
  induction n as [|n IH]; intros blk blkID t0 t Hs Hvm; cbn [issueWithAncestors_loop].
  { apply wp_stuck. }
  wp_go.
  destruct (choices.Fetched (Block_Status (world t) blk)) eqn:Hf; cbn [andb].
  2:{ wp_go. split; [exact Hs|apply no_regress_refl]. }
  destruct (negb (Consensus_Issued (world t) blk) && negb (bool_decide (blkID ∈ pending t))).
  2:{ wp_go. split; [exact Hs|apply no_regress_refl]. }
  wp_go. eapply wp_conseq; [apply (issue_ok blk t0 t Hs (Hvm eq_refl))|].
  cbn beta. intros err t1 [Hs1 Hnr1]. destruct err as [e|].
  { wp_go. split; assumption. }
  wp_go. destruct (GetBlock_step (Block_Parent blk) t0 t1 Hs1) as (Hs3 & Hw3 & Hb).
  destruct (GetBlock (Block_Parent blk) t1) as [[blk'|e] t3]; cbn [fst snd] in *.
  - eapply wp_conseq.
    + apply (IH blk' (Block_Parent blk) t0 t3 Hs3). intros _.
      destruct (Hb blk' eq_refl) as (p & -> & Hpid). exists p. split; reflexivity.
    + cbn beta. intros _ t4 [Hs4 Hnr4]. split; [exact Hs4|].
      eapply no_regress_trans; [exact Hnr1|]. rewrite <- Hw3. exact Hnr4.
  - eapply wp_conseq.
    + apply (IH _ (Block_Parent blk) t0 t3 Hs3). cbn. discriminate.
    + cbn beta. intros _ t4 [Hs4 Hnr4]. split; [exact Hs4|].
      eapply no_regress_trans; [exact Hnr1|]. rewrite <- Hw3. exact Hnr4.
Qed.

Lemma issueWithAncestors_ok fuel blk t0 t :
  step t0 t -> from_VM (Block_ID blk) blk ->
  wp (issueWithAncestors fuel blk) (advance t0 t) t.
Proof.
  intros Hs Hvm. unfold issueWithAncestors. wp_go.
  eapply wp_conseq;
    [apply (issueWithAncestors_loop_ok fuel blk (Block_ID blk) t0 t Hs); intros _; exact Hvm|].
  cbn beta. intros r t1 [Hs1 Hnr1]. destruct r as [res|[blk' blkID']].
  { wp_go. split; assumption. }
  wp_go. destruct (Consensus_Issued (world t1) blk').
  { wp_go. split; assumption. }
  wp_go. destruct (Requests.Contains blkID' (blkReqs t1)).
  { wp_go. split; assumption. }
  wp_go. eapply wp_conseq; [apply (Abandon_step blkID' t0 t1 Hs1)|].
  cbn beta. intros _ t2 [Hs2 Hw2]. wp_go. split; [exact Hs2|].
  rewrite Hw2. exact Hnr1.
Qed.

(** *** Handlers *)

Lemma pin_step key blkID blk t0 t :
  from_VM key blk -> step t0 t -> step t0 (pin key blkID blk t).
Proof.
  intros Hvm Hs. pose proof (step_inv _ _ Hs) as [H1 H2 H3 H4 H5]. unfold pin.
  apply step_set_droppedCache; [apply LRU_Evict_Forall, H4|].
  apply step_set_processing; [|exact Hs].
  apply map_Forall_insert_2; assumption.
Qed.

Lemma Gossip_step t0 t : step t0 t -> step t0 (Gossip t).2.
Proof.
  intros Hs. unfold Gossip.
  destruct (GetBlock_step (VM_LastAccepted (world t)) t0 t Hs) as (Hs1 & _ & _).
  destruct (GetBlock _ t) as [[blk|e] t1]; cbn [fst snd] in *; [|exact Hs1].
  apply step_emit; [discriminate|exact Hs1].
Qed.

Lemma Get_step vdr requestID blkID t0 t :
  step t0 t -> step t0 (Get vdr requestID blkID t).2.
Proof.
  intros Hs. unfold Get.
  destruct (GetBlock_step blkID t0 t Hs) as (Hs1 & _ & _).
  destruct (GetBlock _ t) as [[blk|e] t1]; cbn [fst snd] in *; [|exact Hs1].
  apply step_emit; [discriminate|exact Hs1].
Qed.

Lemma GetAncestors_loop_step D IntLen Max n t0 : forall numFetched blk acc accLen t,
  step t0 t ->
  step t0 (GetAncestors_loop D IntLen Max n numFetched blk acc accLen t).2.
Proof.
  induction n as [|n IH]; intros numFetched blk acc accLen t Hs;
    cbn [GetAncestors_loop]; [exact Hs|].
  destruct ((numFetched <? Max) && Clock_WithinFetchBudget (world t) numFetched);
    [|exact Hs].
  destruct (GetBlock_step (Block_Parent blk) t0 t Hs) as (Hs1 & _ & _).
  destruct (GetBlock _ t) as [[blk'|e] t1]; cbn [fst snd] in *; [|exact Hs1].
  destruct (_ <? _); [|exact Hs1]. apply IH, Hs1.
Qed.

Lemma GetAncestors_step D IntLen Max vdr requestID blkID t0 t :
  step t0 t -> step t0 (GetAncestors D IntLen Max vdr requestID blkID t).2.
Proof.
  intros Hs. unfold GetAncestors.
  destruct (GetBlock_step blkID t0 t Hs) as (Hs1 & _ & _).
  destruct (GetBlock _ t) as [[blk|e] t1]; cbn [fst snd] in *; [|exact Hs1].
  pose proof (GetAncestors_loop_step D IntLen Max (Z.to_nat (Max - 1)) t0 1 blk
                [Block_Bytes blk] (len (Block_Bytes blk) + IntLen) t1 Hs1) as Hs2.
  destruct (GetAncestors_loop _ _ _ _ _ _ _ _ _) as [cs t2]. cbn [fst snd] in *.
  apply step_emit; [discriminate|exact Hs2].
Qed.

Lemma GetFailed_ok vdr requestID t0 t :
  step t0 t -> wp (GetFailed vdr requestID) (advance t0 t) t.
Proof.
  intros Hs. unfold GetFailed. wp_go.
  destruct (negb (Ctx_IsBootstrapped t)).
  { wp_go. split; [exact Hs|apply no_regress_refl]. }
  wp_go. destruct (Requests.Remove vdr requestID (blkReqs t)) as [[blkID|] reqs];
    cbn [fst snd].
  - wp_go. eapply wp_conseq;
      [apply (Abandon_step blkID t0 _ (step_set_blkReqs reqs t0 t Hs))|].
    cbn beta. intros _ t1 [Hs1 Hw1]. wp_go. split; [exact Hs1|].
    rewrite Hw1. apply no_regress_refl.
  - wp_go. split; [apply step_set_blkReqs, Hs|apply no_regress_refl].
Qed.

Lemma Put_ok fuel vdr requestID blkID blkBytes t0 t :
  step t0 t -> wp (Put fuel vdr requestID blkID blkBytes) (advance t0 t) t.
Proof.
  intros Hs. unfold Put. wp_go.
  destruct (negb (IsBootstrapped t)).
  { wp_go. split; [exact Hs|apply no_regress_refl]. }
  wp_go. destruct (VM_ParseBlock (world t) blkBytes) as [b|e].
  2:{ apply GetFailed_ok, Hs. }
  wp_go.
  eapply (wp_conseq _ (fun _ t1 => step t0 t1 /\ world t1 = world t)).
  { destruct (choices.eqb _ _); wp_go.
    - split; [|reflexivity]. apply pin_step; [|exact Hs]. exists b. split; reflexivity.
    - split; [exact Hs|reflexivity]. }
  cbn beta. intros _ t1 [Hs1 Hw1]. wp_go.
  eapply wp_conseq;
    [apply (issueFrom_ok fuel vdr (VMBlk b) t0 t1 Hs1); exists b; split; reflexivity|].
  cbn beta. intros r t2 [Hs2 Hnr2]. wp_go. split; [exact Hs2|].
  rewrite <- Hw1. exact Hnr2.
Qed.

Lemma PullQuery_ok fuel vdr requestID blkID t0 t :
  step t0 t -> wp (PullQuery fuel vdr requestID blkID) (advance t0 t) t.
Proof.
  intros Hs. unfold PullQuery. wp_go.
  destruct (negb (Ctx_IsBootstrapped t)).
  { wp_go. split; [exact Hs|apply no_regress_refl]. }
  wp_go. eapply wp_conseq; [apply (issueFromByID_ok fuel vdr blkID t0 t Hs)|].
  cbn beta. intros [added [e|]] t1 [Hs1 Hnr1].
  { wp_go. split; assumption. }
  wp_go. eapply wp_conseq.
  { apply (Register_ok _ t0 t1 Hs1). cbn [action]. intros blk [=]. }
  cbn beta. intros _ t2 [Hs2 Hnr2]. wp_go. split; [exact Hs2|].
  eapply no_regress_trans; eassumption.
Qed.

Lemma PushQuery_ok fuel vdr requestID blkID blkBytes t0 t :
  step t0 t -> wp (PushQuery fuel vdr requestID blkID blkBytes) (advance t0 t) t.
Proof.
  intros Hs. unfold PushQuery. wp_go.
  destruct (negb (Ctx_IsBootstrapped t)).
  { wp_go. split; [exact Hs|apply no_regress_refl]. }
  wp_go. destruct (VM_ParseBlock (world t) blkBytes) as [b|e].
  2:{ wp_go. split; [exact Hs|apply no_regress_refl]. }
  destruct (Block_ID (VMBlk b) =? blkID) eqn:Hid; cbn [negb].
  2:{ wp_go. split; [exact Hs|apply no_regress_refl]. }
  apply Z.eqb_eq in Hid. wp_go.
  eapply (wp_conseq _ (fun _ t1 => step t0 t1 /\ world t1 = world t)).
  { destruct (choices.eqb _ _); wp_go.
    - split; [|reflexivity]. apply pin_step; [|exact Hs]. exists b. split; [reflexivity|exact Hid].
    - split; [exact Hs|reflexivity]. }
  cbn beta. intros _ t1 [Hs1 Hw1]. wp_go.
  eapply wp_conseq;
    [apply (issueFrom_ok fuel vdr (VMBlk b) t0 t1 Hs1); exists b; split; reflexivity|].
  cbn beta. intros r t2 [Hs2 Hnr2]. destruct (r.2) as [e|].
  { wp_go. split; [exact Hs2|]. rewrite <- Hw1. exact Hnr2. }
  eapply wp_conseq; [apply (PullQuery_ok fuel vdr requestID blkID t0 t2 Hs2)|].
  cbn beta. intros _ t3 [Hs3 Hnr3]. split; [exact Hs3|].
  rewrite <- Hw1. eapply no_regress_trans; eassumption.
Qed.

Lemma QueryFailed_ok vdr requestID t0 t :
  step t0 t -> wp (QueryFailed vdr requestID) (advance t0 t) t.
Proof.
  intros Hs. unfold QueryFailed. wp_go.
  destruct (negb (Ctx_IsBootstrapped t)).
  { wp_go. split; [exact Hs|apply no_regress_refl]. }
  wp_go. eapply wp_conseq.
  { apply (Register_ok _ t0 t Hs). cbn [action]. intros blk [=]. }
  cbn beta. intros _ t2 [Hs2 Hnr2]. wp_go. split; assumption.
Qed.

Lemma Chits_ok fuel vdr requestID (votes : gset Z) t0 t :
  step t0 t -> wp (Chits fuel vdr requestID votes) (advance t0 t) t.
Proof.
  intros Hs. unfold Chits. wp_go.
  destruct (negb (Ctx_IsBootstrapped t)).
  { wp_go. split; [exact Hs|apply no_regress_refl]. }
  destruct (elements votes) as [|blkID [|blkID' l]];
    [apply QueryFailed_ok, Hs| |apply QueryFailed_ok, Hs].
  wp_go. eapply wp_conseq; [apply (issueFromByID_ok fuel vdr blkID t0 t Hs)|].
  cbn beta. intros [added [e|]] t1 [Hs1 Hnr1].
  { wp_go. split; assumption. }
  wp_go. eapply wp_conseq.
  { apply (Register_ok _ t0 t1 Hs1). cbn [action]. intros blk [=]. }
  cbn beta. intros _ t2 [Hs2 Hnr2]. wp_go. split; [exact Hs2|].
  eapply no_regress_trans; eassumption.
Qed.

Lemma Notify_ok fuel msg t0 t :
  step t0 t -> wp (Notify fuel msg) (advance t0 t) t.
Proof.
  intros Hs. unfold Notify. wp_go.
  destruct (negb (Ctx_IsBootstrapped t)).
  { wp_go. split; [exact Hs|apply no_regress_refl]. }
  destruct msg as [|code]; [|wp_go; split; [exact Hs|apply no_regress_refl]].
  wp_go. pose proof (BuildBlock_no_regress (world t)) as Hnr1.
  destruct (VM_BuildBlock (world t)) as [w1 built]. cbn [fst snd] in *.
  assert (Hs1 : step t0 (set_world w1 t)) by (apply step_set_world; assumption).
  destruct built as [b|e]; [|wp_go; split; assumption].
  wp_go. destruct (negb (choices.eqb _ _)); [wp_go; split; assumption|].
  destruct (_ || _); [wp_go; split; assumption|].
  wp_go.
  eapply wp_conseq.
  { apply (issueWithAncestors_ok fuel (VMBlk b) t0 _
             (pin_step _ _ _ t0 _ (ex_intro _ b (conj eq_refl eq_refl)) Hs1)).
    exists b. split; reflexivity. }
  cbn beta. intros r t2 [Hs2 Hnr2]. cbn [world pin set_droppedCache set_processing] in Hnr2.
  destruct (r.2); wp_go; (split; [exact Hs2|]);
    (eapply no_regress_trans; [exact Hnr1|exact Hnr2]).
Qed.

(** *** Start-up *)

Lemma finishBootstrapping_options_ok options t0 : forall t,
  step t0 t ->
  Forall (fun o => issued_or_decided (world t) (vmParent o)) options ->
  wp (finishBootstrapping_options options) (advance t0 t) t.
Proof.
  induction options as [|o options IH]; intros t Hs Hopt;
    cbn [finishBootstrapping_options].
  { wp_go. split; [exact Hs|apply no_regress_refl]. }
  apply Forall_cons in Hopt as [Ho Hopt]. wp_go.
  eapply wp_conseq.
  { apply (deliver_ok (VMBlk o) t0 t Hs); [exists o; split; reflexivity|exact Ho]. }
  cbn beta. intros [e|] t1 [Hs1 Hnr1].
  { wp_go. split; assumption. }
  eapply wp_conseq.
  { apply (IH t1 Hs1). eapply Forall_impl; [exact Hopt|]. intros o' Ho'.
    apply Hnr1, Ho'. }
  cbn beta. intros _ t2 [Hs2 Hnr2]. split; [exact Hs2|].
  eapply no_regress_trans; eassumption.
Qed.

Lemma finishBootstrapping_ok t :
  Inv t -> decidedCache t = [] ->
  wp finishBootstrapping
     (fun _ t' => Inv t' /\ Ctx_IsBootstrapped t' = Ctx_IsBootstrapped t) t.
Proof.
  intros [H1 H2 H3 H4 H5] Hd. unfold finishBootstrapping. wp_go.
  set (t1 := set_world _ t).
  assert (Hinv1 : Inv t1).
  { constructor; cbn; try assumption. rewrite Hd. constructor. }
  pose proof (step_refl t1 Hinv1) as Hs1.
  pose proof (GetBlock_ID (world t1) (VM_LastAccepted (world t))) as Hid.
  destruct (VM_GetBlock (world t1) (VM_LastAccepted (world t))) as [b|e].
  2:{ wp_go. split; [exact Hinv1|reflexivity]. }
  specialize (Hid b eq_refl). wp_go. unfold Block_Options.
  destruct (vmOracle b).
  - pose proof (Options_children (world t1) b) as Hch.
    destruct (VMBlock_Options (world t1) b) as [options|e].
    + eapply wp_conseq.
      * apply (finishBootstrapping_options_ok options t1 t1 Hs1).
        eapply Forall_impl; [apply Hch; reflexivity|]. intros o Ho. cbn beta in Ho.
        rewrite Ho, Hid. apply Initialize_lastAccepted.
      * cbn beta. intros _ t2 [Hs2 _]. split; [apply Hs2|].
        rewrite (step_boot _ _ Hs2). reflexivity.
    + wp_go. split; [exact Hinv1|reflexivity].
  - wp_go.
    match goal with |- Inv ?t2 /\ _ => assert (Hs2 : step t1 t2) end.
    { apply step_emit; [discriminate|]. apply step_set_world; [|exact Hs1].
      apply SetPreference_no_regress. }
    split; [apply Hs2|reflexivity].
Qed.

(** *** Reachable states *)

Lemma GetBlock_decidedCache id t :
  decidedCache (GetBlock id t).2 = decidedCache t.
Proof.
  unfold GetBlock. destruct (processing t !! id); [reflexivity|].
  destruct (LRU.Get id (droppedCache t)) as [[b|] c]; [reflexivity|].
  destruct (VM_GetBlock (world t) id); reflexivity.
Qed.

Lemma GetAncestors_loop_decidedCache D IntLen Max n :
  forall numFetched blk acc accLen t,
    decidedCache (GetAncestors_loop D IntLen Max n numFetched blk acc accLen t).2
    = decidedCache t.
Proof.
  induction n as [|n IH]; intros numFetched blk acc accLen t;
    cbn [GetAncestors_loop]; [reflexivity|].
  destruct (_ && _); [|reflexivity].
  pose proof (GetBlock_decidedCache (Block_Parent blk) t) as Hd.
  destruct (GetBlock _ t) as [[blk'|e] t1]; cbn [fst snd] in *; [|exact Hd].
  destruct (_ <? _); [|exact Hd]. rewrite IH. exact Hd.
Qed.

(** Before the hand-over nothing has been decided: the decided cache is
    empty. *)
Lemma reachable_Inv D IntLen Max t :
  reachable D IntLen Max t ->
  Inv t /\ (Ctx_IsBootstrapped t = false -> decidedCache t = []).
Proof.
  assert (Hhandler : forall (h : M (option error)) t e t',
             Inv t /\ (Ctx_IsBootstrapped t = false -> decidedCache t = []) ->
             (Ctx_IsBootstrapped t = false -> h t = Some (None, t)) ->
             (forall t0, step t0 t -> wp h (advance t0 t) t) ->
             h t = Some (e, t') ->
             Inv t' /\ (Ctx_IsBootstrapped t' = false -> decidedCache t' = [])).
  { intros h t1 e t' [Hinv Hd] Hguard Hok Hrun.
    destruct (Ctx_IsBootstrapped t1) eqn:Hb.
    - destruct (Hok t1 (step_refl t1 Hinv) e t' Hrun) as [Hs _].
      split; [apply Hs|]. rewrite (step_boot _ _ Hs), Hb. discriminate.
    - rewrite (Hguard eq_refl) in Hrun. injection Hrun as _ <-.
      split; [exact Hinv|]. intros _. apply Hd. reflexivity. }
  induction 1 as [params w
                 |t t' Hr IH Hb Hrun
                 |t Hr IH
                 |t vdr requestID blkID Hr IH
                 |t vdr requestID blkID Hr IH
                 |t fuel vdr requestID blkID blkBytes e t' Hr IH Hrun
                 |t vdr requestID e t' Hr IH Hrun
                 |t fuel vdr requestID blkID e t' Hr IH Hrun
                 |t fuel vdr requestID blkID blkBytes e t' Hr IH Hrun
                 |t fuel vdr requestID votes e t' Hr IH Hrun
                 |t vdr requestID e t' Hr IH Hrun
                 |t fuel msg e t' Hr IH Hrun].
  - split; [|reflexivity]. constructor; cbn; try constructor.
    apply map_Forall_empty.
  - destruct IH as [Hinv Hd].
    destruct (finishBootstrapping_ok t Hinv (Hd Hb) None t' Hrun) as [[H1 H2 H3 H4 H5] _].
    split; [constructor; assumption|]. cbn. discriminate.
  - destruct IH as [Hinv Hd].
    pose proof (Gossip_step t t (step_refl t Hinv)) as Hs.
    split; [apply Hs|]. rewrite (step_boot _ _ Hs). intros Hb.
    rewrite <- (Hd Hb). unfold Gossip.
    pose proof (GetBlock_decidedCache (VM_LastAccepted (world t)) t) as Hg.
    destruct (GetBlock _ t) as [[blk|e] t1]; exact Hg.
  - destruct IH as [Hinv Hd].
    pose proof (Get_step vdr requestID blkID t t (step_refl t Hinv)) as Hs.
    split; [apply Hs|]. rewrite (step_boot _ _ Hs). intros Hb.
    rewrite <- (Hd Hb). unfold Get.
    pose proof (GetBlock_decidedCache blkID t) as Hg.
    destruct (GetBlock _ t) as [[blk|e] t1]; exact Hg.
  - destruct IH as [Hinv Hd].
    pose proof (GetAncestors_step D IntLen Max vdr requestID blkID t t
                  (step_refl t Hinv)) as Hs.
    split; [apply Hs|]. rewrite (step_boot _ _ Hs). intros Hb.
    rewrite <- (Hd Hb). unfold GetAncestors.
    pose proof (GetBlock_decidedCache blkID t) as Hg.
    destruct (GetBlock _ t) as [[blk|e] t1]; [|exact Hg]. cbn [snd] in Hg.
    pose proof (GetAncestors_loop_decidedCache D IntLen Max (Z.to_nat (Max - 1)) 1 blk
                  [Block_Bytes blk] (len (Block_Bytes blk) + IntLen) t1) as Hl.
    destruct (GetAncestors_loop _ _ _ _ _ _ _ _ _) as [cs t2]. cbn in Hl |- *.
    congruence.
  - eapply (Hhandler _ t e t' IH); [| |exact Hrun].
    + intros Hb. apply (guarded_handlers_noop t Hb).
    + intros t0 Hs. apply Put_ok, Hs.
  - eapply (Hhandler _ t e t' IH); [| |exact Hrun].
    + intros Hb. apply (guarded_handlers_noop t Hb).
    + intros t0 Hs. apply GetFailed_ok, Hs.
  - eapply (Hhandler _ t e t' IH); [| |exact Hrun].
    + intros Hb. apply (guarded_handlers_noop t Hb).
    + intros t0 Hs. apply PullQuery_ok, Hs.
  - eapply (Hhandler _ t e t' IH); [| |exact Hrun].
    + intros Hb. apply (guarded_handlers_noop t Hb).
    + intros t0 Hs. apply PushQuery_ok, Hs.
  - eapply (Hhandler _ t e t' IH); [| |exact Hrun].
    + intros Hb. apply (guarded_handlers_noop t Hb).
    + intros t0 Hs. apply Chits_ok, Hs.
  - eapply (Hhandler _ t e t' IH); [| |exact Hrun].
    + intros Hb. apply (guarded_handlers_noop t Hb).
    + intros t0 Hs. apply QueryFailed_ok, Hs.
  - eapply (Hhandler _ t e t' IH); [| |exact Hrun].
    + intros Hb. apply (guarded_handlers_noop t Hb).
    + intros t0 Hs. apply Notify_ok, Hs.
Qed.

(** C1.  In every reachable engine state, every call [Consensus.Add(blk)]
    the engine has made was made at a time when the parent of [blk] was
    issued to Consensus or decided (Accepted or Rejected), provided the
    collaborators keep their contract. *)
Theorem Add_called_with_parent_issued D IntLen Max t :
  reachable D IntLen Max t ->
  forall w blk,
    In (Consensus_Add_called w blk) (calls t) ->
    issued_or_decided w (Block_Parent blk).
Proof.
  intros Hr w blk Hin. destruct (reachable_Inv D IntLen Max t Hr) as [[_ _ _ _ H5] _].
  rewrite Forall_forall in H5. apply (H5 _ (proj2 (list_elem_of_In _ _) Hin) w blk).
  reflexivity.
Qed.

End OrderingProofs.

(** *** The concrete collaborators keep the contract *)

Lemma Toy_issued_or_decided (w : Toy.World) (id : Z) :
  issued_or_decided w id <->
  id ∈ Toy.tree w
  \/ choices.Decided (default choices.Processing (Toy.status w !! id)) = true.
Proof.
  unfold issued_or_decided. cbn. unfold Toy.Status. split.
  - intros (p & <- & [H|H]); [|right; exact H].
    apply orb_true_iff in H as [H|H]; [right; exact H|left].
    apply bool_decide_eq_true in H. exact H.
  - intros H.
    exists {| vmID := id; vmParent := 0; vmBytes := []; vmOracle := false |}.
    split; [reflexivity|]. cbn. destruct H as [H|H]; [left|right; exact H].
    apply orb_true_iff. right. apply bool_decide_eq_true. exact H.
Qed.

#[global] Instance Toy_contract : @Contract Toy.World Toy.collaborators.
Proof.
  constructor.
  - intros w b id H. exact H.
  - intros w blk id. rewrite !Toy_issued_or_decided. cbn. unfold Toy.Add.
    destruct (bool_decide (Block_Parent blk ∈ Toy.tree w)); cbn.
    + intros [H|H]; [left|right; exact H]. apply elem_of_union. left. exact H.
    + intros [H|H]; [left; exact H|right].
      destruct (decide (Block_ID blk = id)) as [->|Hne].
      * rewrite lookup_insert_eq. reflexivity.
      * rewrite lookup_insert_ne by exact Hne. exact H.
  - intros w b w' rejected. cbn. unfold Toy.Add.
    destruct (bool_decide (Block_Parent (VMBlk b) ∈ Toy.tree w)); intros [= <- <-];
      apply Toy_issued_or_decided; cbn.
    + left. apply elem_of_union. right. apply elem_of_singleton. reflexivity.
    + right. rewrite lookup_insert_eq. reflexivity.
  - intros w id id'. rewrite !Toy_issued_or_decided. cbn. tauto.
  - intros w id. rewrite !Toy_issued_or_decided. cbn. tauto.
  - intros w votes id H. exact H.
  - intros w votes w' decided e. cbn. unfold Toy.RecordPoll. intros [= <- <- <-].
    constructor.
  - intros w k id H. exact H.
  - intros w b options. cbn. unfold Toy.Options. intros [= <-].
    apply Forall_forall. intros o Ho. apply list_elem_of_filter in Ho. apply Ho.
  - intros w id b. cbn. unfold Toy.GetBlock.
    destruct (List.find _ _) as [b'|] eqn:Hf; [|discriminate].
    intros [= <-]. apply find_some in Hf as [_ Hf]. apply Z.eqb_eq. exact Hf.
  - intros w. apply Toy_issued_or_decided. cbn. left.
    apply elem_of_singleton. reflexivity.
Qed.

(** * Further properties of the engine *)

Section Lookup.

Context {World : Type} `{Collab : Collaborators World}.

Implicit Types (t : @Transitive World) (blk : Block) (vdr requestID blkID : Z).

Notation "x <- m ;; k" := (bind m (fun x => k))
  (at level 100, m at next level, right associativity).
Notation "m ;;; k" := (bind m (fun _ => k))
  (at level 100, right associativity).

(** ** Looking a block up *)


Lemma LRU_lookup_Evict_ne {V : Type} k k' (c : list (Z * V)) :
  k' ≠ k -> LRU.lookup k' (LRU.Evict k c) = LRU.lookup k' c.
Proof.
  intros Hkk. unfold LRU.lookup, LRU.Evict.
  induction c as [|[k0 v] c IH]; [reflexivity|].
  rewrite filter_cons. cbn [fst]. destruct (decide (k0 ≠ k)) as [Hne|Heq].
  - cbn [List.find fst]. destruct (bool_decide (k0 = k')); [reflexivity|exact IH].
  - cbn [List.find fst]. rewrite bool_decide_eq_false_2; [exact IH|].
    intros ->. apply Heq. exact Hkk.
Qed.

(** An access reorders the cache and changes no answer. *)
Lemma LRU_Get_lookup {V : Type} k k' (c : list (Z * V)) :
  LRU.lookup k' (LRU.Get k c).2 = LRU.lookup k' c.
Proof.
  unfold LRU.Get. destruct (LRU.lookup k c) as [v|] eqn:Hk; [|reflexivity].
  cbn [snd]. destruct (decide (k' = k)) as [->|Hne].
  - unfold LRU.lookup at 1. cbn [List.find fst].
    rewrite bool_decide_eq_true_2 by reflexivity. cbn. congruence.
  - unfold LRU.lookup at 1. cbn [List.find fst].
    rewrite bool_decide_eq_false_2 by congruence.
    apply (LRU_lookup_Evict_ne k k' c Hne).
Qed.

Lemma LRU_Get_result {V : Type} k (c : list (Z * V)) :
  (LRU.Get k c).1 = LRU.lookup k c.
Proof. unfold LRU.Get. destruct (LRU.lookup k c); reflexivity. Qed.

Lemma LRU_Get_miss {V : Type} k (c : list (Z * V)) :
  LRU.lookup k c = None -> LRU.Get k c = (None, c).
Proof. intros H. unfold LRU.Get. rewrite H. reflexivity. Qed.

Lemma set_droppedCache_same t : set_droppedCache (droppedCache t) t = t.
Proof. destruct t; reflexivity. Qed.

(** What [GetBlock] answers, by the three places it looks in. *)
Lemma GetBlock_result id t :
  (GetBlock id t).1
  = match processing t !! id with
    | Some block => inl block
    | None =>
        match LRU.lookup id (droppedCache t) with
        | Some block => inl block
        | None =>
            match VM_GetBlock (world t) id with
            | inl b => inl (VMBlk b)
            | inr e => inr e
            end
        end
    end.
Proof.
  unfold GetBlock. destruct (processing t !! id); [reflexivity|].
  unfold LRU.Get. destruct (LRU.lookup id (droppedCache t)); [reflexivity|].
  destruct (VM_GetBlock (world t) id); reflexivity.
Qed.

(** What [GetBlock] leaves behind: the same engine, the dropped cache
    possibly reordered. *)
Lemma GetBlock_state id t :
  exists c, (GetBlock id t).2 = set_droppedCache c t
            /\ forall k, LRU.lookup k c = LRU.lookup k (droppedCache t).
Proof.
  unfold GetBlock. destruct (processing t !! id).
  { exists (droppedCache t). split; [symmetry; apply set_droppedCache_same|reflexivity]. }
  pose proof (fun k => LRU_Get_lookup id k (droppedCache t)) as Hl.
  destruct (LRU.Get id (droppedCache t)) as [[b|] c]; cbn [snd] in Hl.
  { exists c. split; [reflexivity|exact Hl]. }
  destruct (VM_GetBlock (world t) id); exists c; (split; [reflexivity|exact Hl]).
Qed.

(** A failed lookup changes nothing at all. *)
Lemma GetBlock_miss id t e :
  (GetBlock id t).1 = inr e -> GetBlock id t = (inr e, t).
Proof.
  unfold GetBlock. destruct (processing t !! id); [discriminate|].
  unfold LRU.Get. destruct (LRU.lookup id (droppedCache t)); [discriminate|].
  destruct (VM_GetBlock (world t) id); [discriminate|].
  cbn [fst]. intros [= ->]. rewrite set_droppedCache_same. reflexivity.
Qed.

(** X9.  [GetBlock(id)] fails exactly when the block is neither pinned in
    [processing], nor in the dropped cache, nor known to the VM; the error
    is then the VM's. *)
Theorem GetBlock_fails_iff id t e :
  (GetBlock id t).1 = inr e
  <-> processing t !! id = None
      /\ LRU.lookup id (droppedCache t) = None
      /\ VM_GetBlock (world t) id = inr e.
Proof.
  rewrite GetBlock_result. split.
  - destruct (processing t !! id); [discriminate|].
    destruct (LRU.lookup id (droppedCache t)); [discriminate|].
    destruct (VM_GetBlock (world t) id); [discriminate|].
    intros [= ->]. auto.
  - intros (-> & -> & ->). reflexivity.
Qed.

Lemma GetBlock_stable_result id id' t :
  (GetBlock id' (GetBlock id t).2).1 = (GetBlock id' t).1.
Proof.
  destruct (GetBlock_state id t) as (c & -> & Hl).
  rewrite !GetBlock_result. cbn [processing world droppedCache set_droppedCache].
  rewrite Hl. reflexivity.
Qed.

(** X10.  Looking a block up never changes what a later lookup, of the same
    or of another block, answers; in particular a pinned copy keeps its
    precedence over the dropped cache and the VM. *)
Theorem GetBlock_stable id id' t :
  (GetBlock id' (GetBlock id t).2).1 = (GetBlock id' t).1
  /\ processing (GetBlock id t).2 = processing t
  /\ world (GetBlock id t).2 = world t.
Proof.
  split; [apply GetBlock_stable_result|].
  destruct (GetBlock_state id t) as (c & -> & _). split; reflexivity.
Qed.

(** ** Serving blocks to peers *)

(** X11.  [Get] never reports an error and does not look at the
    bootstrapping state: when the block can be loaded the only effect is one
    [Put] to the requester that echoes the request ID and the requested ID
    and carries the block's bytes. *)
Theorem Get_reply vdr requestID blkID t blk :
  (GetBlock blkID t).1 = inl blk ->
  (Get vdr requestID blkID t).1 = None
  /\ (Get vdr requestID blkID t).2
     = emit (Sender_Put vdr requestID blkID (Block_Bytes blk)) (GetBlock blkID t).2
  /\ calls (Get vdr requestID blkID t).2
     = calls t ++ [Sender_Put vdr requestID blkID (Block_Bytes blk)].
Proof.
  intros Hg. unfold Get. pose proof (GetBlock_calls blkID t) as Hc.
  destruct (GetBlock blkID t) as [[b|e] t1]; cbn [fst snd] in *; [|discriminate].
  injection Hg as ->. repeat split. cbn. rewrite Hc. reflexivity.
Qed.

(** X12.  [Gossip] never reports an error: it sends one [Gossip] message
    with the VM's last accepted ID and that block's bytes, or, when the
    block cannot be loaded, does nothing at all. *)
Theorem Gossip_last_accepted t :
  (Gossip t).1 = None
  /\ match (GetBlock (VM_LastAccepted (world t)) t).1 with
     | inl blk =>
         calls (Gossip t).2
         = calls t ++ [Sender_Gossip (VM_LastAccepted (world t)) (Block_Bytes blk)]
     | inr _ => (Gossip t).2 = t
     end.
Proof.
  unfold Gossip.
  pose proof (GetBlock_calls (VM_LastAccepted (world t)) t) as Hc.
  pose proof (GetBlock_miss (VM_LastAccepted (world t)) t) as Hm.
  destruct (GetBlock (VM_LastAccepted (world t)) t) as [[b|e] t1];
    cbn [fst snd] in *.
  - split; [reflexivity|]. cbn. rewrite Hc. reflexivity.
  - split; [reflexivity|]. specialize (Hm e eq_refl). congruence.
Qed.

(** X13.  A request for a block that the node cannot load is dropped: [Get]
    and [GetAncestors] return [nil], send nothing and leave the engine
    exactly as it was. *)
Theorem unknown_block_request_dropped D IntLen Max vdr requestID blkID t e :
  (GetBlock blkID t).1 = inr e ->
  Get vdr requestID blkID t = (None, t)
  /\ GetAncestors D IntLen Max vdr requestID blkID t = (None, t).
Proof.
  intros Hg. apply GetBlock_miss in Hg. unfold Get, GetAncestors.
  rewrite Hg. split; reflexivity.
Qed.

(** The loop of [GetAncestors] reads [Parent()] of the requested block at
    every iteration, so what it appends is the bytes of that one parent,
    as many times as it iterates. *)
Lemma GetAncestors_loop_repeats D IntLen Max n :
  forall numFetched blk acc accLen t,
    match (GetBlock (Block_Parent blk) t).1 with
    | inl parent =>
        exists k, (k <= n)%nat
                  /\ (GetAncestors_loop D IntLen Max n numFetched blk acc accLen t).1
                     = acc ++ repeat (Block_Bytes parent) k
    | inr _ =>
        (GetAncestors_loop D IntLen Max n numFetched blk acc accLen t).1 = acc
    end.
Proof.
  induction n as [|n IH]; intros numFetched blk acc accLen t.
  - cbn [GetAncestors_loop fst].
    destruct (GetBlock (Block_Parent blk) t).1; [|reflexivity].
    exists O. split; [lia|]. cbn. rewrite app_nil_r. reflexivity.
  - cbn [GetAncestors_loop].
    destruct ((numFetched <? Max) && Clock_WithinFetchBudget (world t) numFetched).
    2:{ cbn [fst]. destruct (GetBlock (Block_Parent blk) t).1; [|reflexivity].
        exists O. split; [lia|]. cbn. rewrite app_nil_r. reflexivity. }
    pose proof (GetBlock_stable_result (Block_Parent blk) (Block_Parent blk) t) as Hst.
    destruct (GetBlock (Block_Parent blk) t) as [[parent|e] t1]; cbn [fst snd] in *;
      [|reflexivity].
    destruct (IntLen + accLen + len (Block_Bytes parent) <? maxContainersLen D).
    2:{ exists O. split; [lia|]. cbn. rewrite app_nil_r. reflexivity. }
    specialize (IH (numFetched + 1) blk (acc ++ [Block_Bytes parent])
                  (IntLen + accLen + len (Block_Bytes parent)) t1).
    rewrite Hst in IH. destruct IH as (k & Hk & Heq).
    exists (S k). split; [lia|]. rewrite Heq, <- app_assoc. reflexivity.
Qed.

(** X5.  The ancestors that [GetAncestors] sends: after the requested block,
    the [MultiPut] holds only copies of that block's parent (fewer than
    [MaxContainersPerMultiPut] of them), never a grandparent; and it holds
    the requested block alone when the parent cannot be loaded. *)
Theorem GetAncestors_repeats_parent D IntLen Max vdr requestID blkID t blk :
  (GetBlock blkID t).1 = inl blk ->
  match (GetBlock (Block_Parent blk) t).1 with
  | inl parent =>
      exists k,
        Z.of_nat k < Z.max 1 Max
        /\ calls (GetAncestors D IntLen Max vdr requestID blkID t).2
           = calls t ++ [Sender_MultiPut vdr requestID
                           (Block_Bytes blk :: repeat (Block_Bytes parent) k)]
  | inr _ =>
      calls (GetAncestors D IntLen Max vdr requestID blkID t).2
      = calls t ++ [Sender_MultiPut vdr requestID [Block_Bytes blk]]
  end.
Proof.
  intros Hg. unfold GetAncestors.
  pose proof (GetBlock_calls blkID t) as Hc.
  pose proof (GetBlock_stable_result blkID (Block_Parent blk) t) as Hst.
  destruct (GetBlock blkID t) as [[b|e] t1]; cbn [fst snd] in *; [|discriminate].
  injection Hg as ->.
  pose proof (GetAncestors_loop_repeats D IntLen Max (Z.to_nat (Max - 1)) 1 blk
                [Block_Bytes blk] (len (Block_Bytes blk) + IntLen) t1) as Hl.
  pose proof (GetAncestors_loop_appends D IntLen Max (Z.to_nat (Max - 1)) 1 blk
                [Block_Bytes blk] (len (Block_Bytes blk) + IntLen) t1)
    as (more & _ & _ & _ & Hcalls).
  rewrite Hst in Hl.
  destruct (GetAncestors_loop D IntLen Max (Z.to_nat (Max - 1)) 1 blk
              [Block_Bytes blk] (len (Block_Bytes blk) + IntLen) t1)
    as [cs t2]; cbn [fst snd] in *.
  destruct (GetBlock (Block_Parent blk) t).1 as [parent|e].
  - destruct Hl as (k & Hk & ->). exists k. split; [lia|].
    cbn. rewrite Hcalls, Hc. reflexivity.
  - subst cs. cbn. rewrite Hcalls, Hc. reflexivity.
Qed.

End Lookup.

Section Handlers.

Context {World : Type} `{Collab : Collaborators World}.

Implicit Types (t : @Transitive World) (blk : Block) (vdr requestID blkID : Z).

Notation "x <- m ;; k" := (bind m (fun x => k))
  (at level 100, m at next level, right associativity).
Notation "m ;;; k" := (bind m (fun _ => k))
  (at level 100, right associativity).

(** ** Messages that are dropped *)

(** X14.  A [Put] whose bytes the VM cannot parse is handled as
    [GetFailed(vdr, requestID)]: same result, same engine state, same calls,
    so the request it answers is given up. *)
Theorem Put_unparseable_is_GetFailed fuel vdr requestID blkID blkBytes t e :
  VM_ParseBlock (world t) blkBytes = inr e ->
  Put fuel vdr requestID blkID blkBytes t = GetFailed vdr requestID t.
Proof.
  intros Hp. unfold Put, IsBootstrapped. rewrite bind_get.
  destruct (Ctx_IsBootstrapped t) eqn:Hb; cbn [negb].
  - rewrite bind_get, Hp. reflexivity.
  - unfold GetFailed. rewrite bind_get, Hb. reflexivity.
Qed.

Lemma filter_all {A : Type} (P : A -> Prop) `{!forall x, Decision (P x)}
  (l : list A) :
  Forall P l -> filter P l = l.
Proof.
  induction 1 as [|x l Hx Hl IH]; [reflexivity|].
  rewrite filter_cons. destruct (decide (P x)); [|tauto]. rewrite IH. reflexivity.
Qed.

Lemma Requests_Contains_false blkID (r : Requests.t) :
  Requests.Contains blkID r = false <-> Forall (fun e => e.2 ≠ blkID) r.
Proof.
  unfold Requests.Contains. induction r as [|x r IH]; [split; auto|].
  cbn [existsb]. rewrite orb_false_iff, Forall_cons, IH.
  rewrite bool_decide_eq_false. reflexivity.
Qed.

Lemma Requests_lookup_None vdr requestID (r : Requests.t) :
  Requests.lookup vdr requestID r = None
  <-> Forall (fun e => e.1 ≠ (vdr, requestID)) r.
Proof.
  unfold Requests.lookup. induction r as [|x r IH]; [split; auto|].
  cbn [List.find]. rewrite Forall_cons.
  destruct (decide (x.1 = (vdr, requestID))) as [He|Hne].
  - rewrite (bool_decide_eq_true_2 _ He). cbn. split; [discriminate|tauto].
  - rewrite (bool_decide_eq_false_2 _ Hne). rewrite IH. tauto.
Qed.

Lemma Requests_Remove_absent vdr requestID (r : Requests.t) :
  Requests.lookup vdr requestID r = None ->
  Requests.Remove vdr requestID r = (None, r).
Proof.
  intros Hl. unfold Requests.Remove. rewrite Hl. f_equal.
  apply filter_all, Requests_lookup_None, Hl.
Qed.

Lemma set_blkReqs_same t : set_blkReqs (blkReqs t) t = t.
Proof. destruct t; reflexivity. Qed.

(** X15.  [GetFailed] for a (validator, request ID) pair with no outstanding
    request returns [nil] and changes nothing: no block is abandoned. *)
Theorem GetFailed_unsolicited_noop vdr requestID t :
  Requests.lookup vdr requestID (blkReqs t) = None ->
  GetFailed vdr requestID t = Some (None, t).
Proof.
  intros Hl. unfold GetFailed. rewrite bind_get.
  destruct (Ctx_IsBootstrapped t); cbn [negb]; [|reflexivity].
  rewrite bind_lift'. rewrite (Requests_Remove_absent _ _ _ Hl). cbn [fst snd].
  rewrite set_blkReqs_same. reflexivity.
Qed.

(** X16.  A [PushQuery] is dropped unless its bytes parse to a block whose
    ID is the ID the query declares: it returns [nil], and nothing is
    pinned, requested, issued or answered. *)
Theorem PushQuery_dropped fuel vdr requestID blkID blkBytes t :
  (forall b, VM_ParseBlock (world t) blkBytes = inl b -> vmID b ≠ blkID) ->
  PushQuery fuel vdr requestID blkID blkBytes t = Some (None, t).
Proof.
  intros Hp. unfold PushQuery. rewrite bind_get.
  destruct (Ctx_IsBootstrapped t); cbn [negb]; [|reflexivity].
  rewrite bind_get. destruct (VM_ParseBlock (world t) blkBytes) as [b|e];
    [|reflexivity].
  specialize (Hp b eq_refl). cbn [Block_ID].
  destruct (vmID b =? blkID) eqn:He; [|reflexivity].
  apply Z.eqb_eq in He. contradiction.
Qed.

Lemma bind_assoc {A B C : Type} (m : M A) (k : A -> M B) (k' : B -> M C) t :
  bind (bind m k) k' t = bind m (fun a => bind (k a) k') t.
Proof. unfold bind. destruct (m t) as [[a t1]|]; reflexivity. Qed.

Lemma bind_ext {A B : Type} (m : M A) (k k' : A -> M B) t :
  (forall a t1, k a t1 = k' a t1) -> bind m k t = bind m k' t.
Proof. intros H. unfold bind. destruct (m t) as [[a t1]|]; [apply H|reflexivity]. Qed.

(** X17.  A well-formed [PushQuery] is the [Put] of its block followed, when
    that returned no error, by the [PullQuery] of the same ID. *)
Theorem PushQuery_is_Put_then_PullQuery fuel vdr requestID blkID blkBytes t b :
  VM_ParseBlock (world t) blkBytes = inl b ->
  vmID b = blkID ->
  PushQuery fuel vdr requestID blkID blkBytes t
  = (err <- Put fuel vdr requestID blkID blkBytes ;;
     match err with
     | Some e => ret (Some e)
     | None => PullQuery fuel vdr requestID blkID
     end) t.
Proof.
  intros Hp Hid. unfold PushQuery, Put, IsBootstrapped.
  rewrite bind_assoc, !bind_get.
  destruct (Ctx_IsBootstrapped t) eqn:Hb; cbn [negb].
  2:{ rewrite bind_ret. unfold PullQuery. rewrite bind_get, Hb. reflexivity. }
  rewrite bind_assoc, !bind_get, Hp. cbn [Block_ID]. rewrite Hid, Z.eqb_refl.
  cbn [negb]. rewrite bind_assoc, !bind_get.
  destruct (choices.eqb (Block_Status (world t) (VMBlk b)) choices.Processing).
  - rewrite bind_assoc, !bind_lift, bind_assoc.
    apply bind_ext. intros [added err] t1. rewrite bind_ret. cbn [snd].
    destruct err; reflexivity.
  - rewrite bind_assoc, !bind_ret, bind_assoc.
    apply bind_ext. intros [added err] t1. rewrite bind_ret. cbn [snd].
    destruct err; reflexivity.
Qed.

Lemma set_world_same t : set_world (world t) t = t.
Proof. destruct t; reflexivity. Qed.

(** X18.  [Notify] issues nothing unless the message is [PendingTxs] and the
    VM builds a block that is Processing, not pending and not issued: any
    other message changes nothing, and otherwise the only change is the one
    [BuildBlock] made to the VM. [nil] is returned in all these cases. *)
Theorem Notify_nothing_to_issue fuel t :
  Ctx_IsBootstrapped t = true ->
  (forall b,
      (VM_BuildBlock (world t)).2 = inl b ->
      VMBlock_Status (VM_BuildBlock (world t)).1 b ≠ choices.Processing
      \/ vmID b ∈ pending t
      \/ Consensus_Issued (VM_BuildBlock (world t)).1 (VMBlk b) = true) ->
  Notify fuel PendingTxs t = Some (None, set_world (VM_BuildBlock (world t)).1 t)
  /\ forall code, Notify fuel (OtherMessage code) t = Some (None, t).
Proof.
  intros Hb Hno. split.
  2:{ intros code. unfold Notify. rewrite bind_get, Hb. reflexivity. }
  unfold Notify. rewrite bind_get, Hb. cbn [negb].
  rewrite bind_lift'.
  destruct (VM_BuildBlock (world t)) as [w [b|e]]; cbn [fst snd] in *;
    [|reflexivity].
  specialize (Hno b eq_refl). rewrite !bind_get.
  cbn [world set_world pending Block_Status Block_ID].
  destruct (VMBlock_Status w b) eqn:Hs; cbn [choices.eqb negb]; try reflexivity.
  destruct Hno as [Hno|[Hno|Hno]]; [congruence| |].
  - rewrite (bool_decide_eq_true_2 _ Hno). reflexivity.
  - rewrite Hno, orb_true_r. reflexivity.
Qed.

(** ** Requests for missing blocks *)

Lemma Requests_Contains_Add vdr requestID blkID (r : Requests.t) :
  Requests.Contains blkID (Requests.Add vdr requestID blkID r) = true.
Proof.
  unfold Requests.Add, Requests.Contains. cbn [existsb snd].
  rewrite bool_decide_eq_true_2 by reflexivity. reflexivity.
Qed.

(** X19.  There is at most one outstanding request per block: once a block
    has been requested, asking for it again, from the same or from another
    validator, sends nothing and changes nothing. *)
Theorem sendRequest_once vdr vdr' blkID t :
  Requests.Contains blkID (blkReqs (sendRequest vdr blkID t)) = true
  /\ sendRequest vdr' blkID (sendRequest vdr blkID t) = sendRequest vdr blkID t.
Proof.
  assert (H : Requests.Contains blkID (blkReqs (sendRequest vdr blkID t)) = true).
  { unfold sendRequest. destruct (Requests.Contains blkID (blkReqs t)) eqn:Hc;
      [exact Hc|]. cbn. apply Requests_Contains_Add. }
  split; [exact H|]. unfold sendRequest at 1. rewrite H. reflexivity.
Qed.

Lemma Abandon_frame_blkReqs t t' : Abandon_frame t t' -> blkReqs t' = blkReqs t.
Proof.
  intros [_ _ _ Hu _]. unfold untouched_by_Abandon in Hu. congruence.
Qed.

(** X20.  A request and its failure: requesting a block that is not
    requested yet takes the next request ID (a [uint32], with wrap-around)
    and sends one [Get] carrying it; when [GetFailed] then arrives for that
    validator and that ID, the request is forgotten and [Abandon] is called
    on the block, the first of the calls the handler makes. *)
Theorem sendRequest_then_GetFailed vdr blkID t :
  Ctx_IsBootstrapped t = true ->
  Requests.Contains blkID (blkReqs t) = false ->
  RequestID (sendRequest vdr blkID t) = uint32_incr (RequestID t)
  /\ calls (sendRequest vdr blkID t)
     = calls t ++ [Sender_Get vdr (uint32_incr (RequestID t)) blkID]
  /\ Requests.lookup vdr (uint32_incr (RequestID t))
       (blkReqs (sendRequest vdr blkID t)) = Some blkID
  /\ exists t2,
      GetFailed vdr (uint32_incr (RequestID t)) (sendRequest vdr blkID t)
      = Some (errs t2, t2)
      /\ Requests.Contains blkID (blkReqs t2) = false
      /\ Requests.lookup vdr (uint32_incr (RequestID t)) (blkReqs t2) = None
      /\ exists ids,
          calls t2 = calls (sendRequest vdr blkID t)
                     ++ (Blocker_Abandon <$> (blkID :: ids)).
Proof.
  intros Hb Hc. unfold sendRequest. rewrite Hc.
  cbn [RequestID set_RequestID set_blkReqs emit set_calls calls blkReqs].
  set (rid := uint32_incr (RequestID t)).
  assert (Hl : Requests.lookup vdr rid (Requests.Add vdr rid blkID (blkReqs t))
               = Some blkID).
  { unfold Requests.lookup, Requests.Add. cbn [List.find fst].
    rewrite bool_decide_eq_true_2 by reflexivity. reflexivity. }
  repeat split; [exact Hl|].
  unfold GetFailed. rewrite bind_get.
  cbn [Ctx_IsBootstrapped emit set_calls set_blkReqs set_RequestID].
  rewrite Hb. cbn [negb]. rewrite bind_lift'.
  unfold Requests.Remove. cbn [blkReqs emit set_calls set_blkReqs set_RequestID].
  rewrite Hl. cbn [fst snd].
  match goal with |- context [bind (Abandon ?id) _ ?t1] =>
    destruct (Abandon_frame_ok id t1) as (t2 & Hrun & Hfr & Hcalls & _);
    rewrite (bind_Some _ _ _ _ _ Hrun)
  end.
  exists t2. split; [reflexivity|].
  pose proof (Abandon_frame_blkReqs _ _ Hfr) as Hbr. cbn in Hbr.
  fold rid in Hbr.
  assert (Hrm : forall x : (Z * Z) * Z,
             x ∈ filter (fun e : (Z * Z) * Z => e.1 ≠ (vdr, rid))
                   (Requests.Add vdr rid blkID (blkReqs t)) ->
             x ∈ blkReqs t /\ x.1 ≠ (vdr, rid)).
  { intros x Hx. apply list_elem_of_filter in Hx as [Hne Hx].
    unfold Requests.Add in Hx. apply elem_of_cons in Hx as [->|Hx]; [done|].
    apply list_elem_of_filter in Hx as [_ Hx].
    apply list_elem_of_filter in Hx as [_ Hx]. auto. }
  apply Requests_Contains_false in Hc. rewrite Forall_forall in Hc.
  split; [|split].
  - rewrite Hbr. apply Requests_Contains_false, Forall_forall.
    intros x Hx. apply Hrm in Hx as [Hx _]. apply Hc, Hx.
  - rewrite Hbr. apply Requests_lookup_None, Forall_forall.
    intros x Hx. apply Hrm in Hx as [_ Hx]. exact Hx.
  - exact Hcalls.
Qed.

End Handlers.

Section Issuance.

Context {World : Type} `{Collab : Collaborators World}.

Implicit Types (t : @Transitive World) (blk : Block) (vdr requestID blkID : Z).

Notation "x <- m ;; k" := (bind m (fun x => k))
  (at level 100, m at next level, right associativity).
Notation "m ;;; k" := (bind m (fun _ => k))
  (at level 100, right associativity).

(** ** Sampling validators *)

Lemma poll_Add_registered requestID vdrs (s s' : gmap Z poll.Poll) :
  poll.Add requestID vdrs s = (true, s') ->
  s !! requestID = None
  /\ s' !! requestID = Some {| poll.validatorBag := vdrs; poll.chits := [] |}.
Proof.
  unfold poll.Add. destruct (s !! requestID) eqn:Hl; [discriminate|].
  intros [= <-]. split; [reflexivity|]. apply lookup_insert_eq.
Qed.

(** X21.  Every query that is sent is backed by a poll: [pullSample] and
    [pushSample] always take the next request ID, and they send at most one
    query, which carries that ID and for which a poll, not there before, has
    just been registered under that ID. *)
Theorem sample_query_backed_by_poll blkID blk t :
  (RequestID (pullSample blkID t) = uint32_incr (RequestID t)
   /\ (calls (pullSample blkID t) = calls t
       \/ exists vdrs,
           calls (pullSample blkID t)
           = calls t ++ [Sender_PullQuery (list_to_set vdrs)
                           (uint32_incr (RequestID t)) blkID]
           /\ polls t !! uint32_incr (RequestID t) = None
           /\ polls (pullSample blkID t) !! uint32_incr (RequestID t)
              = Some {| poll.validatorBag := vdrs; poll.chits := [] |}))
  /\ (RequestID (pushSample blk t) = uint32_incr (RequestID t)
      /\ (calls (pushSample blk t) = calls t
          \/ exists vdrs,
              calls (pushSample blk t)
              = calls t ++ [Sender_PushQuery (list_to_set vdrs)
                              (uint32_incr (RequestID t))
                              (Block_ID blk) (Block_Bytes blk)]
              /\ polls t !! uint32_incr (RequestID t) = None
              /\ polls (pushSample blk t) !! uint32_incr (RequestID t)
                 = Some {| poll.validatorBag := vdrs; poll.chits := [] |})).
Proof.
  split.
  - unfold pullSample.
    destruct (Validators_Sample (world t) (snowball.K (Params t))) as [w [l|e]];
      [|split; [reflexivity|left; reflexivity]].
    cbn [RequestID set_RequestID set_world polls].
    destruct (poll.Add (uint32_incr (RequestID t)) l (polls t)) as [ok s] eqn:Ha.
    destruct ok; [|split; [reflexivity|left; reflexivity]].
    apply poll_Add_registered in Ha as [Hn Hs].
    split; [reflexivity|right]. exists l. auto.
  - unfold pushSample.
    destruct (Validators_Sample (world t) (snowball.K (Params t))) as [w [l|e]];
      [|split; [reflexivity|left; reflexivity]].
    cbn [RequestID set_RequestID set_world polls].
    destruct (poll.Add (uint32_incr (RequestID t)) l (polls t)) as [ok s] eqn:Ha.
    destruct ok; [|split; [reflexivity|left; reflexivity]].
    apply poll_Add_registered in Ha as [Hn Hs].
    split; [reflexivity|right]. exists l. auto.
Qed.

Lemma pullSample_RequestID blkID t :
  RequestID (pullSample blkID t) = uint32_incr (RequestID t).
Proof.
  unfold pullSample.
  destruct (Validators_Sample (world t) (snowball.K (Params t))) as [w [l|e]];
    [|reflexivity].
  cbn [RequestID set_RequestID set_world polls].
  destruct (poll.Add _ _ _) as [[] s]; reflexivity.
Qed.

Lemma repoll_loop_RequestID n prefID : forall t,
  0 <= RequestID t < 2 ^ 32 ->
  RequestID (repoll_loop n prefID t) = (RequestID t + Z.of_nat n) mod 2 ^ 32.
Proof.
  induction n as [|n IH]; intros t Hr; cbn [repoll_loop].
  - rewrite Z.add_0_r, Z.mod_small by exact Hr. reflexivity.
  - rewrite IH; rewrite pullSample_RequestID; unfold uint32_incr.
    + rewrite Zplus_mod_idemp_l. f_equal. lia.
    + apply Z.mod_pos_bound. lia.
Qed.

(** ** [repoll] *)

(** X22.  [repoll] counts attempts, not polls: it calls [pullSample] once
    for each unit by which [polls.Len()] is short of [ConcurrentRepolls]
    when it starts, whether or not these calls register a poll, so it
    advances [RequestID] (a [uint32]) by exactly that number; with no
    shortfall it does nothing. *)
Theorem repoll_attempts t :
  0 <= RequestID t < 2 ^ 32 ->
  RequestID (repoll t)
  = (RequestID t
     + Z.max 0 (snowball.ConcurrentRepolls (Params t) - poll.Len (polls t)))
    mod 2 ^ 32
  /\ (snowball.ConcurrentRepolls (Params t) <= poll.Len (polls t) ->
      repoll t = t).
Proof.
  intros Hr. split.
  - unfold repoll. rewrite repoll_loop_RequestID by exact Hr. f_equal. lia.
  - intros Hle. unfold repoll.
    replace (Z.to_nat _) with O by lia. reflexivity.
Qed.

(** ** Issuing a block *)

Lemma set_decidedCache_same t : set_decidedCache (decidedCache t) t = t.
Proof. destruct t; reflexivity. Qed.

(** A lookup in the decided cache that misses changes nothing. *)
Lemma decidedCache_Get_miss id t :
  LRU.lookup id (decidedCache t) = None ->
  (let '(v, c) := LRU.Get id (decidedCache t) in
   (bool_decide (v ≠ None), set_decidedCache c t)) = (false, t).
Proof.
  intros Hl. rewrite (LRU_Get_miss _ _ Hl), set_decidedCache_same.
  rewrite bool_decide_eq_false_2 by (intros H; apply H; reflexivity).
  reflexivity.
Qed.

(** X23.  When the parent of [blk] is not in the decided cache and is either
    unknown or not issued, [issue(blk)] queues the block: its ID enters
    [pending], any outstanding request for it is removed, and an Issuer for
    [blk] that waits for the parent is registered with the Blocker; nothing
    is verified or added to Consensus, and the result is [errs.Err],
    unchanged. *)
Theorem issue_waits_for_parent blk t :
  LRU.lookup (Block_Parent blk) (decidedCache t) = None ->
  match (GetBlock (Block_Parent blk) t).1 with
  | inl parent => Consensus_Issued (world t) parent = false
  | inr _ => True
  end ->
  let i := {| deps := {[Block_Parent blk]}; action := issuer blk |} in
  exists t',
    issue blk t = Some (errs t, t')
    /\ pending t' = pending t ∪ {[Block_ID blk]}
    /\ blkReqs t' = Requests.RemoveAny (Block_ID blk) (blkReqs t)
    /\ blocked t' = blocked t ++ [i]
    /\ calls t' = calls t ++ [Blocker_Register i]
    /\ world t' = world t
    /\ processing t' = processing t
    /\ errs t' = errs t.
Proof.
  intros Hd Hp i. unfold issue. rewrite !bind_lift, bind_lift'.
  set (t1 := set_blkReqs _ _).
  rewrite (decidedCache_Get_miss (Block_Parent blk) t1 Hd). cbn [fst snd].
  cbn iota. rewrite bind_assoc, bind_lift'.
  assert (Hg : (GetBlock (Block_Parent blk) t1).1 = (GetBlock (Block_Parent blk) t).1).
  { rewrite !GetBlock_result. reflexivity. }
  destruct (GetBlock_state (Block_Parent blk) t1) as (c & Hst & _).
  rewrite Hg, Hst. clear Hg Hst.
  assert (Hni : match (GetBlock (Block_Parent blk) t).1 with
                | inl parent => get (fun t => Consensus_Issued (world t) parent)
                | inr _ => ret false
                end (set_droppedCache c t1) = Some (false, set_droppedCache c t1)).
  { destruct (GetBlock (Block_Parent blk) t).1 as [parent|e]; [|reflexivity].
    unfold get. subst t1. cbn [world set_droppedCache set_blkReqs set_pending].
    rewrite Hp. reflexivity. }
  rewrite (bind_Some _ _ _ _ _ Hni).
  unfold Register, Register_with. rewrite bind_assoc, bind_lift.
  destruct (decide (deps {| deps := {[Block_Parent blk]}; action := issuer blk |} = ∅))
    as [He|_].
  { exfalso. apply (singleton_nonempty (Block_Parent blk)). exact He. }
  rewrite bind_lift. unfold get. eexists. split; [reflexivity|].
  repeat split.
Qed.

(** X24.  A query or a vote about a block the node does not have: when
    [blkID] is neither in the decided cache nor loadable, [PullQuery] and
    [Chits] request the block from the sender (unless a request for it is
    already outstanding) and park a Convincer, respectively a Voter carrying
    the vote, that waits for [blkID]; no chits are sent and no vote is
    recorded yet. *)
Theorem query_for_unknown_block fuel vdr requestID blkID t e :
  Ctx_IsBootstrapped t = true ->
  LRU.lookup blkID (decidedCache t) = None ->
  (GetBlock blkID t).1 = inr e ->
  (let c := {| deps := {[blkID]}; action := convincer vdr requestID |} in
   PullQuery fuel vdr requestID blkID t
   = Some (errs t,
           set_blocked (blocked t ++ [c])
             (emit (Blocker_Register c) (sendRequest vdr blkID t))))
  /\ (let v := {| deps := {[blkID]};
                  action := voter vdr requestID (Some blkID) |} in
      Chits fuel vdr requestID {[blkID]} t
      = Some (errs t,
              set_blocked (blocked t ++ [v])
                (emit (Blocker_Register v) (sendRequest vdr blkID t)))).
Proof.
  intros Hb Hd Hg. apply GetBlock_miss in Hg.
  assert (Hi : issueFromByID fuel vdr blkID t
               = Some ((false, None), sendRequest vdr blkID t)).
  { unfold issueFromByID. rewrite bind_lift'.
    rewrite (decidedCache_Get_miss blkID t Hd). cbn [fst snd].
    rewrite bind_lift', Hg. cbn [fst snd]. rewrite bind_lift. reflexivity. }
  assert (Hs : blocked (sendRequest vdr blkID t) = blocked t
               /\ errs (sendRequest vdr blkID t) = errs t).
  { unfold sendRequest. destruct (Requests.Contains _ _); split; reflexivity. }
  destruct Hs as [Hbl He].
  assert (Hr : forall c : Blockable,
             deps c = {[blkID]} ->
             (Register c ;;; get errs) (sendRequest vdr blkID t)
             = Some (errs t,
                     set_blocked (blocked t ++ [c])
                       (emit (Blocker_Register c) (sendRequest vdr blkID t)))).
  { intros c Hc. unfold Register, Register_with. rewrite bind_assoc, bind_lift.
    destruct (decide (deps c = ∅)) as [He'|_].
    { exfalso. apply (singleton_nonempty blkID). rewrite <- Hc. exact He'. }
    rewrite bind_lift. unfold get. cbn [blocked errs emit set_calls set_blocked].
    rewrite Hbl, He. reflexivity. }
  split; cbn zeta.
  - unfold PullQuery. rewrite bind_get, Hb. cbn [negb].
    rewrite (bind_Some _ _ _ _ _ Hi). cbn iota. apply Hr. reflexivity.
  - unfold Chits. rewrite bind_get, Hb. cbn [negb].
    rewrite elements_singleton.
    rewrite (bind_Some _ _ _ _ _ Hi). cbn iota. apply Hr. reflexivity.
Qed.

End Issuance.

Section Releases.

Context {World : Type} `{Collab : Collaborators World}.

Implicit Types (t : @Transitive World) (blk : Block) (vdr requestID blkID : Z).

Notation "x <- m ;; k" := (bind m (fun x => k))
  (at level 100, m at next level, right associativity).
Notation "m ;;; k" := (bind m (fun _ => k))
  (at level 100, right associativity).

(** ** [deliver] only releases *)

Lemma releases_refl t : releases t t.
Proof. constructor; reflexivity. Qed.

Lemma releases_trans t1 t2 t3 : releases t1 t2 -> releases t2 t3 -> releases t1 t3.
Proof.
  intros [H1 H2 H3 H4 H5] [H1' H2' H3' H4' H5']. constructor.
  - etransitivity; eassumption.
  - etransitivity; eassumption.
  - congruence.
  - congruence.
  - congruence.
Qed.

(** An update of the other fields. *)
Lemma releases_same t0 t t' :
  pending t' = pending t -> processing t' = processing t ->
  blkReqs t' = blkReqs t -> Params t' = Params t ->
  Ctx_IsBootstrapped t' = Ctx_IsBootstrapped t ->
  releases t0 t -> releases t0 t'.
Proof.
  intros E1 E2 E3 E4 E5 H. apply (releases_trans _ _ _ H).
  constructor; [rewrite E1|rewrite E2|..]; auto.
Qed.

Lemma releases_unpend (X : gset Z) t0 t :
  releases t0 t -> releases t0 (set_pending (pending t ∖ X) t).
Proof.
  intros H. apply (releases_trans _ _ _ H). constructor; try reflexivity.
  cbn. apply subseteq_difference_l. reflexivity.
Qed.

Lemma releases_unpin k t0 t :
  releases t0 t -> releases t0 (set_processing (delete k (processing t)) t).
Proof.
  intros H. apply (releases_trans _ _ _ H). constructor; try reflexivity.
  cbn. apply delete_subseteq.
Qed.

Lemma releases_emit e t0 t : releases t0 t -> releases t0 (emit e t).
Proof. apply releases_same; reflexivity. Qed.

Lemma releases_set_world w t0 t : releases t0 t -> releases t0 (set_world w t).
Proof. apply releases_same; reflexivity. Qed.

Lemma releases_set_droppedCache c t0 t :
  releases t0 t -> releases t0 (set_droppedCache c t).
Proof. apply releases_same; reflexivity. Qed.

Lemma releases_set_decidedCache c t0 t :
  releases t0 t -> releases t0 (set_decidedCache c t).
Proof. apply releases_same; reflexivity. Qed.

Lemma releases_set_blocked l t0 t : releases t0 t -> releases t0 (set_blocked l t).
Proof. apply releases_same; reflexivity. Qed.

Lemma releases_set_polls s t0 t : releases t0 t -> releases t0 (set_polls s t).
Proof. apply releases_same; reflexivity. Qed.

Lemma releases_errs_Add e t0 t : releases t0 t -> releases t0 (errs_Add e t).
Proof. unfold errs_Add. destruct (errs t); [auto|]. apply releases_same; reflexivity. Qed.

Lemma releases_pullSample blkID t0 t : releases t0 t -> releases t0 (pullSample blkID t).
Proof.
  unfold pullSample.
  destruct (Validators_Sample (world t) (snowball.K (Params t))) as [w [l|e]];
    [|apply releases_same; reflexivity].
  destruct (poll.Add _ _ _) as [[] s]; apply releases_same; reflexivity.
Qed.

Lemma releases_pushSample blk t0 t : releases t0 t -> releases t0 (pushSample blk t).
Proof.
  unfold pushSample.
  destruct (Validators_Sample (world t) (snowball.K (Params t))) as [w [l|e]];
    [|apply releases_same; reflexivity].
  destruct (poll.Add _ _ _) as [[] s]; apply releases_same; reflexivity.
Qed.

Lemma releases_repoll t0 t : releases t0 t -> releases t0 (repoll t).
Proof.
  unfold repoll. generalize (Consensus_Preference (world t)) as prefID.
  generalize (Z.to_nat (snowball.ConcurrentRepolls (Params t) - poll.Len (polls t))) as n.
  intros n prefID. revert t. induction n as [|n IH]; intros t H; cbn [repoll_loop];
    [exact H|]. apply IH, releases_pullSample, H.
Qed.

Lemma releases_convincer_Update vdr requestID t0 t :
  releases t0 t -> releases t0 (convincer_Update vdr requestID t).
Proof.
  unfold convincer_Update. destruct (errs_Errored t); [auto|apply releases_emit].
Qed.

Lemma releases_voter_Update vdr requestID response t0 t :
  releases t0 t -> releases t0 (voter_Update vdr requestID response t).
Proof.
  intros H. unfold voter_Update. destruct (errs_Errored t); [exact H|].
  destruct (poll.Vote _ _ _ _ _) as [[votes|] s]; [|apply releases_set_polls, H].
  cbn [world set_polls].
  destruct (Consensus_RecordPoll (world t) votes) as [w [decided e]].
  match goal with |- releases t0 (if errs_Errored ?t1 then _ else _) =>
    assert (H1 : releases t0 t1)
      by (apply releases_errs_Add, releases_emit, releases_set_world,
            releases_set_polls, H);
    destruct (errs_Errored t1); [exact H1|]; revert H1; generalize t1
  end.
  intros t1 H1. apply releases_repoll. revert t1 H1.
  induction decided as [|id decided IH]; intros t1 H1; cbn [foldl]; [exact H1|].
  apply IH. apply releases_unpin, releases_set_droppedCache, releases_set_decidedCache, H1.
Qed.

Lemma releases_rejected_on_Add blkID evictID t0 t :
  releases t0 t -> releases t0 (rejected_on_Add blkID evictID t).
Proof.
  intros H. unfold rejected_on_Add.
  apply releases_unpin, releases_set_droppedCache, releases_set_decidedCache, H.
Qed.

Lemma releases_deliver_options blkID options : forall added dropped t0 t,
  releases t0 t -> releases t0 (deliver_options blkID options added dropped t).2.
Proof.
  induction options as [|o options IH]; intros added dropped t0 t H;
    cbn [deliver_options]; [exact H|].
  destruct (Block_Verify (world t) (VMBlk o)) as [w verr].
  assert (H1 : releases t0 (emit (Block_Verify_called (VMBlk o)) (set_world w t)))
    by (apply releases_emit, releases_set_world, H).
  destruct verr as [e|]; [apply IH, H1|].
  match goal with |- context [Consensus_Add ?w ?b] =>
    destruct (Consensus_Add w b) as [w2 [rejected [e|]]] end.
  - cbn [snd]. apply releases_set_world, releases_emit, H1.
  - apply IH. destruct rejected.
    + apply releases_rejected_on_Add, releases_set_world, releases_emit, H1.
    + apply releases_set_world, releases_emit, H1.
Qed.

Lemma releases_Abandon id t0 t :
  releases t0 t -> wp (Abandon id) (fun _ t' => releases t0 t') t.
Proof.
  intros H a t' Hrun.
  destruct (Abandon_frame_ok id t) as (t2 & Hrun2 & Hfr & _ & _).
  assert (t2 = t') by congruence. subst t2.
  apply (releases_trans _ _ _ H).
  pose proof (af_untouched _ _ Hfr) as Hu. unfold untouched_by_Abandon in Hu.
  constructor; [apply (af_pending _ _ Hfr)| |congruence..].
  replace (processing t') with (processing t) by congruence. reflexivity.
Qed.

Ltac wp_run :=
  repeat (cbn beta;
          lazymatch goal with
          | |- wp (bind _ _) _ _ => apply wp_bind
          | |- wp (get _) _ _ => apply wp_get
          | |- wp (lift _) _ _ => apply wp_lift
          | |- wp (lift' _) _ _ => apply wp_lift'
          | |- wp (ret _) _ _ => apply wp_ret
          | |- wp (fun _ => None) _ _ => apply wp_stuck
          end); cbn beta.

Section Nested.

(** The nested calls of [deliver] are assumed to release only; this is
    discharged by induction on the nesting depth. *)
Variable deliver_rec : Block -> @M World (option error).
Hypothesis deliver_rec_releases : forall blk t0 t,
  releases t0 t -> wp (deliver_rec blk) (fun _ t' => releases t0 t') t.

Lemma Update_releases c t0 t :
  releases t0 t -> wp (Update deliver_rec c) (fun _ t' => releases t0 t') t.
Proof.
  intros H. unfold Update. destruct (action c) as [blk|vdr rid|vdr rid resp].
  - wp_run. destruct (errs_Errored t); wp_run; [exact H|].
    eapply wp_conseq; [apply (deliver_rec_releases blk t0 t H)|].
    cbn beta. intros e t' H'. wp_run. apply releases_errs_Add, H'.
  - wp_run. apply releases_convincer_Update, H.
  - wp_run. apply releases_voter_Update, H.
Qed.

Lemma forM_Update_releases l t0 : forall t,
  releases t0 t -> wp (forM (Update deliver_rec) l) (fun _ t' => releases t0 t') t.
Proof.
  induction l as [|c l IH]; intros t H; cbn [forM].
  - wp_run. exact H.
  - wp_run. eapply wp_conseq; [apply (Update_releases c t0 t H)|].
    cbn beta. intros _ t1 H1. apply IH, H1.
Qed.

Lemma Fulfill_with_releases id t0 t :
  releases t0 t -> wp (Fulfill_with deliver_rec id) (fun _ t' => releases t0 t') t.
Proof.
  intros H. unfold Fulfill_with. wp_run. apply forM_Update_releases.
  apply releases_set_blocked, releases_set_blocked, releases_emit, H.
Qed.

Lemma forM_added_releases added t0 : forall t,
  releases t0 t ->
  wp (forM (fun blk =>
              lift (pushSample blk) ;;;
              let blkID := Block_ID blk in
              lift (fun t => set_pending (pending t ∖ {[blkID]}) t) ;;;
              Fulfill_with deliver_rec blkID) added)
     (fun _ t' => releases t0 t') t.
Proof.
  induction added as [|b added IH]; intros t H; cbn [forM].
  - wp_run. exact H.
  - wp_run. eapply wp_conseq.
    + apply Fulfill_with_releases, releases_unpend, releases_pushSample, H.
    + cbn beta. intros _ t1 H1. apply IH, H1.
Qed.

Lemma forM_dropped_releases dropped t0 : forall t,
  releases t0 t ->
  wp (forM (fun blk =>
              let blkID := Block_ID blk in
              lift (fun t => set_pending (pending t ∖ {[blkID]}) t) ;;;
              Abandon blkID) dropped)
     (fun _ t' => releases t0 t') t.
Proof.
  induction dropped as [|b dropped IH]; intros t H; cbn [forM].
  - wp_run. exact H.
  - wp_run. eapply wp_conseq; [apply releases_Abandon, releases_unpend, H|].
    cbn beta. intros _ t1 H1. apply IH, H1.
Qed.

(** Once [deliver] has taken the block out of [pending], the rest of it
    only releases. *)
Lemma deliver_body_releases blk t :
  wp (deliver_body deliver_rec blk)
     (fun _ t' =>
        releases t t'
        /\ (Consensus_Issued (world t) blk = false -> Block_ID blk ∉ pending t')) t.
Proof.
  unfold deliver_body. apply wp_bind, wp_get.
  destruct (Consensus_Issued (world t) blk).
  { wp_run. split; [apply releases_refl|discriminate]. }
  apply wp_bind, wp_lift.
  set (t1 := set_pending (pending t ∖ {[Block_ID blk]}) t).
  assert (H01 : releases t t1) by (apply releases_unpend, releases_refl).
  match goal with |- wp ?tail _ _ =>
    assert (Htail : forall t0, releases t0 t1 ->
                      wp tail (fun _ t' => releases t0 t') t1)
  end.
  2:{ intros a t' Hrun. split; [apply (Htail t H01 a t' Hrun)|].
      intros _ Hin.
      apply (rel_pending _ _ (Htail t1 (releases_refl t1) a t' Hrun)) in Hin.
      subst t1. cbn in Hin.
      apply elem_of_difference in Hin as [_ Hn]. apply Hn, elem_of_singleton.
      reflexivity. }
  clear H01. intros t0 H1.
  wp_run. cbn [world].
  destruct (Block_Verify (world t1) blk) as [w1 [e|]]; cbn [fst snd].
  { wp_run. eapply wp_conseq.
    - apply releases_Abandon, releases_set_droppedCache, releases_unpin,
        releases_emit, releases_set_world, H1.
    - cbn beta. intros _ t2 H2. wp_run. exact H2. }
  wp_run. cbn [world emit set_calls set_world].
  destruct (Consensus_Add w1 blk) as [w2 [rejected [e|]]]; cbn [fst snd].
  { wp_run. apply releases_set_world, releases_emit, releases_emit,
      releases_set_world, H1. }
  wp_run.
  eapply (wp_conseq _ (fun _ t3 => releases t0 t3)).
  { destruct rejected; wp_run.
    - apply releases_rejected_on_Add, releases_set_world, releases_emit,
        releases_emit, releases_set_world, H1.
    - apply releases_set_world, releases_emit, releases_emit,
        releases_set_world, H1. }
  cbn beta. intros _ t3 H3. wp_run.
  destruct (Block_Options (world t3) blk) as [[options|e]|].
  2:{ wp_run. exact H3. }
  all: wp_run.
  all: match goal with |- context [deliver_options ?i ?o ?a ?d ?t] =>
         pose proof (releases_deliver_options i o a d t0 t H3) as H4;
         destruct (deliver_options i o a d t) as [[e|[added dropped]] t4]
       end; cbn [fst snd] in *.
  all: try (wp_run; exact H4).
  all: wp_run.
  all: eapply wp_conseq;
    [apply Fulfill_with_releases, releases_pushSample, releases_emit,
       releases_set_world, H4|].
  all: cbn beta; intros _ t5 H5; wp_run.
  all: eapply wp_conseq; [apply (forM_added_releases added t0 t5 H5)|].
  all: cbn beta; intros _ t6 H6; wp_run.
  all: eapply wp_conseq; [apply (forM_dropped_releases dropped t0 t6 H6)|].
  all: cbn beta; intros _ t7 H7; wp_run.
  all: apply releases_repoll, H7.
Qed.

End Nested.

Lemma deliver_fuel_releases n : forall blk t,
  wp (deliver_fuel n blk)
     (fun _ t' =>
        releases t t'
        /\ (Consensus_Issued (world t) blk = false -> Block_ID blk ∉ pending t')) t.
Proof.
  induction n as [|n IH]; intros blk t; cbn [deliver_fuel]; [apply wp_stuck|].
  apply deliver_body_releases. intros blk' t0 t' H a t2 Hrun.
  apply (releases_trans _ _ _ H). apply (IH blk' t' a t2 Hrun).
Qed.

(** X2.  [deliver] always returns, and it only releases: when it returns, no
    continuation has been added to the Blocker, no ID has been added to
    [pending], no block has been pinned in [processing], and the outstanding
    requests, the parameters and the bootstrapping flag are the ones it
    started with; a block that was not issued yet has left [pending]. *)
Theorem deliver_only_releases blk t :
  exists r t',
    deliver blk t = Some (r, t')
    /\ (length (blocked t') <= length (blocked t))%nat
    /\ pending t' ⊆ pending t
    /\ processing t' ⊆ processing t
    /\ blkReqs t' = blkReqs t
    /\ Params t' = Params t
    /\ Ctx_IsBootstrapped t' = Ctx_IsBootstrapped t
    /\ (Consensus_Issued (world t) blk = false -> Block_ID blk ∉ pending t').
Proof.
  destruct (deliver_total blk t) as (r & t' & Hrun & Hlen).
  exists r, t'. split; [exact Hrun|]. split; [exact Hlen|].
  unfold deliver in Hrun.
  destruct (deliver_fuel_releases _ blk t r t' Hrun) as [[H1 H2 H3 H4 H5] H6].
  auto 10.
Qed.

End Releases.

Section Branch.

Context {World : Type} `{Collab : Collaborators World}.

Implicit Types (t : @Transitive World) (blk : Block) (vdr requestID blkID : Z).

Notation "x <- m ;; k" := (bind m (fun x => k))
  (at level 100, m at next level, right associativity).
Notation "m ;;; k" := (bind m (fun _ => k))
  (at level 100, right associativity).

(** ** Walking up a branch *)

(** [issue] on a block whose parent cannot be loaded, exactly. *)
Lemma issue_parent_unknown blk t e :
  LRU.lookup (Block_Parent blk) (decidedCache t) = None ->
  (GetBlock (Block_Parent blk) t).1 = inr e ->
  let i := {| deps := {[Block_Parent blk]}; action := issuer blk |} in
  issue blk t
  = Some (errs t,
          set_blocked (blocked t ++ [i])
            (emit (Blocker_Register i)
               (set_blkReqs (Requests.RemoveAny (Block_ID blk) (blkReqs t))
                  (set_pending (pending t ∪ {[Block_ID blk]}) t)))).
Proof.
  intros Hd Hg i. unfold issue. rewrite !bind_lift, bind_lift'.
  set (t1 := set_blkReqs _ _).
  rewrite (decidedCache_Get_miss (Block_Parent blk) t1 Hd). cbn [fst snd].
  cbn iota. rewrite bind_assoc, bind_lift'.
  assert (Hg1 : (GetBlock (Block_Parent blk) t1).1 = inr e).
  { rewrite <- Hg, !GetBlock_result. reflexivity. }
  rewrite (GetBlock_miss _ _ _ Hg1). cbn [fst snd]. rewrite bind_ret.
  unfold Register, Register_with. rewrite bind_assoc, bind_lift.
  destruct (decide (deps {| deps := {[Block_Parent blk]}; action := issuer blk |} = ∅))
    as [He|_].
  { exfalso. apply (singleton_nonempty (Block_Parent blk)). exact He. }
  rewrite bind_lift. reflexivity.
Qed.

(** X25.  A [Put] that brings a block whose parent the node does not have:
    the block is pinned, queued in [pending] behind an Issuer that waits for
    the parent, and the parent is requested from the validator that sent the
    block; nothing is verified or added to Consensus, and [nil] is returned. *)
Theorem Put_missing_parent fuel vdr requestID blkID blkBytes t b e :
  Ctx_IsBootstrapped t = true ->
  errs t = None ->
  VM_ParseBlock (world t) blkBytes = inl b ->
  VMBlock_Status (world t) b = choices.Processing ->
  Consensus_Issued (world t) (VMBlk b) = false ->
  vmID b ∉ pending t ->
  LRU.lookup (vmParent b) (decidedCache t) = None ->
  (GetBlock (vmParent b) (pin (vmID b) blkID (VMBlk b) t)).1 = inr e ->
  let i := {| deps := {[vmParent b]}; action := issuer (VMBlk b) |} in
  exists t1,
    Put (S fuel) vdr requestID blkID blkBytes t
    = Some (None, sendRequest vdr (vmParent b) t1)
    /\ processing t1 = <[vmID b := VMBlk b]> (processing t)
    /\ pending t1 = pending t ∪ {[vmID b]}
    /\ blocked t1 = blocked t ++ [i]
    /\ blkReqs t1 = Requests.RemoveAny (vmID b) (blkReqs t)
    /\ calls t1 = calls t ++ [Blocker_Register i]
    /\ world t1 = world t
    /\ RequestID t1 = RequestID t.
Proof.
  intros Hb Herr Hp Hst Hi Hpend Hd Hg i.
  set (tp := pin (vmID b) blkID (VMBlk b) t) in *.
  assert (Hissue := issue_parent_unknown (VMBlk b) tp e Hd Hg).
  cbn zeta in Hissue. cbn [Block_Parent Block_ID] in Hissue.
  fold i in Hissue.
  set (t1 := set_blocked _ _) in Hissue.
  exists t1. split; [|subst t1 tp; repeat split].
  unfold Put, IsBootstrapped. rewrite bind_get, Hb. cbn [negb].
  rewrite bind_get, Hp, bind_get. cbn [Block_Status]. rewrite Hst.
  cbn [choices.eqb]. rewrite bind_lift. cbn [Block_ID]. fold tp.
  unfold issueFrom. cbn [issueFrom_loop]. rewrite bind_assoc, bind_get.
  replace (Consensus_Issued (world tp) (VMBlk b)) with false by (symmetry; exact Hi).
  rewrite bool_decide_eq_false_2 by exact Hpend. cbn [negb andb].
  rewrite bind_assoc, (bind_Some _ _ _ _ _ Hissue).
  replace (errs tp) with (@None error) by (symmetry; exact Herr).
  cbn [Block_Parent]. rewrite bind_assoc, bind_lift'.
  rewrite (decidedCache_Get_miss (vmParent b) t1 Hd). cbn [fst snd].
  rewrite bind_assoc, bind_lift'.
  assert (Hg1 : (GetBlock (vmParent b) t1).1 = inr e).
  { rewrite <- Hg, !GetBlock_result. reflexivity. }
  rewrite (GetBlock_miss _ _ _ Hg1). cbn [fst snd].
  rewrite bind_assoc, bind_get, bind_assoc, bind_lift, bind_ret. reflexivity.
Qed.

(** X6.  What [issueFrom] reports after it has moved to the parent: once the
    block has been handed to [issue] and its parent has been loaded, the
    loop goes on with the parent, and when it stops there, because the
    parent is issued or pending, the result is [Consensus.Issued] of the
    parent, whatever became of the block itself. *)
Theorem issueFrom_reports_last_ancestor fuel vdr blk t t1 t2 parent :
  Consensus_Issued (world t) blk = false ->
  Block_ID blk ∉ pending t ->
  issue blk t = Some (None, t1) ->
  LRU.lookup (Block_Parent blk) (decidedCache t1) = None ->
  GetBlock (Block_Parent blk) t1 = (inl parent, t2) ->
  choices.Fetched (Block_Status (world t2) parent) = true ->
  Consensus_Issued (world t2) parent = true \/ Block_Parent blk ∈ pending t2 ->
  issueFrom (S (S fuel)) vdr blk t
  = Some ((Consensus_Issued (world t2) parent, None), t2).
Proof.
  intros Hi Hpend Hissue Hd Hg Hf Hstop.
  unfold issueFrom. cbn [issueFrom_loop]. rewrite bind_get, Hi.
  rewrite bool_decide_eq_false_2 by exact Hpend. cbn [negb andb].
  rewrite (bind_Some _ _ _ _ _ Hissue). cbn iota.
  rewrite bind_lift', (decidedCache_Get_miss _ t1 Hd). cbn [fst snd].
  rewrite bind_lift', Hg. cbn [fst snd]. rewrite bind_get, Hf.
  rewrite bind_get. destruct Hstop as [Hs|Hs].
  - rewrite Hs. cbn [negb andb]. rewrite bind_get, Hs. reflexivity.
  - rewrite (bool_decide_eq_true_2 _ Hs), andb_false_r. rewrite bind_get.
    reflexivity.
Qed.

(** ** The hand-over from the Bootstrapper *)

(** X26.  When the last accepted block is not an oracle block,
    [finishBootstrapping] initializes Consensus with the VM's last accepted
    ID and sets the VM's preference to it, and nothing else: nothing is
    delivered, polled or sent. When the VM cannot load its last accepted
    block, the VM's error is returned; Consensus has been initialized by
    then and the preference is not set. *)
Theorem finishBootstrapping_without_options t :
  let last := VM_LastAccepted (world t) in
  let w := Consensus_Initialize (world t) last in
  (forall b,
      VM_GetBlock w last = inl b -> vmOracle b = false ->
      finishBootstrapping t
      = Some (None, emit (VM_SetPreference_called last)
                      (set_world (VM_SetPreference w last) t)))
  /\ (forall e,
         VM_GetBlock w last = inr e ->
         finishBootstrapping t = Some (Some e, set_world w t)).
Proof.
  cbn zeta. split.
  - intros b Hg Ho. unfold finishBootstrapping. rewrite bind_get, bind_lift, bind_get.
    cbn [world set_world]. rewrite Hg. rewrite bind_get. unfold Block_Options.
    rewrite Ho. rewrite bind_lift. reflexivity.
  - intros e Hg. unfold finishBootstrapping. rewrite bind_get, bind_lift, bind_get.
    cbn [world set_world]. rewrite Hg. reflexivity.
Qed.

End Branch.

Section Reachable.

Context {World : Type} `{Collab : Collaborators World} {contract : Contract}.

Implicit Types (t : @Transitive World) (blk : Block) (vdr requestID blkID : Z).

(** ** Invariants of the reachable states *)

(** X7.  In every reachable state, when the collaborators keep their
    contract, [GetBlock(id)] never answers with the missing-block sentinel
    nor with a block of another ID: what it returns is a block of the VM
    whose ID is [id]. So every block pinned in [processing] or kept in the
    dropped cache is stored under its own ID. *)
Theorem GetBlock_returns_requested_block D IntLen Max t id blk :
  reachable D IntLen Max t ->
  (GetBlock id t).1 = inl blk ->
  exists b, blk = VMBlk b /\ vmID b = id.
Proof.
  intros Hr Hg. destruct (reachable_Inv D IntLen Max t Hr) as [Hinv _].
  destruct (GetBlock_step id t t (step_refl t Hinv)) as (_ & _ & H).
  apply (H blk Hg).
Qed.

(** X8.  In every reachable state, when the collaborators keep their
    contract, the decided cache is sound: each ID it holds names a block
    that is issued to Consensus or decided; and it is empty until the
    hand-over from the Bootstrapper. This is what lets [issueFromByID]
    answer from the cache without loading the block. *)
Theorem decidedCache_sound D IntLen Max t :
  reachable D IntLen Max t ->
  (forall id, LRU.lookup id (decidedCache t) = Some tt ->
              issued_or_decided (world t) id)
  /\ (Ctx_IsBootstrapped t = false -> decidedCache t = []).
Proof.
  intros Hr. destruct (reachable_Inv D IntLen Max t Hr) as [Hinv Hd].
  split; [|exact Hd]. intros id Hl. apply LRU_lookup_elem in Hl.
  pose proof (inv_decided _ Hinv) as H. rewrite Forall_forall in H.
  apply (H _ Hl).
Qed.

End Reachable.

Section Orderly.

Context {World : Type} `{Collab : Collaborators World}.

Implicit Types (t : @Transitive World) (blk : Block) (vdr requestID blkID : Z).

Notation "x <- m ;; k" := (bind m (fun x => k))
  (at level 100, m at next level, right associativity).
Notation "m ;;; k" := (bind m (fun _ => k))
  (at level 100, right associativity).

(** ** Blocks are verified before they are added *)

Lemma verified_adds_nil : verified_adds ([] : list (@Event World)).
Proof. intros [|x l1] w blk l2 H; discriminate. Qed.

Lemma verified_adds_app (l l' : list (@Event World)) :
  verified_adds l -> verified_adds l' -> verified_adds (l ++ l').
Proof.
  intros H H' l1 w blk l2 Heq.
  apply app_eq_inv in Heq as [[k [Hl Hk]]|[k [Hl Hk]]].
  - destruct k as [|x k].
    + destruct (H' [] w blk l2 (eq_sym Hk)) as (l0 & w0 & Hl0 & _).
      destruct l0; discriminate.
    + injection Hk as <- ->. apply (H l1 w blk k Hl).
  - destruct (H' k w blk l2 Hk) as (l0 & w0 & -> & Hv). exists (l ++ l0), w0.
    rewrite Hl, app_assoc. split; [reflexivity|exact Hv].
Qed.

Lemma verified_adds_others (l : list (@Event World)) :
  Forall not_Add l -> verified_adds l.
Proof.
  intros H l1 w blk l2 ->. apply Forall_app in H as [_ H].
  apply Forall_cons in H as [[] _].
Qed.

Lemma verified_adds_Verify_Add (w0 w : World) blk :
  Block_Verify w0 blk = (w, None) ->
  verified_adds [Block_Verify_called blk; Consensus_Add_called w blk].
Proof.
  intros Hv l1 w' blk' l2 Heq. destruct l1 as [|x [|y l1]].
  - discriminate.
  - injection Heq as <- <- <- _. exists [], w0. split; [reflexivity|exact Hv].
  - injection Heq as _ _ Heq. destruct l1; discriminate.
Qed.

Lemma orderly_refl t : orderly t t.
Proof.
  constructor; try reflexivity. exists []. rewrite app_nil_r.
  split; [reflexivity|apply verified_adds_nil].
Qed.

Lemma orderly_trans t1 t2 t3 : orderly t1 t2 -> orderly t2 t3 -> orderly t1 t3.
Proof.
  intros [(l & Hl & Hv) Hp Hb] [(l' & Hl' & Hv') Hp' Hb'].
  constructor; [|congruence..].
  exists (l ++ l'). rewrite Hl', Hl, app_assoc.
  split; [reflexivity|apply verified_adds_app; assumption].
Qed.

(** An update that makes no call. *)
Lemma orderly_quiet t0 t t' :
  calls t' = calls t -> Params t' = Params t ->
  Ctx_IsBootstrapped t' = Ctx_IsBootstrapped t ->
  orderly t0 t -> orderly t0 t'.
Proof.
  intros Hc Hp Hb H. apply (orderly_trans _ _ _ H).
  constructor; [|assumption..]. exists []. rewrite app_nil_r.
  split; [exact Hc|apply verified_adds_nil].
Qed.

Lemma orderly_emits l t0 t t' :
  calls t' = calls t ++ l -> Forall not_Add l ->
  Params t' = Params t -> Ctx_IsBootstrapped t' = Ctx_IsBootstrapped t ->
  orderly t0 t -> orderly t0 t'.
Proof.
  intros Hc Hl Hp Hb H. apply (orderly_trans _ _ _ H).
  constructor; [|assumption..]. exists l.
  split; [exact Hc|apply verified_adds_others, Hl].
Qed.

Lemma orderly_emit e t0 t : not_Add e -> orderly t0 t -> orderly t0 (emit e t).
Proof.
  intros He. apply (orderly_emits [e]); try reflexivity.
  constructor; [exact He|constructor].
Qed.

(** A [Verify] that succeeds and then [Add], on the same block. *)
Lemma orderly_Verify_Add (w0 w w' : World) blk t0 t :
  Block_Verify w0 blk = (w, None) ->
  orderly t0 t ->
  orderly t0 (emit (Consensus_Add_called w blk)
                (emit (Block_Verify_called blk) (set_world w' t))).
Proof.
  intros Hv H. apply (orderly_trans _ _ _ H). constructor; try reflexivity.
  exists [Block_Verify_called blk; Consensus_Add_called w blk]. split.
  - cbn. rewrite <- app_assoc. reflexivity.
  - apply (verified_adds_Verify_Add w0 w blk Hv).
Qed.

Lemma orderly_set_pending v t0 t : orderly t0 t -> orderly t0 (set_pending v t).
Proof. apply orderly_quiet; reflexivity. Qed.

Lemma orderly_set_blkReqs v t0 t : orderly t0 t -> orderly t0 (set_blkReqs v t).
Proof. apply orderly_quiet; reflexivity. Qed.

Lemma orderly_set_polls v t0 t : orderly t0 t -> orderly t0 (set_polls v t).
Proof. apply orderly_quiet; reflexivity. Qed.

Lemma orderly_set_RequestID v t0 t : orderly t0 t -> orderly t0 (set_RequestID v t).
Proof. apply orderly_quiet; reflexivity. Qed.

Lemma orderly_set_world v t0 t : orderly t0 t -> orderly t0 (set_world v t).
Proof. apply orderly_quiet; reflexivity. Qed.

Lemma orderly_set_processing v t0 t : orderly t0 t -> orderly t0 (set_processing v t).
Proof. apply orderly_quiet; reflexivity. Qed.

Lemma orderly_set_decidedCache v t0 t :
  orderly t0 t -> orderly t0 (set_decidedCache v t).
Proof. apply orderly_quiet; reflexivity. Qed.

Lemma orderly_set_droppedCache v t0 t :
  orderly t0 t -> orderly t0 (set_droppedCache v t).
Proof. apply orderly_quiet; reflexivity. Qed.

Lemma orderly_set_blocked v t0 t : orderly t0 t -> orderly t0 (set_blocked v t).
Proof. apply orderly_quiet; reflexivity. Qed.

Lemma orderly_errs_Add e t0 t : orderly t0 t -> orderly t0 (errs_Add e t).
Proof.
  unfold errs_Add. destruct (errs t); [auto|]. apply orderly_quiet; reflexivity.
Qed.

(** One field update or one call other than [Add]. *)
Ltac ord_step :=
  first [ apply orderly_set_pending | apply orderly_set_blkReqs
        | apply orderly_set_polls | apply orderly_set_RequestID
        | apply orderly_set_world | apply orderly_set_processing
        | apply orderly_set_decidedCache | apply orderly_set_droppedCache
        | apply orderly_set_blocked | apply orderly_errs_Add
        | apply orderly_emit; [exact I|] ].

Ltac ord := repeat ord_step; try eassumption.

Ltac wp_run :=
  repeat (cbn beta;
          lazymatch goal with
          | |- wp (bind _ _) _ _ => apply wp_bind
          | |- wp (get _) _ _ => apply wp_get
          | |- wp (lift _) _ _ => apply wp_lift
          | |- wp (lift' _) _ _ => apply wp_lift'
          | |- wp (ret _) _ _ => apply wp_ret
          | |- wp (fun _ => None) _ _ => apply wp_stuck
          end); cbn beta.

Lemma orderly_GetBlock id t0 t : orderly t0 t -> orderly t0 (GetBlock id t).2.
Proof.
  intros H. unfold GetBlock. destruct (processing t !! id); [exact H|].
  destruct (LRU.Get id (droppedCache t)) as [[b|] c]; [cbn [snd]; ord|].
  destruct (VM_GetBlock (world t) id); cbn [snd]; ord.
Qed.

Lemma orderly_sendRequest vdr blkID t0 t :
  orderly t0 t -> orderly t0 (sendRequest vdr blkID t).
Proof.
  intros H. unfold sendRequest. destruct (Requests.Contains _ _); [exact H|]. ord.
Qed.

Lemma orderly_pullSample blkID t0 t : orderly t0 t -> orderly t0 (pullSample blkID t).
Proof.
  intros H. unfold pullSample.
  destruct (Validators_Sample (world t) (snowball.K (Params t))) as [w [l|e]]; [|ord].
  destruct (poll.Add _ _ _) as [[] s]; ord.
Qed.

Lemma orderly_pushSample blk t0 t : orderly t0 t -> orderly t0 (pushSample blk t).
Proof.
  intros H. unfold pushSample.
  destruct (Validators_Sample (world t) (snowball.K (Params t))) as [w [l|e]]; [|ord].
  destruct (poll.Add _ _ _) as [[] s]; ord.
Qed.

Lemma orderly_repoll t0 t : orderly t0 t -> orderly t0 (repoll t).
Proof.
  unfold repoll. generalize (Consensus_Preference (world t)) as prefID.
  generalize (Z.to_nat (snowball.ConcurrentRepolls (Params t) - poll.Len (polls t))) as n.
  intros n prefID. revert t. induction n as [|n IH]; intros t H; cbn [repoll_loop];
    [exact H|]. apply IH, orderly_pullSample, H.
Qed.

Lemma orderly_convincer_Update vdr requestID t0 t :
  orderly t0 t -> orderly t0 (convincer_Update vdr requestID t).
Proof. intros H. unfold convincer_Update. destruct (errs_Errored t); ord. Qed.

Lemma orderly_voter_Update vdr requestID response t0 t :
  orderly t0 t -> orderly t0 (voter_Update vdr requestID response t).
Proof.
  intros H. unfold voter_Update. destruct (errs_Errored t); [exact H|].
  destruct (poll.Vote _ _ _ _ _) as [[votes|] s]; [|ord].
  cbn [world set_polls].
  destruct (Consensus_RecordPoll (world t) votes) as [w [decided e]].
  match goal with |- orderly t0 (if errs_Errored ?t1 then _ else _) =>
    assert (H1 : orderly t0 t1) by ord;
    destruct (errs_Errored t1); [exact H1|]; revert H1; generalize t1
  end.
  intros t1 H1. apply orderly_repoll. revert t1 H1.
  induction decided as [|id decided IH]; intros t1 H1; cbn [foldl]; [exact H1|].
  apply IH. ord.
Qed.

Lemma orderly_rejected_on_Add blkID evictID t0 t :
  orderly t0 t -> orderly t0 (rejected_on_Add blkID evictID t).
Proof. intros H. unfold rejected_on_Add. ord. Qed.

Lemma orderly_deliver_options blkID options : forall added dropped t0 t,
  orderly t0 t -> orderly t0 (deliver_options blkID options added dropped t).2.
Proof.
  induction options as [|o options IH]; intros added dropped t0 t H;
    cbn [deliver_options]; [exact H|].
  destruct (Block_Verify (world t) (VMBlk o)) as [w verr] eqn:Hv.
  destruct verr as [e|]; [apply IH; ord|].
  cbn [world emit set_calls set_world].
  pose proof (orderly_Verify_Add (world t) w w (VMBlk o) t0 t Hv H) as H2.
  match goal with |- context [Consensus_Add ?w ?b] =>
    destruct (Consensus_Add w b) as [w2 [rejected [e|]]] end.
  - cbn [snd]. ord.
  - apply IH. destruct rejected; [apply orderly_rejected_on_Add|]; ord.
Qed.

Lemma orderly_Abandon id t0 t :
  orderly t0 t -> wp (Abandon id) (fun _ t' => orderly t0 t') t.
Proof.
  intros H a t' Hrun.
  destruct (Abandon_frame_ok id t) as (t2 & Hrun2 & Hfr & _ & _).
  assert (t2 = t') by congruence. subst t2.
  pose proof (af_untouched _ _ Hfr) as Hu. unfold untouched_by_Abandon in Hu.
  destruct (af_calls _ _ Hfr) as [ids Hc].
  apply (orderly_emits (Blocker_Abandon <$> ids) t0 t t' Hc); [|congruence..|exact H].
  apply Forall_fmap, Forall_forall. intros x _. exact I.
Qed.

Section Nested.

(** The nested calls of [deliver] are assumed to be orderly; this is
    discharged by induction on the nesting depth. *)
Variable deliver_rec : Block -> @M World (option error).
Hypothesis deliver_rec_orderly : forall blk t0 t,
  orderly t0 t -> wp (deliver_rec blk) (fun _ t' => orderly t0 t') t.

Lemma orderly_Update c t0 t :
  orderly t0 t -> wp (Update deliver_rec c) (fun _ t' => orderly t0 t') t.
Proof.
  intros H. unfold Update. destruct (action c) as [blk|vdr rid|vdr rid resp].
  - wp_run. destruct (errs_Errored t); wp_run; [exact H|].
    eapply wp_conseq; [apply (deliver_rec_orderly blk t0 t H)|].
    cbn beta. intros e t' H'. wp_run. ord.
  - wp_run. apply orderly_convincer_Update, H.
  - wp_run. apply orderly_voter_Update, H.
Qed.

Lemma orderly_forM_Update l t0 : forall t,
  orderly t0 t -> wp (forM (Update deliver_rec) l) (fun _ t' => orderly t0 t') t.
Proof.
  induction l as [|c l IH]; intros t H; cbn [forM].
  - wp_run. exact H.
  - wp_run. eapply wp_conseq; [apply (orderly_Update c t0 t H)|].
    cbn beta. intros _ t1 H1. apply IH, H1.
Qed.

Lemma orderly_Register_with c t0 t :
  orderly t0 t -> wp (Register_with deliver_rec c) (fun _ t' => orderly t0 t') t.
Proof.
  intros H. unfold Register_with. wp_run.
  destruct (decide (deps c = ∅)); [apply orderly_Update; ord|]. wp_run. ord.
Qed.

Lemma orderly_Fulfill_with id t0 t :
  orderly t0 t -> wp (Fulfill_with deliver_rec id) (fun _ t' => orderly t0 t') t.
Proof.
  intros H. unfold Fulfill_with. wp_run. apply orderly_forM_Update. ord.
Qed.

Lemma orderly_forM_added added t0 : forall t,
  orderly t0 t ->
  wp (forM (fun blk =>
              lift (pushSample blk) ;;;
              let blkID := Block_ID blk in
              lift (fun t => set_pending (pending t ∖ {[blkID]}) t) ;;;
              Fulfill_with deliver_rec blkID) added)
     (fun _ t' => orderly t0 t') t.
Proof.
  induction added as [|b added IH]; intros t H; cbn [forM].
  - wp_run. exact H.
  - wp_run. eapply wp_conseq.
    + apply orderly_Fulfill_with, orderly_set_pending, orderly_pushSample, H.
    + cbn beta. intros _ t1 H1. apply IH, H1.
Qed.

Lemma orderly_forM_dropped dropped t0 : forall t,
  orderly t0 t ->
  wp (forM (fun blk =>
              let blkID := Block_ID blk in
              lift (fun t => set_pending (pending t ∖ {[blkID]}) t) ;;;
              Abandon blkID) dropped)
     (fun _ t' => orderly t0 t') t.
Proof.
  induction dropped as [|b dropped IH]; intros t H; cbn [forM].
  - wp_run. exact H.
  - wp_run. eapply wp_conseq; [apply orderly_Abandon, orderly_set_pending, H|].
    cbn beta. intros _ t1 H1. apply IH, H1.
Qed.

Lemma orderly_deliver_body blk t0 t :
  orderly t0 t -> wp (deliver_body deliver_rec blk) (fun _ t' => orderly t0 t') t.
Proof.
  intros H. unfold deliver_body. wp_run.
  destruct (Consensus_Issued (world t) blk); [wp_run; exact H|].
  wp_run. cbn [world set_pending].
  destruct (Block_Verify (world t) blk) as [w1 [e|]] eqn:Hv; cbn [fst snd].
  { wp_run. eapply wp_conseq; [apply orderly_Abandon; ord|].
    cbn beta. intros _ t2 H2. wp_run. exact H2. }
  wp_run. cbn [world emit set_calls set_world].
  pose proof (orderly_Verify_Add (world t) w1 w1 blk t0 _ Hv
                (orderly_set_pending (pending t ∖ {[Block_ID blk]}) t0 t H)) as H2.
  destruct (Consensus_Add w1 blk) as [w2 [rejected [e|]]]; cbn [fst snd].
  { wp_run. ord. }
  wp_run.
  eapply (wp_conseq _ (fun _ t3 => orderly t0 t3)).
  { destruct rejected; wp_run; [apply orderly_rejected_on_Add|]; ord. }
  cbn beta. intros _ t3 H3. wp_run.
  destruct (Block_Options (world t3) blk) as [[options|e]|].
  2:{ wp_run. exact H3. }
  all: wp_run.
  all: match goal with |- context [deliver_options ?i ?o ?a ?d ?t] =>
         pose proof (orderly_deliver_options i o a d t0 t H3) as H4;
         destruct (deliver_options i o a d t) as [[e|[added dropped]] t4]
       end; cbn [fst snd] in *.
  all: try (wp_run; exact H4).
  all: wp_run.
  all: eapply wp_conseq;
    [apply orderly_Fulfill_with, orderly_pushSample; ord|].
  all: cbn beta; intros _ t5 H5; wp_run.
  all: eapply wp_conseq; [apply (orderly_forM_added added t0 t5 H5)|].
  all: cbn beta; intros _ t6 H6; wp_run.
  all: eapply wp_conseq; [apply (orderly_forM_dropped dropped t0 t6 H6)|].
  all: cbn beta; intros _ t7 H7; wp_run.
  all: apply orderly_repoll, H7.
Qed.

End Nested.

Lemma orderly_deliver_fuel n : forall blk t0 t,
  orderly t0 t -> wp (deliver_fuel n blk) (fun _ t' => orderly t0 t') t.
Proof.
  induction n as [|n IH]; intros blk t0 t H; cbn [deliver_fuel]; [apply wp_stuck|].
  apply orderly_deliver_body; assumption.
Qed.

Lemma orderly_deliver blk t0 t :
  orderly t0 t -> wp (deliver blk) (fun _ t' => orderly t0 t') t.
Proof.
  intros H a t' Hrun. unfold deliver in Hrun.
  exact (orderly_deliver_fuel _ blk t0 t H a t' Hrun).
Qed.

Lemma orderly_Register c t0 t :
  orderly t0 t -> wp (Register c) (fun _ t' => orderly t0 t') t.
Proof. intros H. unfold Register. apply orderly_Register_with; [|exact H]. apply orderly_deliver. Qed.

Lemma orderly_decidedCache_Get id t0 t :
  orderly t0 t ->
  orderly t0 (let '(v, c) := LRU.Get id (decidedCache t) in
              (bool_decide (v ≠ None), set_decidedCache c t)).2.
Proof. intros H. destruct (LRU.Get id (decidedCache t)) as [v c]. cbn [snd]. ord. Qed.

Lemma orderly_issue blk t0 t :
  orderly t0 t -> wp (issue blk) (fun _ t' => orderly t0 t') t.
Proof.
  intros H. unfold issue. wp_run.
  set (t1 := set_blkReqs _ (set_pending _ t)).
  assert (H1 : orderly t0 t1) by (subst t1; ord).
  pose proof (orderly_decidedCache_Get (Block_Parent blk) t0 t1 H1) as H2.
  destruct (let '(v, c) := LRU.Get (Block_Parent blk) (decidedCache t1) in
            (bool_decide (v ≠ None), set_decidedCache c t1)) as [inCache t2].
  cbn [fst snd] in *.
  eapply (wp_conseq _ (fun _ t3 => orderly t0 t3)).
  { destruct inCache; wp_run; [exact H2|].
    pose proof (orderly_GetBlock (Block_Parent blk) t0 t2 H2) as H3.
    destruct (GetBlock (Block_Parent blk) t2) as [[parent|e] t3]; cbn [fst snd] in *;
      wp_run; exact H3. }
  cbn beta. intros parentIssued t3 H3. wp_run.
  eapply wp_conseq; [apply orderly_Register, H3|].
  cbn beta. intros _ t4 H4. wp_run. exact H4.
Qed.

Lemma orderly_issueFrom_loop n vdr : forall blk blkID t0 t,
  orderly t0 t -> wp (issueFrom_loop n vdr blk blkID) (fun _ t' => orderly t0 t') t.
Proof.
  induction n as [|n IH]; intros blk blkID t0 t H; cbn [issueFrom_loop];
    [apply wp_stuck|].
  wp_run.
  destruct (negb (Consensus_Issued (world t) blk) && negb (bool_decide (blkID ∈ pending t)));
    [|wp_run; exact H].
  wp_run. eapply wp_conseq; [apply (orderly_issue blk t0 t H)|].
  cbn beta. intros err t1 H1. destruct err as [e|]; [wp_run; exact H1|].
  wp_run.
  pose proof (orderly_decidedCache_Get (Block_Parent blk) t0 t1 H1) as H2.
  destruct (let '(v, c) := LRU.Get (Block_Parent blk) (decidedCache t1) in
            (bool_decide (v ≠ None), set_decidedCache c t1)) as [decided t2].
  cbn [fst snd] in *.
  destruct decided; [wp_run; exact H2|].
  wp_run. pose proof (orderly_GetBlock (Block_Parent blk) t0 t2 H2) as H3.
  destruct (GetBlock (Block_Parent blk) t2) as [[blk'|e] t3]; cbn [fst snd] in *.
  - wp_run. destruct (choices.Fetched (Block_Status (world t3) blk')).
    + apply IH, H3.
    + wp_run. apply orderly_sendRequest, H3.
  - wp_run. apply orderly_sendRequest, H3.
Qed.

Lemma orderly_issueFromByID fuel vdr blkID t0 t :
  orderly t0 t -> wp (issueFromByID fuel vdr blkID) (fun _ t' => orderly t0 t') t.
Proof.
  intros H. unfold issueFromByID. wp_run.
  pose proof (orderly_decidedCache_Get blkID t0 t H) as H2.
  destruct (let '(v, c) := LRU.Get blkID (decidedCache t) in
            (bool_decide (v ≠ None), set_decidedCache c t)) as [decided t2].
  cbn [fst snd] in *.
  destruct decided; [wp_run; exact H2|].
  wp_run. pose proof (orderly_GetBlock blkID t0 t2 H2) as H3.
  destruct (GetBlock blkID t2) as [[blk|e] t3]; cbn [fst snd] in *.
  2:{ wp_run. apply orderly_sendRequest, H3. }
  wp_run.
  destruct (Block_Status (world t3) blk);
    try (apply orderly_issueFrom_loop, H3); wp_run; ord.
Qed.

Lemma orderly_issueWithAncestors_loop n : forall blk blkID t0 t,
  orderly t0 t ->
  wp (issueWithAncestors_loop n blk blkID) (fun _ t' => orderly t0 t') t.
Proof.
  induction n as [|n IH]; intros blk blkID t0 t H; cbn [issueWithAncestors_loop];
    [apply wp_stuck|].
  wp_run.
  destruct (choices.Fetched (Block_Status (world t) blk)
            && negb (Consensus_Issued (world t) blk)
            && negb (bool_decide (blkID ∈ pending t))); [|wp_run; exact H].
  wp_run. eapply wp_conseq; [apply (orderly_issue blk t0 t H)|].
  cbn beta. intros err t1 H1. destruct err as [e|]; [wp_run; exact H1|].
  wp_run. pose proof (orderly_GetBlock (Block_Parent blk) t0 t1 H1) as H3.
  destruct (GetBlock (Block_Parent blk) t1) as [[blk'|e] t3]; cbn [fst snd] in *;
    apply IH, H3.
Qed.

Lemma orderly_issueWithAncestors fuel blk t0 t :
  orderly t0 t -> wp (issueWithAncestors fuel blk) (fun _ t' => orderly t0 t') t.
Proof.
  intros H. unfold issueWithAncestors. wp_run.
  eapply wp_conseq; [apply (orderly_issueWithAncestors_loop fuel blk _ t0 t H)|].
  cbn beta. intros r t1 H1. destruct r as [res|[blk' blkID']]; [wp_run; exact H1|].
  wp_run. destruct (Consensus_Issued (world t1) blk'); [wp_run; exact H1|].
  wp_run. destruct (Requests.Contains blkID' (blkReqs t1)); [wp_run; exact H1|].
  wp_run. eapply wp_conseq; [apply (orderly_Abandon blkID' t0 t1 H1)|].
  cbn beta. intros _ t2 H2. wp_run. exact H2.
Qed.

Lemma orderly_pin key blkID blk t0 t : orderly t0 t -> orderly t0 (pin key blkID blk t).
Proof. intros H. unfold pin. ord. Qed.

Lemma orderly_Gossip t0 t : orderly t0 t -> orderly t0 (Gossip t).2.
Proof.
  intros H. unfold Gossip.
  pose proof (orderly_GetBlock (VM_LastAccepted (world t)) t0 t H) as H1.
  destruct (GetBlock _ t) as [[blk|e] t1]; cbn [fst snd] in *; ord.
Qed.

Lemma orderly_Get vdr requestID blkID t0 t :
  orderly t0 t -> orderly t0 (Get vdr requestID blkID t).2.
Proof.
  intros H. unfold Get. pose proof (orderly_GetBlock blkID t0 t H) as H1.
  destruct (GetBlock _ t) as [[blk|e] t1]; cbn [fst snd] in *; ord.
Qed.

Lemma orderly_GetAncestors_loop D IntLen Max n t0 :
  forall numFetched blk acc accLen t,
    orderly t0 t ->
    orderly t0 (GetAncestors_loop D IntLen Max n numFetched blk acc accLen t).2.
Proof.
  induction n as [|n IH]; intros numFetched blk acc accLen t H;
    cbn [GetAncestors_loop]; [exact H|].
  destruct ((numFetched <? Max) && Clock_WithinFetchBudget (world t) numFetched);
    [|exact H].
  pose proof (orderly_GetBlock (Block_Parent blk) t0 t H) as H1.
  destruct (GetBlock _ t) as [[blk'|e] t1]; cbn [fst snd] in *; [|exact H1].
  destruct (_ <? _); [|exact H1]. apply IH, H1.
Qed.

Lemma orderly_GetAncestors D IntLen Max vdr requestID blkID t0 t :
  orderly t0 t -> orderly t0 (GetAncestors D IntLen Max vdr requestID blkID t).2.
Proof.
  intros H. unfold GetAncestors. pose proof (orderly_GetBlock blkID t0 t H) as H1.
  destruct (GetBlock _ t) as [[blk|e] t1]; cbn [fst snd] in *; [|exact H1].
  pose proof (orderly_GetAncestors_loop D IntLen Max (Z.to_nat (Max - 1)) t0 1 blk
                [Block_Bytes blk] (len (Block_Bytes blk) + IntLen) t1 H1) as H2.
  destruct (GetAncestors_loop _ _ _ _ _ _ _ _ _) as [cs t2]. cbn [fst snd] in *. ord.
Qed.

Lemma orderly_GetFailed vdr requestID t0 t :
  orderly t0 t -> wp (GetFailed vdr requestID) (fun _ t' => orderly t0 t') t.
Proof.
  intros H. unfold GetFailed. wp_run.
  destruct (negb (Ctx_IsBootstrapped t)); [wp_run; exact H|].
  wp_run. destruct (Requests.Remove vdr requestID (blkReqs t)) as [[blkID|] reqs];
    cbn [fst snd].
  - wp_run. eapply wp_conseq; [apply orderly_Abandon; ord|].
    cbn beta. intros _ t1 H1. wp_run. exact H1.
  - wp_run. ord.
Qed.

Lemma orderly_Put fuel vdr requestID blkID blkBytes t0 t :
  orderly t0 t ->
  wp (Put fuel vdr requestID blkID blkBytes) (fun _ t' => orderly t0 t') t.
Proof.
  intros H. unfold Put. wp_run.
  destruct (negb (IsBootstrapped t)); [wp_run; exact H|].
  wp_run. destruct (VM_ParseBlock (world t) blkBytes) as [b|e];
    [|apply orderly_GetFailed, H].
  wp_run.
  eapply (wp_conseq _ (fun _ t1 => orderly t0 t1)).
  { destruct (choices.eqb _ _); wp_run; [apply orderly_pin|]; exact H. }
  cbn beta. intros _ t1 H1. wp_run.
  eapply wp_conseq; [apply (orderly_issueFrom_loop fuel vdr _ _ t0 t1 H1)|].
  cbn beta. intros r t2 H2. wp_run. exact H2.
Qed.

Lemma orderly_PullQuery fuel vdr requestID blkID t0 t :
  orderly t0 t ->
  wp (PullQuery fuel vdr requestID blkID) (fun _ t' => orderly t0 t') t.
Proof.
  intros H. unfold PullQuery. wp_run.
  destruct (negb (Ctx_IsBootstrapped t)); [wp_run; exact H|].
  wp_run. eapply wp_conseq; [apply (orderly_issueFromByID fuel vdr blkID t0 t H)|].
  cbn beta. intros [added [e|]] t1 H1; [wp_run; exact H1|].
  wp_run. eapply wp_conseq; [apply (orderly_Register _ t0 t1 H1)|].
  cbn beta. intros _ t2 H2. wp_run. exact H2.
Qed.

Lemma orderly_PushQuery fuel vdr requestID blkID blkBytes t0 t :
  orderly t0 t ->
  wp (PushQuery fuel vdr requestID blkID blkBytes) (fun _ t' => orderly t0 t') t.
Proof.
  intros H. unfold PushQuery. wp_run.
  destruct (negb (Ctx_IsBootstrapped t)); [wp_run; exact H|].
  wp_run. destruct (VM_ParseBlock (world t) blkBytes) as [b|e]; [|wp_run; exact H].
  destruct (negb (Block_ID (VMBlk b) =? blkID)); [wp_run; exact H|].
  wp_run.
  eapply (wp_conseq _ (fun _ t1 => orderly t0 t1)).
  { destruct (choices.eqb _ _); wp_run; [apply orderly_pin|]; exact H. }
  cbn beta. intros _ t1 H1. wp_run.
  eapply wp_conseq; [apply (orderly_issueFrom_loop fuel vdr _ _ t0 t1 H1)|].
  cbn beta. intros r t2 H2. destruct (r.2) as [e|]; [wp_run; exact H2|].
  apply orderly_PullQuery, H2.
Qed.

Lemma orderly_QueryFailed vdr requestID t0 t :
  orderly t0 t -> wp (QueryFailed vdr requestID) (fun _ t' => orderly t0 t') t.
Proof.
  intros H. unfold QueryFailed. wp_run.
  destruct (negb (Ctx_IsBootstrapped t)); [wp_run; exact H|].
  wp_run. eapply wp_conseq; [apply (orderly_Register _ t0 t H)|].
  cbn beta. intros _ t2 H2. wp_run. exact H2.
Qed.

Lemma orderly_Chits fuel vdr requestID (votes : gset Z) t0 t :
  orderly t0 t -> wp (Chits fuel vdr requestID votes) (fun _ t' => orderly t0 t') t.
Proof.
  intros H. unfold Chits. wp_run.
  destruct (negb (Ctx_IsBootstrapped t)); [wp_run; exact H|].
  destruct (elements votes) as [|blkID [|blkID' l]];
    [apply orderly_QueryFailed, H| |apply orderly_QueryFailed, H].
  wp_run. eapply wp_conseq; [apply (orderly_issueFromByID fuel vdr blkID t0 t H)|].
  cbn beta. intros [added [e|]] t1 H1; [wp_run; exact H1|].
  wp_run. eapply wp_conseq; [apply (orderly_Register _ t0 t1 H1)|].
  cbn beta. intros _ t2 H2. wp_run. exact H2.
Qed.

Lemma orderly_Notify fuel msg t0 t :
  orderly t0 t -> wp (Notify fuel msg) (fun _ t' => orderly t0 t') t.
Proof.
  intros H. unfold Notify. wp_run.
  destruct (negb (Ctx_IsBootstrapped t)); [wp_run; exact H|].
  destruct msg as [|code]; [|wp_run; exact H].
  wp_run. destruct (VM_BuildBlock (world t)) as [w1 built]. cbn [fst snd].
  destruct built as [b|e]; [|wp_run; ord].
  wp_run. destruct (negb (choices.eqb _ _)); [wp_run; ord|].
  destruct (_ || _); [wp_run; ord|].
  wp_run.
  eapply wp_conseq.
  { apply (orderly_issueWithAncestors fuel (VMBlk b) t0). apply orderly_pin. ord. }
  cbn beta. intros r t2 H2. destruct (r.2); wp_run; exact H2.
Qed.

Lemma orderly_finishBootstrapping_options options t0 : forall t,
  orderly t0 t ->
  wp (finishBootstrapping_options options) (fun _ t' => orderly t0 t') t.
Proof.
  induction options as [|o options IH]; intros t H;
    cbn [finishBootstrapping_options]; [wp_run; exact H|].
  wp_run. eapply wp_conseq; [apply (orderly_deliver (VMBlk o) t0 t H)|].
  cbn beta. intros [e|] t1 H1; [wp_run; exact H1|]. apply IH, H1.
Qed.

Lemma orderly_finishBootstrapping t0 t :
  orderly t0 t -> wp finishBootstrapping (fun _ t' => orderly t0 t') t.
Proof.
  intros H. unfold finishBootstrapping. wp_run.
  set (t1 := set_world _ t). assert (H1 : orderly t0 t1) by (subst t1; ord).
  destruct (VM_GetBlock (world t1) (VM_LastAccepted (world t))) as [b|e];
    [|wp_run; exact H1].
  wp_run. destruct (Block_Options (world t1) (VMBlk b)) as [[options|e]|].
  - apply orderly_finishBootstrapping_options, H1.
  - wp_run. exact H1.
  - wp_run. ord.
Qed.

(** No handler changes the parameters or the bootstrapping flag, and in
    the calls a handler makes every [Consensus.Add] comes right after the
    [Verify] of the same block. *)
Lemma reachable_verified_adds D IntLen Max t :
  reachable D IntLen Max t -> verified_adds (calls t).
Proof.
  assert (Hstep : forall t t', verified_adds (calls t) -> orderly t t' ->
                               verified_adds (calls t')).
  { intros t1 t2 Hv [(l & -> & Hl) _ _]. apply verified_adds_app; assumption. }
  induction 1 as [params w
                 |t t' Hr IH Hb Hrun
                 |t Hr IH
                 |t vdr requestID blkID Hr IH
                 |t vdr requestID blkID Hr IH
                 |t fuel vdr requestID blkID blkBytes e t' Hr IH Hrun
                 |t vdr requestID e t' Hr IH Hrun
                 |t fuel vdr requestID blkID e t' Hr IH Hrun
                 |t fuel vdr requestID blkID blkBytes e t' Hr IH Hrun
                 |t fuel vdr requestID votes e t' Hr IH Hrun
                 |t vdr requestID e t' Hr IH Hrun
                 |t fuel msg e t' Hr IH Hrun].
  - apply verified_adds_nil.
  - change (calls (set_Ctx_IsBootstrapped true t')) with (calls t').
    apply (Hstep t _ IH).
    apply (orderly_finishBootstrapping t t (orderly_refl t) _ _ Hrun).
  - apply (Hstep t _ IH), orderly_Gossip, orderly_refl.
  - apply (Hstep t _ IH), orderly_Get, orderly_refl.
  - apply (Hstep t _ IH), orderly_GetAncestors, orderly_refl.
  - apply (Hstep t _ IH), (orderly_Put _ _ _ _ _ t t (orderly_refl t) _ _ Hrun).
  - apply (Hstep t _ IH), (orderly_GetFailed _ _ t t (orderly_refl t) _ _ Hrun).
  - apply (Hstep t _ IH), (orderly_PullQuery _ _ _ _ t t (orderly_refl t) _ _ Hrun).
  - apply (Hstep t _ IH), (orderly_PushQuery _ _ _ _ _ t t (orderly_refl t) _ _ Hrun).
  - apply (Hstep t _ IH), (orderly_Chits _ _ _ _ t t (orderly_refl t) _ _ Hrun).
  - apply (Hstep t _ IH), (orderly_QueryFailed _ _ t t (orderly_refl t) _ _ Hrun).
  - apply (Hstep t _ IH), (orderly_Notify _ _ t t (orderly_refl t) _ _ Hrun).
Qed.

(** X1.  In every reachable state, every call of [Consensus.Add] the engine
    has made came right after a call of [Verify] on the same block, and that
    [Verify] returned no error: the state [w] of the collaborators in which
    [Add(blk)] is called is the one that the successful [blk.Verify()] left.
    No block is handed to Consensus without having just passed
    verification. *)
Theorem Add_preceded_by_Verify D IntLen Max t :
  reachable D IntLen Max t ->
  forall l1 w blk l2,
    calls t = l1 ++ Consensus_Add_called w blk :: l2 ->
    exists l0 w0,
      l1 = l0 ++ [Block_Verify_called blk]
      /\ Block_Verify w0 blk = (w, None).
Proof. intros Hr. apply (reachable_verified_adds D IntLen Max t Hr). Qed.

(** What an engine that has not finished bootstrapping has done. *)
Lemma reachable_bootstrapping_serves D IntLen Max t :
  reachable D IntLen Max t ->
  Ctx_IsBootstrapped t = false -> Forall serving (calls t).
Proof.
  assert (Hguard : forall (h : M (option error)) t e t',
             (Ctx_IsBootstrapped t = false -> Forall serving (calls t)) ->
             (Ctx_IsBootstrapped t = false -> h t = Some (None, t)) ->
             wp h (fun _ t' => orderly t t') t ->
             h t = Some (e, t') ->
             Ctx_IsBootstrapped t' = false -> Forall serving (calls t')).
  { intros h t1 e t' IH Hnoop Hord Hrun Hb'.
    pose proof (ord_boot _ _ (Hord e t' Hrun)) as Hb. rewrite Hb' in Hb.
    symmetry in Hb. rewrite (Hnoop Hb) in Hrun. injection Hrun as _ <-.
    apply IH, Hb. }
  induction 1 as [params w
                 |t t' Hr IH Hb Hrun
                 |t Hr IH
                 |t vdr requestID blkID Hr IH
                 |t vdr requestID blkID Hr IH
                 |t fuel vdr requestID blkID blkBytes e t' Hr IH Hrun
                 |t vdr requestID e t' Hr IH Hrun
                 |t fuel vdr requestID blkID e t' Hr IH Hrun
                 |t fuel vdr requestID blkID blkBytes e t' Hr IH Hrun
                 |t fuel vdr requestID votes e t' Hr IH Hrun
                 |t vdr requestID e t' Hr IH Hrun
                 |t fuel msg e t' Hr IH Hrun].
  - intros _. constructor.
  - discriminate.
  - intros Hb. rewrite (ord_boot _ _ (orderly_Gossip t t (orderly_refl t))) in Hb.
    specialize (IH Hb). unfold Gossip.
    pose proof (GetBlock_calls (VM_LastAccepted (world t)) t) as Hc.
    destruct (GetBlock _ t) as [[blk|e] t1]; cbn [fst snd] in *.
    + cbn. rewrite Hc. apply Forall_app. split; [exact IH|]. repeat constructor.
    + rewrite Hc. exact IH.
  - intros Hb.
    rewrite (ord_boot _ _ (orderly_Get vdr requestID blkID t t (orderly_refl t))) in Hb.
    specialize (IH Hb). unfold Get.
    pose proof (GetBlock_calls blkID t) as Hc.
    destruct (GetBlock _ t) as [[blk|e] t1]; cbn [fst snd] in *.
    + cbn. rewrite Hc. apply Forall_app. split; [exact IH|]. repeat constructor.
    + rewrite Hc. exact IH.
  - intros Hb.
    rewrite (ord_boot _ _ (orderly_GetAncestors D IntLen Max vdr requestID blkID t t
                             (orderly_refl t))) in Hb.
    specialize (IH Hb). unfold GetAncestors.
    pose proof (GetBlock_calls blkID t) as Hc.
    destruct (GetBlock _ t) as [[blk|e] t1]; cbn [fst snd] in *;
      [|rewrite Hc; exact IH].
    destruct (GetAncestors_loop_appends D IntLen Max (Z.to_nat (Max - 1)) 1 blk
                [Block_Bytes blk] (len (Block_Bytes blk) + IntLen) t1)
      as (more & _ & _ & _ & Hcalls).
    destruct (GetAncestors_loop _ _ _ _ _ _ _ _ _) as [cs t2]. cbn [fst snd] in *.
    cbn. rewrite Hcalls, Hc. apply Forall_app. split; [exact IH|]. repeat constructor.
  - apply (Hguard (Put fuel vdr requestID blkID blkBytes) t e t' IH);
      [|apply orderly_Put, orderly_refl|exact Hrun].
    intros Hb. apply (guarded_handlers_noop t Hb).
  - apply (Hguard (GetFailed vdr requestID) t e t' IH);
      [|apply orderly_GetFailed, orderly_refl|exact Hrun].
    intros Hb. apply (guarded_handlers_noop t Hb).
  - apply (Hguard (PullQuery fuel vdr requestID blkID) t e t' IH);
      [|apply orderly_PullQuery, orderly_refl|exact Hrun].
    intros Hb. apply (guarded_handlers_noop t Hb).
  - apply (Hguard (PushQuery fuel vdr requestID blkID blkBytes) t e t' IH);
      [|apply orderly_PushQuery, orderly_refl|exact Hrun].
    intros Hb. apply (guarded_handlers_noop t Hb).
  - apply (Hguard (Chits fuel vdr requestID votes) t e t' IH);
      [|apply orderly_Chits, orderly_refl|exact Hrun].
    intros Hb. apply (guarded_handlers_noop t Hb).
  - apply (Hguard (QueryFailed vdr requestID) t e t' IH);
      [|apply orderly_QueryFailed, orderly_refl|exact Hrun].
    intros Hb. apply (guarded_handlers_noop t Hb).
  - apply (Hguard (Notify fuel msg) t e t' IH);
      [|apply orderly_Notify, orderly_refl|exact Hrun].
    intros Hb. apply (guarded_handlers_noop t Hb).
Qed.

(** X4.  Until the hand-over from the Bootstrapper, the engine only serves
    blocks: in a reachable state in which [IsBootstrapped()] is false, every
    call made so far is a [Put], a [MultiPut] or a [Gossip] sent to a peer;
    no block has been verified or added to Consensus, nothing has been
    requested, queried or registered with the Blocker. *)
Theorem bootstrapping_only_serves D IntLen Max t :
  reachable D IntLen Max t ->
  IsBootstrapped t = false ->
  forall e, In e (calls t) -> serving e.
Proof.
  intros Hr Hb e Hin.
  pose proof (reachable_bootstrapping_serves D IntLen Max t Hr Hb) as H.
  rewrite Forall_forall in H. apply H, list_elem_of_In, Hin.
Qed.

(** X27.  No message handler ([Get], [GetAncestors], [Put], [GetFailed],
    [PullQuery], [PushQuery], [Chits], [QueryFailed]), nor [Gossip],
    [Notify] or [finishBootstrapping], changes the parameters or turns the
    bootstrapping flag on or off: [IsBootstrapped()] is set from outside
    the engine only. *)
Theorem handlers_keep_configuration t :
  (forall vdr requestID blkID,
      Params (Get vdr requestID blkID t).2 = Params t
      /\ IsBootstrapped (Get vdr requestID blkID t).2 = IsBootstrapped t)
  /\ (forall D IntLen Max vdr requestID blkID,
         Params (GetAncestors D IntLen Max vdr requestID blkID t).2 = Params t
         /\ IsBootstrapped (GetAncestors D IntLen Max vdr requestID blkID t).2
            = IsBootstrapped t)
  /\ (Params (Gossip t).2 = Params t
      /\ IsBootstrapped (Gossip t).2 = IsBootstrapped t)
  /\ (forall fuel vdr requestID blkID blkBytes e t',
      Put fuel vdr requestID blkID blkBytes t = Some (e, t') ->
      Params t' = Params t /\ IsBootstrapped t' = IsBootstrapped t)
  /\ (forall vdr requestID e t',
         GetFailed vdr requestID t = Some (e, t') ->
         Params t' = Params t /\ IsBootstrapped t' = IsBootstrapped t)
  /\ (forall fuel vdr requestID blkID e t',
         PullQuery fuel vdr requestID blkID t = Some (e, t') ->
         Params t' = Params t /\ IsBootstrapped t' = IsBootstrapped t)
  /\ (forall fuel vdr requestID blkID blkBytes e t',
         PushQuery fuel vdr requestID blkID blkBytes t = Some (e, t') ->
         Params t' = Params t /\ IsBootstrapped t' = IsBootstrapped t)
  /\ (forall fuel vdr requestID votes e t',
         Chits fuel vdr requestID votes t = Some (e, t') ->
         Params t' = Params t /\ IsBootstrapped t' = IsBootstrapped t)
  /\ (forall vdr requestID e t',
         QueryFailed vdr requestID t = Some (e, t') ->
         Params t' = Params t /\ IsBootstrapped t' = IsBootstrapped t)
  /\ (forall fuel msg e t',
         Notify fuel msg t = Some (e, t') ->
         Params t' = Params t /\ IsBootstrapped t' = IsBootstrapped t)
  /\ (forall e t',
         finishBootstrapping t = Some (e, t') ->
         Params t' = Params t /\ IsBootstrapped t' = IsBootstrapped t).
Proof.
  assert (H : forall (h : M (option error)),
             wp h (fun _ t' => orderly t t') t ->
             forall e t', h t = Some (e, t') ->
                          Params t' = Params t /\ IsBootstrapped t' = IsBootstrapped t).
  { intros h Hord e t' Hrun. destruct (Hord e t' Hrun) as [_ Hp Hb]. auto. }
  assert (H' : forall t', orderly t t' ->
                          Params t' = Params t /\ IsBootstrapped t' = IsBootstrapped t).
  { intros t' [_ Hp Hb]. auto. }
  split; [intros; apply H', orderly_Get, orderly_refl|].
  split; [intros; apply H', orderly_GetAncestors, orderly_refl|].
  split; [apply H', orderly_Gossip, orderly_refl|].
  repeat split; intros; eapply H; try eassumption.
  - apply orderly_Put, orderly_refl.
  - apply orderly_Put, orderly_refl.
  - apply orderly_GetFailed, orderly_refl.
  - apply orderly_GetFailed, orderly_refl.
  - apply orderly_PullQuery, orderly_refl.
  - apply orderly_PullQuery, orderly_refl.
  - apply orderly_PushQuery, orderly_refl.
  - apply orderly_PushQuery, orderly_refl.
  - apply orderly_Chits, orderly_refl.
  - apply orderly_Chits, orderly_refl.
  - apply orderly_QueryFailed, orderly_refl.
  - apply orderly_QueryFailed, orderly_refl.
  - apply orderly_Notify, orderly_refl.
  - apply orderly_Notify, orderly_refl.
  - apply orderly_finishBootstrapping, orderly_refl.
  - apply orderly_finishBootstrapping, orderly_refl.
Qed.

End Orderly.

Section HappyPath.

Context {World : Type} `{Collab : Collaborators World}.

Implicit Types (t : @Transitive World) (blk : Block) (vdr requestID blkID : Z).

Notation "x <- m ;; k" := (bind m (fun x => k))
  (at level 100, m at next level, right associativity).
Notation "m ;;; k" := (bind m (fun _ => k))
  (at level 100, right associativity).

(** ** A block whose parent is issued *)

Ltac wp_run :=
  repeat (cbn beta;
          lazymatch goal with
          | |- wp (bind _ _) _ _ => apply wp_bind
          | |- wp (get _) _ _ => apply wp_get
          | |- wp (lift _) _ _ => apply wp_lift
          | |- wp (lift' _) _ _ => apply wp_lift'
          | |- wp (ret _) _ _ => apply wp_ret
          | |- wp (fun _ => None) _ _ => apply wp_stuck
          end); cbn beta.

(** [deliver] on a block that is not issued and passes [Verify]: the
    calls start with [Verify] and [Add]. *)
Lemma deliver_calls_Verify_Add blk t w1 :
  Consensus_Issued (world t) blk = false ->
  Block_Verify (world t) blk = (w1, None) ->
  wp (deliver blk)
     (fun _ t' =>
        exists l, calls t' = calls t ++ Block_Verify_called blk
                                         :: Consensus_Add_called w1 blk :: l) t.
Proof.
  intros Hi Hv r t' Hrun. unfold deliver in Hrun. cbn [deliver_fuel] in Hrun.
  revert r t' Hrun.
  change (wp (deliver_body (deliver_fuel (length (blocked t))) blk)
            (fun _ t' =>
               exists l, calls t' = calls t ++ Block_Verify_called blk
                                                :: Consensus_Add_called w1 blk :: l) t).
  unfold deliver_body. apply wp_bind, wp_get. rewrite Hi.
  apply wp_bind, wp_lift. apply wp_bind, wp_lift'.
  cbn [world set_pending]. rewrite Hv. cbn [fst snd].
  apply wp_bind, wp_lift'. cbn [world emit set_calls set_world calls].
  destruct (Consensus_Add w1 blk) as [w2 r] eqn:Ha. cbn [fst snd].
  set (t3 := set_world w2 _).
  assert (Hc3 : calls t3 = calls t ++ [Block_Verify_called blk;
                                       Consensus_Add_called w1 blk]).
  { subst t3. cbn. rewrite <- app_assoc. reflexivity. }
  match goal with |- wp ?tail _ _ =>
    assert (Htail : wp tail (fun _ t' => orderly t3 t') t3)
  end.
  2:{ intros a t' Hrun. destruct (Htail a t' Hrun) as [(l & Hl & _) _ _].
      exists l. rewrite Hl, Hc3, <- app_assoc. reflexivity. }
  clearbody t3. clear Hc3 Ha Hv Hi.
  pose proof (orderly_refl t3) as H3. revert H3. generalize t3 at 1 3.
  intros t0 H3.
  destruct r as [rejected [e|]]; [wp_run; exact H3|].
  wp_run.
  eapply (wp_conseq _ (fun _ t4 => orderly t0 t4)).
  { destruct rejected; wp_run; [apply orderly_rejected_on_Add|]; exact H3. }
  cbn beta. intros _ t4 H4. wp_run.
  assert (Hrec : forall blk' t0' t1,
             orderly t0' t1 ->
             wp (deliver_fuel (length (blocked t)) blk') (fun _ t' => orderly t0' t') t1)
    by (intros; apply orderly_deliver_fuel; assumption).
  destruct (Block_Options (world t4) blk) as [[options|e]|].
  2:{ wp_run. exact H4. }
  all: wp_run.
  all: match goal with |- context [deliver_options ?i ?o ?a ?d ?t] =>
         pose proof (orderly_deliver_options i o a d t0 t H4) as H5;
         destruct (deliver_options i o a d t) as [[e|[added dropped]] t5]
       end; cbn [fst snd] in *.
  all: try (wp_run; exact H5).
  all: wp_run.
  all: eapply wp_conseq;
    [apply (orderly_Fulfill_with _ Hrec), orderly_pushSample,
       orderly_emit, orderly_set_world, H5; exact I|].
  all: cbn beta; intros _ t6 H6; wp_run.
  all: eapply wp_conseq; [apply (orderly_forM_added _ Hrec added t0 t6 H6)|].
  all: cbn beta; intros _ t7 H7; wp_run.
  all: eapply wp_conseq; [apply (orderly_forM_dropped dropped t0 t7 H7)|].
  all: cbn beta; intros _ t8 H8; wp_run.
  all: apply orderly_repoll, H8.
Qed.

(** X28.  When the parent of [blk] is in the decided cache, or is loaded and
    issued, [issue(blk)] does not wait: the Issuer is registered with no
    dependency and runs at once, so a block that is not issued yet and
    passes [Verify] is handed to Consensus before [issue] returns. The calls
    made are the registration, [Verify(blk)] and [Add(blk)], in this order,
    followed by what [deliver] does next; the result is [errs.Err]. *)
Theorem issue_delivers_when_parent_issued blk t w1 :
  errs t = None ->
  Consensus_Issued (world t) blk = false ->
  Block_Verify (world t) blk = (w1, None) ->
  match LRU.lookup (Block_Parent blk) (decidedCache t) with
  | Some _ => True
  | None =>
      match (GetBlock (Block_Parent blk) t).1 with
      | inl parent => Consensus_Issued (world t) parent = true
      | inr _ => False
      end
  end ->
  exists r t' l,
    issue blk t = Some (r, t')
    /\ r = errs t'
    /\ calls t' = calls t ++ Blocker_Register {| deps := ∅; action := issuer blk |}
                          :: Block_Verify_called blk
                          :: Consensus_Add_called w1 blk :: l.
Proof.
  intros Herr Hi Hv Hp. unfold issue. rewrite !bind_lift, bind_lift'.
  set (t1 := set_blkReqs _ _).
  assert (Hpre : exists t3,
             (if ((let '(v, c) := LRU.Get (Block_Parent blk) (decidedCache t1) in
                   (bool_decide (v ≠ None), set_decidedCache c t1)).1 : bool)
              then ret true
              else
                parent <- lift' (GetBlock (Block_Parent blk)) ;;
                match parent with
                | inl parent => get (fun t => Consensus_Issued (world t) parent)
                | inr _ => ret false
                end)
               (let '(v, c) := LRU.Get (Block_Parent blk) (decidedCache t1) in
                (bool_decide (v ≠ None), set_decidedCache c t1)).2
             = Some (true, t3)
             /\ calls t3 = calls t /\ world t3 = world t /\ errs t3 = errs t).
  { pose proof (LRU_Get_result (Block_Parent blk) (decidedCache t1)) as Hr.
    change (decidedCache t1) with (decidedCache t) in *.
    destruct (LRU.lookup (Block_Parent blk) (decidedCache t)) as [v|] eqn:Hl.
    - destruct (LRU.Get (Block_Parent blk) (decidedCache t)) as [v' c].
      cbn [fst snd] in *. subst v'.
      rewrite bool_decide_eq_true_2 by discriminate.
      eexists. split; [reflexivity|]. repeat split.
    - rewrite (LRU_Get_miss _ _ Hl). cbn [fst snd].
      rewrite bool_decide_eq_false_2 by (intros H; apply H; reflexivity).
      rewrite bind_lift'.
      assert (Hg : (GetBlock (Block_Parent blk) (set_decidedCache (decidedCache t) t1)).1
                   = (GetBlock (Block_Parent blk) t).1).
      { rewrite !GetBlock_result. reflexivity. }
      destruct (GetBlock_state (Block_Parent blk) (set_decidedCache (decidedCache t) t1))
        as (c & Hst & _).
      rewrite Hg, Hst.
      destruct (GetBlock (Block_Parent blk) t).1 as [parent|e]; [|contradiction].
      unfold get. cbn [world set_droppedCache set_decidedCache]. subst t1.
      cbn [world set_blkReqs set_pending]. rewrite Hp.
      eexists. split; [reflexivity|]. repeat split. }
  destruct Hpre as (t3 & Hrun3 & Hc3 & Hw3 & He3).
  rewrite (bind_Some _ _ _ _ _ Hrun3). cbn iota.
  unfold Register, Register_with. rewrite bind_assoc, bind_lift.
  destruct (decide (deps {| deps := ∅; action := issuer blk |} = ∅)) as [_|Hne];
    [|exfalso; apply Hne; reflexivity].
  unfold Update. cbn [action]. rewrite bind_assoc, bind_get.
  unfold errs_Errored at 1. cbn [errs emit set_calls]. rewrite He3, Herr.
  set (t4 := emit _ t3).
  destruct (deliver_total blk t4) as (e & t5 & Hrun5 & _).
  pose proof (deliver_calls_Verify_Add blk t4 w1) as Hcalls.
  specialize (Hcalls ltac:(subst t4; cbn [world emit set_calls]; rewrite Hw3; exact Hi)
                     ltac:(subst t4; cbn [world emit set_calls]; rewrite Hw3; exact Hv)
                     e t5 Hrun5).
  destruct Hcalls as [l Hl].
  rewrite bind_assoc, (bind_Some _ _ _ _ _ Hrun5). rewrite bind_lift.
  exists (errs (errs_Add e t5)), (errs_Add e t5), l.
  split; [reflexivity|]. split; [reflexivity|].
  assert (Hce : calls (errs_Add e t5) = calls t5)
    by (unfold errs_Add; destruct (errs t5); reflexivity).
  rewrite Hce, Hl. subst t4. cbn [calls emit set_calls]. rewrite Hc3, <- app_assoc.
  reflexivity.
Qed.

(** ** Blocks that are already decided *)

(** X29.  [issueFromByID] for a block that is loaded and already Accepted or
    Rejected issues nothing and requests nothing: it returns [true], and the
    ID is in the decided cache afterwards, so that asking again is answered
    from the cache without loading the block. *)
Theorem issueFromByID_caches_decided fuel vdr blkID t blk :
  (GetBlock blkID t).1 = inl blk ->
  choices.Decided (Block_Status (world t) blk) = true ->
  exists t1,
    issueFromByID fuel vdr blkID t = Some ((true, None), t1)
    /\ LRU.lookup blkID (decidedCache t1) = Some tt
    /\ calls t1 = calls t /\ blkReqs t1 = blkReqs t /\ pending t1 = pending t
    /\ blocked t1 = blocked t /\ world t1 = world t
    /\ forall fuel' vdr',
         issueFromByID fuel' vdr' blkID t1
         = Some ((true, None),
                 set_decidedCache (LRU.Get blkID (decidedCache t1)).2 t1).
Proof.
  intros Hg Hd.
  assert (Hhit : forall t1 fuel' vdr',
             LRU.lookup blkID (decidedCache t1) = Some tt ->
             issueFromByID fuel' vdr' blkID t1
             = Some ((true, None),
                     set_decidedCache (LRU.Get blkID (decidedCache t1)).2 t1)).
  { intros t1 fuel' vdr' Hl. unfold issueFromByID. rewrite bind_lift'.
    unfold LRU.Get. rewrite Hl. cbn [fst snd].
    rewrite bool_decide_eq_true_2 by discriminate. reflexivity. }
  destruct (LRU.lookup blkID (decidedCache t)) as [[]|] eqn:Hl.
  - exists (set_decidedCache (LRU.Get blkID (decidedCache t)).2 t).
    split; [apply Hhit, Hl|].
    assert (Hl1 : LRU.lookup blkID
                    (decidedCache (set_decidedCache
                                     (LRU.Get blkID (decidedCache t)).2 t))
                  = Some tt).
    { cbn [decidedCache set_decidedCache]. rewrite LRU_Get_lookup. exact Hl. }
    split; [exact Hl1|]. repeat split. intros fuel' vdr'. apply Hhit, Hl1.
  - destruct (GetBlock_state blkID t) as (c & Hst & _).
    exists (set_decidedCache (LRU.Put decidedCacheSize blkID tt (decidedCache t))
              (set_droppedCache c t)).
    assert (Hl1 : LRU.lookup blkID
                    (LRU.Put decidedCacheSize blkID tt (decidedCache t)) = Some tt).
    { apply LRU_lookup_Put. unfold decidedCacheSize. lia. }
    split; [|split; [exact Hl1|repeat split; intros; apply Hhit, Hl1]].
    unfold issueFromByID. rewrite bind_lift'.
    rewrite (decidedCache_Get_miss blkID t Hl). cbn [fst snd].
    rewrite bind_lift'. rewrite Hg, Hst. rewrite bind_get.
    cbn [world set_droppedCache].
    destruct (Block_Status (world t) blk); try discriminate;
      rewrite bind_lift; reflexivity.
Qed.

(** ** A block built on an unknown parent *)

(** X30.  [issueWithAncestors] never asks a peer for a missing ancestor.
    When the parent of the block cannot be loaded and is not requested, the
    block is queued behind an Issuer that waits for the parent, and the
    walk, which goes on with the missing-block sentinel, ends at once and
    abandons the parent: [false] is returned, no continuation is left
    waiting for the parent, and no request has been sent. *)
Theorem issueWithAncestors_abandons_orphan fuel blk t e :
  errs t = None ->
  choices.Fetched (Block_Status (world t) blk) = true ->
  Consensus_Issued (world t) blk = false ->
  Block_ID blk ∉ pending t ->
  LRU.lookup (Block_Parent blk) (decidedCache t) = None ->
  (GetBlock (Block_Parent blk) t).1 = inr e ->
  Consensus_Issued (world t)
    (MissingBlk {| missing.BlkID := Block_Parent blk |}) = false ->
  Requests.Contains (Block_Parent blk)
    (Requests.RemoveAny (Block_ID blk) (blkReqs t)) = false ->
  exists t',
    issueWithAncestors (S (S fuel)) blk t = Some ((false, None), t')
    /\ (exists ids,
           calls t' = calls t
                      ++ Blocker_Register {| deps := {[Block_Parent blk]};
                                             action := issuer blk |}
                      :: (Blocker_Abandon <$> (Block_Parent blk :: ids)))
    /\ (forall c, c ∈ blocked t' -> Block_Parent blk ∉ deps c)
    /\ blkReqs t' = Requests.RemoveAny (Block_ID blk) (blkReqs t)
    /\ world t' = world t.
Proof.
  intros Herr Hf Hi Hpend Hd Hg Hmi Hreq.
  pose proof (issue_parent_unknown blk t e Hd Hg) as Hissue. cbn zeta in Hissue.
  rewrite Herr in Hissue. set (t1 := set_blocked _ _) in Hissue.
  assert (Hg1 : (GetBlock (Block_Parent blk) t1).1 = inr e).
  { rewrite <- Hg, !GetBlock_result. reflexivity. }
  apply GetBlock_miss in Hg1.
  destruct (Abandon_frame_ok (Block_Parent blk) t1)
    as (t' & Hrun & Hfr & [ids Hcalls] & Hno).
  pose proof (af_untouched _ _ Hfr) as Hu. unfold untouched_by_Abandon in Hu.
  exists t'. split; [|split; [|split; [exact Hno|split]]].
  - unfold issueWithAncestors. cbn [issueWithAncestors_loop].
    rewrite bind_assoc, bind_get, Hf, Hi.
    rewrite bool_decide_eq_false_2 by exact Hpend. cbn [negb andb].
    rewrite bind_assoc, (bind_Some _ _ _ _ _ Hissue). cbn iota.
    rewrite bind_assoc, bind_lift', Hg1. cbn [fst snd].
    rewrite bind_assoc, bind_get. cbn [Block_Status missing.Status choices.Fetched
                                         choices.Decided andb].
    rewrite bind_ret, bind_get.
    replace (Consensus_Issued (world t1) _) with false by (symmetry; exact Hmi).
    rewrite bind_get.
    replace (Requests.Contains (Block_Parent blk) (blkReqs t1)) with false
      by (symmetry; exact Hreq).
    rewrite (bind_Some _ _ _ _ _ Hrun), bind_get.
    replace (errs t') with (@None error); [reflexivity|].
    transitivity (errs t1); [symmetry; exact Herr|congruence].
  - exists ids. rewrite Hcalls. subst t1. cbn [calls set_blocked emit set_calls
                                                 set_blkReqs set_pending].
    rewrite <- app_assoc. reflexivity.
  - transitivity (blkReqs t1); [congruence|reflexivity].
  - transitivity (world t1); [congruence|reflexivity].
Qed.

End HappyPath.

Section NoError.

Context {World : Type} `{Collab : Collaborators World} {faultless : Faultless}.

Implicit Types (t : @Transitive World) (blk : Block) (vdr requestID blkID : Z).

Notation "x <- m ;; k" := (bind m (fun x => k))
  (at level 100, m at next level, right associativity).
Notation "m ;;; k" := (bind m (fun _ => k))
  (at level 100, right associativity).

(** ** The engine raises no error of its own *)

Ltac wp_run :=
  repeat (cbn beta;
          lazymatch goal with
          | |- wp (bind _ _) _ _ => apply wp_bind
          | |- wp (get _) _ _ => apply wp_get
          | |- wp (lift _) _ _ => apply wp_lift
          | |- wp (lift' _) _ _ => apply wp_lift'
          | |- wp (ret _) _ _ => apply wp_ret
          | |- wp (fun _ => None) _ _ => apply wp_stuck
          end); cbn beta.

(** No error recorded, and none returned. *)
Local Abbreviation clean := (fun (_ : unit) t' => errs t' = None).
Local Abbreviation fine := (fun (e : option error) t' => e = None /\ errs t' = None).
Local Abbreviation fine2 :=
  (fun (r : bool * option error) t' => r.2 = None /\ errs t' = None).

Lemma GetBlock_errs id t : errs (GetBlock id t).2 = errs t.
Proof.
  unfold GetBlock. destruct (processing t !! id); [reflexivity|].
  destruct (LRU.Get id (droppedCache t)) as [[b|] c]; [reflexivity|].
  destruct (VM_GetBlock (world t) id); reflexivity.
Qed.

Lemma sendRequest_errs vdr blkID t : errs (sendRequest vdr blkID t) = errs t.
Proof. unfold sendRequest. destruct (Requests.Contains _ _); reflexivity. Qed.

Lemma pullSample_errs blkID t : errs (pullSample blkID t) = errs t.
Proof.
  unfold pullSample. destruct (Validators_Sample _ _) as [w [l|e]]; [|reflexivity].
  destruct (poll.Add _ _ _) as [[] s]; reflexivity.
Qed.

Lemma pushSample_errs blk t : errs (pushSample blk t) = errs t.
Proof.
  unfold pushSample. destruct (Validators_Sample _ _) as [w [l|e]]; [|reflexivity].
  destruct (poll.Add _ _ _) as [[] s]; reflexivity.
Qed.

Lemma repoll_errs t : errs (repoll t) = errs t.
Proof.
  unfold repoll. generalize (Consensus_Preference (world t)) as prefID.
  generalize (Z.to_nat (snowball.ConcurrentRepolls (Params t) - poll.Len (polls t))) as n.
  intros n prefID. revert t. induction n as [|n IH]; intros t; cbn [repoll_loop];
    [reflexivity|]. rewrite IH. apply pullSample_errs.
Qed.

Lemma convincer_Update_errs vdr requestID t :
  errs (convincer_Update vdr requestID t) = errs t.
Proof. unfold convincer_Update. destruct (errs_Errored t); reflexivity. Qed.

Lemma voter_Update_clean vdr requestID response t :
  errs t = None -> errs (voter_Update vdr requestID response t) = None.
Proof.
  intros H. unfold voter_Update. destruct (errs_Errored t); [exact H|].
  destruct (poll.Vote _ _ _ _ _) as [[votes|] s]; [|exact H].
  cbn [world set_polls].
  pose proof (RecordPoll_never_fails (world t) votes) as Hp.
  destruct (Consensus_RecordPoll (world t) votes) as [w [decided e]].
  cbn [snd] in Hp. subst e.
  match goal with |- errs (if errs_Errored ?t1 then _ else _) = _ =>
    assert (H1 : errs t1 = None)
      by (unfold errs_Add; cbn [errs emit set_calls set_world set_polls];
          rewrite H; reflexivity);
    destruct (errs_Errored t1); [exact H1|]; revert H1; generalize t1
  end.
  intros t1 H1. rewrite repoll_errs. revert t1 H1.
  induction decided as [|id decided IH]; intros t1 H1; cbn [foldl]; [exact H1|].
  apply IH. exact H1.
Qed.

Lemma rejected_on_Add_errs blkID evictID t :
  errs (rejected_on_Add blkID evictID t) = errs t.
Proof. reflexivity. Qed.

Lemma deliver_options_clean blkID options : forall added dropped t,
  errs (deliver_options blkID options added dropped t).2 = errs t
  /\ exists res, (deliver_options blkID options added dropped t).1 = inr res.
Proof.
  induction options as [|o options IH]; intros added dropped t;
    cbn [deliver_options].
  { split; [reflexivity|]. eexists. reflexivity. }
  destruct (Block_Verify (world t) (VMBlk o)) as [w verr].
  destruct verr as [e|].
  { destruct (IH added (dropped ++ [VMBlk o])
                (emit (Block_Verify_called (VMBlk o)) (set_world w t))) as [He Hr].
    split; [rewrite He; reflexivity|exact Hr]. }
  cbn [world emit set_calls set_world].
  pose proof (Add_never_fails w (VMBlk o)) as Ha.
  destruct (Consensus_Add w (VMBlk o)) as [w2 [rejected e]]. cbn [snd] in Ha. subst e.
  match goal with |- context [deliver_options blkID options ?a ?d ?t1] =>
    destruct (IH a d t1) as [He Hr] end.
  split; [rewrite He; destruct rejected; reflexivity|exact Hr].
Qed.

Lemma Abandon_errs id t : wp (Abandon id) (fun _ t' => errs t' = errs t) t.
Proof.
  intros a t' Hrun.
  destruct (Abandon_frame_ok id t) as (t2 & Hrun2 & Hfr & _ & _).
  assert (t2 = t') by congruence. subst t2.
  pose proof (af_untouched _ _ Hfr) as Hu. unfold untouched_by_Abandon in Hu.
  congruence.
Qed.

Lemma Abandon_clean id t : errs t = None -> wp (Abandon id) clean t.
Proof.
  intros H. eapply wp_conseq; [apply Abandon_errs|]. cbn beta. intros _ t' ->. exact H.
Qed.

Section Nested.

(** The nested calls of [deliver] are assumed to raise no error; this is
    discharged by induction on the nesting depth. *)
Variable deliver_rec : Block -> @M World (option error).
Hypothesis deliver_rec_fine : forall blk t,
  errs t = None -> wp (deliver_rec blk) fine t.

Lemma Update_clean c t : errs t = None -> wp (Update deliver_rec c) clean t.
Proof.
  intros H. unfold Update. destruct (action c) as [blk|vdr rid|vdr rid resp].
  - wp_run. destruct (errs_Errored t); wp_run; [exact H|].
    eapply wp_conseq; [apply (deliver_rec_fine blk t H)|].
    cbn beta. intros e t' [-> H']. wp_run. unfold errs_Add. rewrite H'. reflexivity.
  - wp_run. rewrite convincer_Update_errs. exact H.
  - wp_run. apply voter_Update_clean, H.
Qed.

Lemma forM_Update_clean l : forall t,
  errs t = None -> wp (forM (Update deliver_rec) l) clean t.
Proof.
  induction l as [|c l IH]; intros t H; cbn [forM].
  - wp_run. exact H.
  - wp_run. eapply wp_conseq; [apply (Update_clean c t H)|].
    cbn beta. intros _ t1 H1. apply IH, H1.
Qed.

Lemma Register_with_clean c t :
  errs t = None -> wp (Register_with deliver_rec c) clean t.
Proof.
  intros H. unfold Register_with. wp_run.
  destruct (decide (deps c = ∅)); [apply Update_clean; exact H|]. wp_run. exact H.
Qed.

Lemma Fulfill_with_clean id t :
  errs t = None -> wp (Fulfill_with deliver_rec id) clean t.
Proof.
  intros H. unfold Fulfill_with. wp_run. apply forM_Update_clean. exact H.
Qed.

Lemma forM_added_clean added : forall t,
  errs t = None ->
  wp (forM (fun blk =>
              lift (pushSample blk) ;;;
              let blkID := Block_ID blk in
              lift (fun t => set_pending (pending t ∖ {[blkID]}) t) ;;;
              Fulfill_with deliver_rec blkID) added) clean t.
Proof.
  induction added as [|b added IH]; intros t H; cbn [forM].
  - wp_run. exact H.
  - wp_run. eapply wp_conseq.
    + apply Fulfill_with_clean. cbn [errs set_pending]. rewrite pushSample_errs.
      exact H.
    + cbn beta. intros _ t1 H1. apply IH, H1.
Qed.

Lemma forM_dropped_clean dropped : forall t,
  errs t = None ->
  wp (forM (fun blk =>
              let blkID := Block_ID blk in
              lift (fun t => set_pending (pending t ∖ {[blkID]}) t) ;;;
              Abandon blkID) dropped) clean t.
Proof.
  induction dropped as [|b dropped IH]; intros t H; cbn [forM].
  - wp_run. exact H.
  - wp_run. eapply wp_conseq; [apply Abandon_clean; exact H|].
    cbn beta. intros _ t1 H1. apply IH, H1.
Qed.

Lemma deliver_body_fine blk t :
  errs t = None -> wp (deliver_body deliver_rec blk) fine t.
Proof.
  intros H. unfold deliver_body. wp_run.
  destruct (Consensus_Issued (world t) blk); [wp_run; split; [reflexivity|exact H]|].
  wp_run. cbn [world set_pending].
  destruct (Block_Verify (world t) blk) as [w1 [e|]]; cbn [fst snd].
  { wp_run. eapply wp_conseq; [apply Abandon_clean; exact H|].
    cbn beta. intros _ t2 H2. wp_run. split; exact H2. }
  wp_run. cbn [world emit set_calls set_world].
  pose proof (Add_never_fails w1 blk) as Ha.
  destruct (Consensus_Add w1 blk) as [w2 [rejected e]]; cbn [fst snd] in *. subst e.
  wp_run.
  eapply (wp_conseq _ (fun _ t3 => errs t3 = None)).
  { destruct rejected; wp_run; exact H. }
  cbn beta. intros _ t3 H3. wp_run.
  assert (Hopt : forall e, Block_Options (world t3) blk ≠ Some (inr e)).
  { intros e. unfold Block_Options. destruct blk as [b|mb]; [|discriminate].
    destruct (vmOracle b); [|discriminate]. intros [= Ho].
    exact (Options_never_fails _ _ _ Ho). }
  destruct (Block_Options (world t3) blk) as [[options|e]|].
  2:{ exfalso. apply (Hopt e). reflexivity. }
  all: wp_run.
  all: match goal with |- context [deliver_options ?i ?o ?a ?d ?t] =>
         destruct (deliver_options_clean i o a d t) as [H4 [res Hres]];
         destruct (deliver_options i o a d t) as [r t4]
       end; cbn [fst snd] in *; subst r; destruct res as [added dropped].
  all: rewrite H3 in H4.
  all: wp_run.
  all: eapply wp_conseq;
    [apply Fulfill_with_clean; rewrite pushSample_errs; exact H4|].
  all: cbn beta; intros _ t5 H5; wp_run.
  all: eapply wp_conseq; [apply (forM_added_clean added t5 H5)|].
  all: cbn beta; intros _ t6 H6; wp_run.
  all: eapply wp_conseq; [apply (forM_dropped_clean dropped t6 H6)|].
  all: cbn beta; intros _ t7 H7; wp_run.
  all: rewrite repoll_errs; split; exact H7.
Qed.

End Nested.

Lemma deliver_fuel_fine n : forall blk t,
  errs t = None -> wp (deliver_fuel n blk) fine t.
Proof.
  induction n as [|n IH]; intros blk t H; cbn [deliver_fuel]; [apply wp_stuck|].
  apply deliver_body_fine; assumption.
Qed.

Lemma deliver_fine blk t : errs t = None -> wp (deliver blk) fine t.
Proof.
  intros H a t' Hrun. unfold deliver in Hrun.
  exact (deliver_fuel_fine _ blk t H a t' Hrun).
Qed.

Lemma Register_clean c t : errs t = None -> wp (Register c) clean t.
Proof. intros H. unfold Register. apply Register_with_clean; [|exact H]. apply deliver_fine. Qed.

Lemma decidedCache_Get_errs id t :
  errs (let '(v, c) := LRU.Get id (decidedCache t) in
        (bool_decide (v ≠ None), set_decidedCache c t)).2 = errs t.
Proof. destruct (LRU.Get id (decidedCache t)) as [v c]. reflexivity. Qed.

Lemma issue_fine blk t : errs t = None -> wp (issue blk) fine t.
Proof.
  intros H. unfold issue. wp_run.
  set (t1 := set_blkReqs _ (set_pending _ t)).
  assert (H1 : errs t1 = None) by exact H.
  pose proof (decidedCache_Get_errs (Block_Parent blk) t1) as H2.
  destruct (let '(v, c) := LRU.Get (Block_Parent blk) (decidedCache t1) in
            (bool_decide (v ≠ None), set_decidedCache c t1)) as [inCache t2].
  cbn [fst snd] in *. rewrite H1 in H2.
  eapply (wp_conseq _ (fun _ t3 => errs t3 = None)).
  { destruct inCache; wp_run; [exact H2|].
    pose proof (GetBlock_errs (Block_Parent blk) t2) as H3.
    destruct (GetBlock (Block_Parent blk) t2) as [[parent|e] t3]; cbn [fst snd] in *;
      wp_run; congruence. }
  cbn beta. intros parentIssued t3 H3. wp_run.
  eapply wp_conseq; [apply Register_clean, H3|].
  cbn beta. intros _ t4 H4. wp_run. split; exact H4.
Qed.

Lemma issueFrom_loop_fine n vdr : forall blk blkID t,
  errs t = None -> wp (issueFrom_loop n vdr blk blkID) fine2 t.
Proof.
  induction n as [|n IH]; intros blk blkID t H; cbn [issueFrom_loop];
    [apply wp_stuck|].
  wp_run.
  destruct (negb (Consensus_Issued (world t) blk) && negb (bool_decide (blkID ∈ pending t)));
    [|wp_run; split; [reflexivity|exact H]].
  wp_run. eapply wp_conseq; [apply (issue_fine blk t H)|].
  cbn beta. intros err t1 [-> H1]. wp_run.
  pose proof (decidedCache_Get_errs (Block_Parent blk) t1) as H2.
  destruct (let '(v, c) := LRU.Get (Block_Parent blk) (decidedCache t1) in
            (bool_decide (v ≠ None), set_decidedCache c t1)) as [decided t2].
  cbn [fst snd] in *. rewrite H1 in H2.
  destruct decided; [wp_run; split; [reflexivity|exact H2]|].
  wp_run. pose proof (GetBlock_errs (Block_Parent blk) t2) as H3. rewrite H2 in H3.
  destruct (GetBlock (Block_Parent blk) t2) as [[blk'|e] t3]; cbn [fst snd] in *.
  - wp_run. destruct (choices.Fetched (Block_Status (world t3) blk')).
    + apply IH, H3.
    + wp_run. split; [reflexivity|]. rewrite sendRequest_errs. exact H3.
  - wp_run. split; [reflexivity|]. rewrite sendRequest_errs. exact H3.
Qed.

Lemma issueFromByID_fine fuel vdr blkID t :
  errs t = None -> wp (issueFromByID fuel vdr blkID) fine2 t.
Proof.
  intros H. unfold issueFromByID. wp_run.
  pose proof (decidedCache_Get_errs blkID t) as H2.
  destruct (let '(v, c) := LRU.Get blkID (decidedCache t) in
            (bool_decide (v ≠ None), set_decidedCache c t)) as [decided t2].
  cbn [fst snd] in *. rewrite H in H2.
  destruct decided; [wp_run; split; [reflexivity|exact H2]|].
  wp_run. pose proof (GetBlock_errs blkID t2) as H3. rewrite H2 in H3.
  destruct (GetBlock blkID t2) as [[blk|e] t3]; cbn [fst snd] in *.
  2:{ wp_run. split; [reflexivity|]. rewrite sendRequest_errs. exact H3. }
  wp_run.
  destruct (Block_Status (world t3) blk);
    try (apply issueFrom_loop_fine, H3); wp_run; (split; [reflexivity|exact H3]).
Qed.

Lemma issueWithAncestors_loop_fine n : forall blk blkID t,
  errs t = None ->
  wp (issueWithAncestors_loop n blk blkID)
     (fun r t' => match r with inl res => res.2 = None | inr _ => True end
                  /\ errs t' = None) t.
Proof.
  induction n as [|n IH]; intros blk blkID t H; cbn [issueWithAncestors_loop];
    [apply wp_stuck|].
  wp_run.
  destruct (choices.Fetched (Block_Status (world t) blk)
            && negb (Consensus_Issued (world t) blk)
            && negb (bool_decide (blkID ∈ pending t)));
    [|wp_run; split; [exact I|exact H]].
  wp_run. eapply wp_conseq; [apply (issue_fine blk t H)|].
  cbn beta. intros err t1 [-> H1]. wp_run.
  pose proof (GetBlock_errs (Block_Parent blk) t1) as H3. rewrite H1 in H3.
  destruct (GetBlock (Block_Parent blk) t1) as [[blk'|e] t3]; cbn [fst snd] in *;
    apply IH, H3.
Qed.

Lemma issueWithAncestors_fine fuel blk t :
  errs t = None -> wp (issueWithAncestors fuel blk) fine2 t.
Proof.
  intros H. unfold issueWithAncestors. wp_run.
  eapply wp_conseq; [apply (issueWithAncestors_loop_fine fuel blk _ t H)|].
  cbn beta. intros r t1 [Hr H1]. destruct r as [res|[blk' blkID']];
    [wp_run; split; assumption|].
  wp_run. destruct (Consensus_Issued (world t1) blk');
    [wp_run; split; [reflexivity|exact H1]|].
  wp_run. destruct (Requests.Contains blkID' (blkReqs t1));
    [wp_run; split; [reflexivity|exact H1]|].
  wp_run. eapply wp_conseq; [apply (Abandon_clean blkID' t1 H1)|].
  cbn beta. intros _ t2 H2. wp_run. split; exact H2.
Qed.

Lemma GetFailed_fine vdr requestID t :
  errs t = None -> wp (GetFailed vdr requestID) fine t.
Proof.
  intros H. unfold GetFailed. wp_run.
  destruct (negb (Ctx_IsBootstrapped t)); [wp_run; split; [reflexivity|exact H]|].
  wp_run. destruct (Requests.Remove vdr requestID (blkReqs t)) as [[blkID|] reqs];
    cbn [fst snd].
  - wp_run. eapply wp_conseq; [apply Abandon_clean; exact H|].
    cbn beta. intros _ t1 H1. wp_run. split; exact H1.
  - wp_run. split; [reflexivity|exact H].
Qed.

Lemma Put_fine fuel vdr requestID blkID blkBytes t :
  errs t = None -> wp (Put fuel vdr requestID blkID blkBytes) fine t.
Proof.
  intros H. unfold Put. wp_run.
  destruct (negb (IsBootstrapped t)); [wp_run; split; [reflexivity|exact H]|].
  wp_run. destruct (VM_ParseBlock (world t) blkBytes) as [b|e];
    [|apply GetFailed_fine, H].
  wp_run.
  eapply (wp_conseq _ (fun _ t1 => errs t1 = None)).
  { destruct (choices.eqb _ _); wp_run; exact H. }
  cbn beta. intros _ t1 H1. wp_run.
  eapply wp_conseq; [apply (issueFrom_loop_fine fuel vdr _ _ t1 H1)|].
  cbn beta. intros r t2 H2. wp_run. exact H2.
Qed.

Lemma PullQuery_fine fuel vdr requestID blkID t :
  errs t = None -> wp (PullQuery fuel vdr requestID blkID) fine t.
Proof.
  intros H. unfold PullQuery. wp_run.
  destruct (negb (Ctx_IsBootstrapped t)); [wp_run; split; [reflexivity|exact H]|].
  wp_run. eapply wp_conseq; [apply (issueFromByID_fine fuel vdr blkID t H)|].
  cbn beta. intros [added e] t1 [He H1]. cbn [snd] in He. subst e.
  wp_run. eapply wp_conseq; [apply (Register_clean _ t1 H1)|].
  cbn beta. intros _ t2 H2. wp_run. split; exact H2.
Qed.

Lemma PushQuery_fine fuel vdr requestID blkID blkBytes t :
  errs t = None -> wp (PushQuery fuel vdr requestID blkID blkBytes) fine t.
Proof.
  intros H. unfold PushQuery. wp_run.
  destruct (negb (Ctx_IsBootstrapped t)); [wp_run; split; [reflexivity|exact H]|].
  wp_run. destruct (VM_ParseBlock (world t) blkBytes) as [b|e];
    [|wp_run; split; [reflexivity|exact H]].
  destruct (negb (Block_ID (VMBlk b) =? blkID));
    [wp_run; split; [reflexivity|exact H]|].
  wp_run.
  eapply (wp_conseq _ (fun _ t1 => errs t1 = None)).
  { destruct (choices.eqb _ _); wp_run; exact H. }
  cbn beta. intros _ t1 H1. wp_run.
  eapply wp_conseq; [apply (issueFrom_loop_fine fuel vdr _ _ t1 H1)|].
  cbn beta. intros r t2 [Hr H2]. rewrite Hr. apply PullQuery_fine, H2.
Qed.

Lemma QueryFailed_fine vdr requestID t :
  errs t = None -> wp (QueryFailed vdr requestID) fine t.
Proof.
  intros H. unfold QueryFailed. wp_run.
  destruct (negb (Ctx_IsBootstrapped t)); [wp_run; split; [reflexivity|exact H]|].
  wp_run. eapply wp_conseq; [apply (Register_clean _ t H)|].
  cbn beta. intros _ t2 H2. wp_run. split; exact H2.
Qed.

Lemma Chits_fine fuel vdr requestID (votes : gset Z) t :
  errs t = None -> wp (Chits fuel vdr requestID votes) fine t.
Proof.
  intros H. unfold Chits. wp_run.
  destruct (negb (Ctx_IsBootstrapped t)); [wp_run; split; [reflexivity|exact H]|].
  destruct (elements votes) as [|blkID [|blkID' l]];
    [apply QueryFailed_fine, H| |apply QueryFailed_fine, H].
  wp_run. eapply wp_conseq; [apply (issueFromByID_fine fuel vdr blkID t H)|].
  cbn beta. intros [added e] t1 [He H1]. cbn [snd] in He. subst e.
  wp_run. eapply wp_conseq; [apply (Register_clean _ t1 H1)|].
  cbn beta. intros _ t2 H2. wp_run. split; exact H2.
Qed.

Lemma Notify_fine fuel msg t :
  errs t = None -> wp (Notify fuel msg) fine t.
Proof.
  intros H. unfold Notify. wp_run.
  destruct (negb (Ctx_IsBootstrapped t)); [wp_run; split; [reflexivity|exact H]|].
  destruct msg as [|code]; [|wp_run; split; [reflexivity|exact H]].
  wp_run. destruct (VM_BuildBlock (world t)) as [w1 built]. cbn [fst snd].
  destruct built as [b|e]; [|wp_run; split; [reflexivity|exact H]].
  wp_run. destruct (negb (choices.eqb _ _)); [wp_run; split; [reflexivity|exact H]|].
  destruct (_ || _); [wp_run; split; [reflexivity|exact H]|].
  wp_run.
  eapply wp_conseq; [apply (issueWithAncestors_fine fuel (VMBlk b)); exact H|].
  cbn beta. intros r t2 [Hr H2]. rewrite Hr. wp_run. split; [reflexivity|exact H2].
Qed.

Lemma finishBootstrapping_options_fine options : forall t,
  errs t = None -> wp (finishBootstrapping_options options) fine t.
Proof.
  induction options as [|o options IH]; intros t H;
    cbn [finishBootstrapping_options]; [wp_run; split; [reflexivity|exact H]|].
  wp_run. eapply wp_conseq; [apply (deliver_fine (VMBlk o) t H)|].
  cbn beta. intros e t1 [-> H1]. apply IH, H1.
Qed.

Lemma finishBootstrapping_clean t :
  errs t = None -> wp finishBootstrapping (fun _ t' => errs t' = None) t.
Proof.
  intros H. unfold finishBootstrapping. wp_run.
  set (t1 := set_world _ t). assert (H1 : errs t1 = None) by exact H.
  destruct (VM_GetBlock (world t1) (VM_LastAccepted (world t))) as [b|e];
    [|wp_run; exact H1].
  wp_run. destruct (Block_Options (world t1) (VMBlk b)) as [[options|e]|].
  - eapply wp_conseq; [apply finishBootstrapping_options_fine, H1|].
    cbn beta. intros _ t2 [_ H2]. exact H2.
  - wp_run. exact H1.
  - wp_run. exact H1.
Qed.

Lemma reachable_clean D IntLen Max t : reachable D IntLen Max t -> errs t = None.
Proof.
  induction 1 as [params w
                 |t t' Hr IH Hb Hrun
                 |t Hr IH
                 |t vdr requestID blkID Hr IH
                 |t vdr requestID blkID Hr IH
                 |t fuel vdr requestID blkID blkBytes e t' Hr IH Hrun
                 |t vdr requestID e t' Hr IH Hrun
                 |t fuel vdr requestID blkID e t' Hr IH Hrun
                 |t fuel vdr requestID blkID blkBytes e t' Hr IH Hrun
                 |t fuel vdr requestID votes e t' Hr IH Hrun
                 |t vdr requestID e t' Hr IH Hrun
                 |t fuel msg e t' Hr IH Hrun].
  - reflexivity.
  - apply (finishBootstrapping_clean t IH _ _ Hrun).
  - unfold Gossip. pose proof (GetBlock_errs (VM_LastAccepted (world t)) t) as Hg.
    destruct (GetBlock _ t) as [[blk|e] t1]; cbn in *; congruence.
  - unfold Get. pose proof (GetBlock_errs blkID t) as Hg.
    destruct (GetBlock _ t) as [[blk|e] t1]; cbn in *; congruence.
  - unfold GetAncestors. pose proof (GetBlock_errs blkID t) as Hg.
    destruct (GetBlock _ t) as [[blk|e] t1]; cbn [fst snd] in *; [|congruence].
    assert (Hl : forall n numFetched acc accLen t,
               errs (GetAncestors_loop D IntLen Max n numFetched blk acc accLen t).2
               = errs t).
    { clear. induction n as [|n IHn]; intros numFetched acc accLen t;
        cbn [GetAncestors_loop]; [reflexivity|].
      destruct (_ && _); [|reflexivity].
      pose proof (GetBlock_errs (Block_Parent blk) t) as Hg.
      destruct (GetBlock _ t) as [[blk'|e] t1]; cbn [fst snd] in *; [|exact Hg].
      destruct (_ <? _); [|exact Hg]. rewrite IHn. exact Hg. }
    specialize (Hl (Z.to_nat (Max - 1)) 1 [Block_Bytes blk]
                  (len (Block_Bytes blk) + IntLen) t1).
    destruct (GetAncestors_loop _ _ _ _ _ _ _ _ _) as [cs t2]. cbn in *.
    congruence.
  - apply (Put_fine _ _ _ _ _ t IH _ _ Hrun).
  - apply (GetFailed_fine _ _ t IH _ _ Hrun).
  - apply (PullQuery_fine _ _ _ _ t IH _ _ Hrun).
  - apply (PushQuery_fine _ _ _ _ _ t IH _ _ Hrun).
  - apply (Chits_fine _ _ _ _ t IH _ _ Hrun).
  - apply (QueryFailed_fine _ _ t IH _ _ Hrun).
  - apply (Notify_fine _ _ t IH _ _ Hrun).
Qed.

(** X3.  The engine raises no error of its own. When [Consensus.Add],
    [Options] and [Consensus.RecordPoll] never fail, no reachable state has
    an error recorded in [errs], and every message handler returns [nil]:
    failures of [Verify], [ParseBlock], [GetBlock], [BuildBlock] and of the
    validator sampling are absorbed. *)
Theorem engine_raises_no_error D IntLen Max t :
  reachable D IntLen Max t ->
  errs t = None
  /\ (forall fuel vdr requestID blkID blkBytes e t',
         Put fuel vdr requestID blkID blkBytes t = Some (e, t') -> e = None)
  /\ (forall vdr requestID e t',
         GetFailed vdr requestID t = Some (e, t') -> e = None)
  /\ (forall fuel vdr requestID blkID e t',
         PullQuery fuel vdr requestID blkID t = Some (e, t') -> e = None)
  /\ (forall fuel vdr requestID blkID blkBytes e t',
         PushQuery fuel vdr requestID blkID blkBytes t = Some (e, t') -> e = None)
  /\ (forall fuel vdr requestID votes e t',
         Chits fuel vdr requestID votes t = Some (e, t') -> e = None)
  /\ (forall vdr requestID e t',
         QueryFailed vdr requestID t = Some (e, t') -> e = None)
  /\ (forall fuel msg e t',
         Notify fuel msg t = Some (e, t') -> e = None)
  /\ (Gossip t).1 = None
  /\ (forall vdr requestID blkID, (Get vdr requestID blkID t).1 = None)
  /\ (forall vdr requestID blkID,
         (GetAncestors D IntLen Max vdr requestID blkID t).1 = None).
Proof.
  intros Hr. pose proof (reachable_clean D IntLen Max t Hr) as H.
  split; [exact H|]. repeat split.
  - intros fuel vdr requestID blkID blkBytes e t' Hrun.
    apply (Put_fine _ _ _ _ _ t H _ _ Hrun).
  - intros vdr requestID e t' Hrun. apply (GetFailed_fine _ _ t H _ _ Hrun).
  - intros fuel vdr requestID blkID e t' Hrun.
    apply (PullQuery_fine _ _ _ _ t H _ _ Hrun).
  - intros fuel vdr requestID blkID blkBytes e t' Hrun.
    apply (PushQuery_fine _ _ _ _ _ t H _ _ Hrun).
  - intros fuel vdr requestID votes e t' Hrun.
    apply (Chits_fine _ _ _ _ t H _ _ Hrun).
  - intros vdr requestID e t' Hrun. apply (QueryFailed_fine _ _ t H _ _ Hrun).
  - intros fuel msg e t' Hrun. apply (Notify_fine _ _ t H _ _ Hrun).
  - unfold Gossip. destruct (GetBlock _ t) as [[blk|e] t1]; reflexivity.
  - intros vdr requestID blkID. unfold Get.
    destruct (GetBlock _ t) as [[blk|e] t1]; reflexivity.
  - intros vdr requestID blkID. unfold GetAncestors.
    destruct (GetBlock _ t) as [[blk|e] t1]; [|reflexivity].
    destruct (GetAncestors_loop _ _ _ _ _ _ _ _ _) as [cs t2]. reflexivity.
Qed.

End NoError.

(** *** The concrete collaborators never fail *)

#[global] Instance Toy_faultless : @Faultless Toy.World Toy.collaborators.
Proof.
  constructor.
  - intros w blk. cbn. unfold Toy.Add. destruct (bool_decide _); reflexivity.
  - intros w b e. cbn. unfold Toy.Options. discriminate.
  - intros w votes. reflexivity.
Qed.

(** * What a rejection on [Add] leaves behind *)

Section Settled.

Context {World : Type} `{Collab : Collaborators World} {contract : Contract}.
Variable parentOf : ID -> ID.
Context {identified : Identified parentOf}.

Implicit Types (t : @Transitive World) (blk : Block) (vdr requestID blkID : Z).

Notation "x <- m ;; k" := (bind m (fun x => k))
  (at level 100, m at next level, right associativity).
Notation "m ;;; k" := (bind m (fun _ => k))
  (at level 100, right associativity).

(** *** Caches *)











(** *** How the engine's updates act on [sound] *)


















(** *** [Consensus.Add] and the treatment of a rejection *)





(** *** Leaves of the engine *)











(** *** Continuations *)

(** The engine got from [t0] to [t'], and from [t] to [t'] the
    collaborators did not regress. *)
Local Abbreviation ready t0 t :=
  (fun _ t' => sound parentOf t0 t' /\ no_regress (world t) (world t')).

Ltac wp_go :=
  repeat (cbn beta;
          lazymatch goal with
          | |- wp (bind _ _) _ _ => apply wp_bind
          | |- wp (get _) _ _ => apply wp_get
          | |- wp (lift _) _ _ => apply wp_lift
          | |- wp (lift' _) _ _ => apply wp_lift'
          | |- wp (ret _) _ _ => apply wp_ret
          | |- wp (fun _ => None) _ _ => apply wp_stuck
          end); cbn beta.

(** What an Issuer needs to run: its block came from the VM with the parent
    its ID stands for, and that parent is issued or decided. *)
Local Abbreviation runnable w c :=
  (forall blk, action c = issuer blk ->
     from_VM (Block_ID blk) blk
     /\ issued_or_decided w (Block_Parent blk)
     /\ linked parentOf blk).

Lemma sound_no_regress t t' : sound parentOf t t' -> no_regress (world t) (world t').
Proof. intros H. apply step_world, H. Qed.


Section Reentrant.

(** The nested calls of [deliver] are assumed to keep [sound]; this is
    discharged by induction on the nesting depth. *)
Variable deliver_rec : Block -> @M World (option error).
Hypothesis deliver_rec_sound : forall blk t0 t,
  sound parentOf t0 t ->
  from_VM (Block_ID blk) blk ->
  issued_or_decided (world t) (Block_Parent blk) ->
  linked parentOf blk ->
  wp (deliver_rec blk) (ready t0 t) t.





(** *** [deliver] *)






End Reentrant.




(** *** The issuance resolver *)








(** *** Handlers *)












(** *** Start-up *)




(** *** Reachable states *)






End Settled.

(** *** The collaborators that check parent links keep the contract and
    identify blocks by their ID *)

Lemma Chain_issued_or_decided (w : Chain.World) (id : Z) :
  issued_or_decided w id <->
  id ∈ Toy.tree (Chain.base w)
  \/ choices.Decided
       (default choices.Processing (Toy.status (Chain.base w) !! id)) = true.
Proof. apply (Toy_issued_or_decided (Chain.base w) id). Qed.

Lemma Chain_check r b : Chain.check r = inl b -> r = inl b /\ Chain.checked b = true.
Proof.
  unfold Chain.check. destruct r as [b'|e]; [|discriminate].
  destruct (Chain.checked b') eqn:Hc; [|discriminate].
  intros [= <-]. split; [reflexivity|exact Hc].
Qed.

#[global] Instance Chain_contract : @Contract Chain.World Chain.collaborators.
Proof.
  constructor.
  - intros w b. exact (@Verify_no_regress _ _ Toy_contract (Chain.base w) b).
  - intros w blk. exact (@Add_no_regress _ _ Toy_contract (Chain.base w) blk).
  - intros w b w' rejected. cbn. intros [= <- Hr].
    apply (@Add_issues _ _ Toy_contract (Chain.base w) b _ rejected).
    cbn. destruct (Toy.Add (Chain.base w) (VMBlk b)) as [w2 r]. cbn in Hr |- *.
    rewrite Hr. reflexivity.
  - intros w id. exact (@SetPreference_no_regress _ _ Toy_contract (Chain.base w) id).
  - intros w. exact (@BuildBlock_no_regress _ _ Toy_contract (Chain.base w)).
  - intros w votes.
    exact (@RecordPoll_no_regress _ _ Toy_contract (Chain.base w) votes).
  - intros w votes w' decided e. cbn. intros [= <- <- <-]. constructor.
  - intros w k. exact (@Sample_no_regress _ _ Toy_contract (Chain.base w) k).
  - intros w b options. cbn. unfold Toy.Options. intros [= <-].
    apply Forall_forall. intros o Ho. apply list_elem_of_filter in Ho as [_ Ho].
    apply list_elem_of_filter in Ho. apply Ho.
  - intros w id b. cbn. intros Hc. apply Chain_check in Hc as [Hg _].
    apply (@GetBlock_ID _ _ Toy_contract (Chain.base w) id b Hg).
  - intros w. exact (@Initialize_lastAccepted _ _ Toy_contract (Chain.base w)).
Qed.

#[global] Instance Chain_identified :
  @Identified Chain.World Chain.collaborators Chain.parentOf.
Proof.
  constructor.
  - intros w bs b. cbn. intros Hc. apply Chain_check in Hc as [_ Hc].
    apply Z.eqb_eq. exact Hc.
  - intros w id b. cbn. intros Hc. apply Chain_check in Hc as [_ Hc].
    apply Z.eqb_eq. exact Hc.
  - intros w b. cbn. intros Hc. apply Chain_check in Hc as [_ Hc].
    apply Z.eqb_eq. exact Hc.
  - intros w b options. cbn. unfold Toy.Options. intros [= <-].
    apply Forall_forall. intros o Ho. apply list_elem_of_filter in Ho as [Ho _].
    cbn. apply Z.eqb_eq. exact Ho.
  - intros w b Hi. apply Chain_issued_or_decided in Hi. cbn. unfold Toy.Status.
    apply orb_true_iff. destruct Hi as [Hi|Hi]; [right|left; exact Hi].
    apply bool_decide_eq_true. exact Hi.
Qed.

(** * Checks on the concrete collaborators *)

(** [deliver] on the accepted genesis block, which Consensus reports as
    issued. *)
Lemma deliver_issued_noop_witness :
  deliver (VMBlk Toy.G) Toy.t0 = Some (None, Toy.t0).
Proof. apply deliver_issued_noop. vm_compute. reflexivity. Defined.

(** [Get] on an engine that is still bootstrapping answers with a [Put]:
    the statement of C2 fails for it. *)
Lemma Get_served_while_bootstrapping :
  let t := Initialize Toy.params0 Toy.w0 in
  IsBootstrapped t = false
  /\ calls (Get 101 7 1 t).2 = [Sender_Put 101 7 1 (Toy.bytes_of 1)]
  /\ (Get 101 7 1 t).2 ≠ t.
Proof.
  cbn zeta. split; [reflexivity|]. split; [vm_compute; reflexivity|].
  intros Heq. apply (f_equal calls) in Heq. vm_compute in Heq. discriminate.
Qed.

(** [Put] and [Notify] on the freshly initialized engine. *)
Lemma guarded_handlers_drop_while_bootstrapping_witness :
  let t := Initialize Toy.params0 Toy.w0 in
  Put 5 101 0 2 (Toy.bytes_of 2) t = Some (None, t)
  /\ Notify 5 PendingTxs t = Some (None, t).
Proof.
  cbn zeta.
  pose proof (guarded_handlers_drop_while_bootstrapping
                (Initialize Toy.params0 Toy.w0) eq_refl) as H.
  split; [apply H | apply H].
Defined.

(** [Chits] carrying two votes. *)
Lemma Chits_malformed_is_QueryFailed_witness :
  Chits 5 101 7 ({[2; 3]} : gset Z) Toy.t0 = QueryFailed 101 7 Toy.t0.
Proof.
  apply Chits_malformed_is_QueryFailed. vm_compute. discriminate.
Defined.


(** C5 fails on a requested block of 1677722 bytes, with the values the
    constants have in the repository: [DefaultMaxMessageSize = 1 << 21],
    [IntLen = 4], [MaxContainersPerMultiPut = 2000].  The budget is 1677721
    bytes and the [MultiPut] carries more. *)
Lemma GetAncestors_exceeds_maxContainersLen :
  let big := {| vmID := 7; vmParent := 1;
                vmBytes := repeat Byte.x2a (Z.to_nat 1677722);
                vmOracle := false |} in
  let t := set_processing {[ 7 := VMBlk big ]} Toy.t0 in
  exists containers,
    calls (GetAncestors (2 ^ 21) 4 2000 101 9 7 t).2
    = calls t ++ [Sender_MultiPut 101 9 containers]
    /\ maxContainersLen (2 ^ 21) < containersLen 4 containers.
Proof.
  intros big t.
  destruct (GetAncestors_oversized_request (2 ^ 21) 4 2000 101 9 7 (VMBlk big) t)
    as (rest & Hcalls & Hlen).
  - lia.
  - lia.
  - unfold t. cbn [processing set_processing]. apply lookup_singleton_eq.
  - unfold big, len. cbn [Block_Bytes vmBytes]. rewrite repeat_length.
    rewrite Z2Nat.id by lia. unfold maxContainersLen.
    change (4 * 2 ^ 21 / 5) with 1677721. lia.
  - exists (Block_Bytes (VMBlk big) :: rest). split; assumption.
Qed.

(** [GetAncestors] for the genesis block with small limits. *)
Lemma GetAncestors_MultiPut_bounds_witness :
  let t' := (GetAncestors 100 4 3 101 9 1 Toy.t0).2 in
  calls t' = calls Toy.t0
  \/ exists first rest,
      calls t' = calls Toy.t0 ++ [Sender_MultiPut 101 9 (first :: rest)]
      /\ Z.of_nat (length (first :: rest)) <= 3
      /\ (rest = [] \/ containersLen 4 (first :: rest) < maxContainersLen 100)
      /\ (len first + 4 <= maxContainersLen 100 ->
          containersLen 4 (first :: rest) <= maxContainersLen 100).
Proof. apply GetAncestors_MultiPut_bounds. lia. Defined.

(** C4 fails after a single [Put]: with [ConcurrentRepolls = 1], the engine
    that has just finished bootstrapping receives the oracle block [O];
    [deliver] pushes one query for [O] and one for each of its two options,
    and three polls are outstanding when the handler returns. *)
Lemma polls_exceed_ConcurrentRepolls :
  exists t1 t2,
    finishBootstrapping (Initialize Toy.params0 Toy.w0) = Some (None, t1)
    /\ Put 5 101 0 10 (Toy.bytes_of 10) (set_Ctx_IsBootstrapped true t1)
       = Some (None, t2)
    /\ snowball.ConcurrentRepolls (Params t2) = 1
    /\ poll.Len (polls t2) = 3.
Proof.
  eexists. eexists. split; [vm_compute; reflexivity|].
  split; [vm_compute; reflexivity|].
  split; vm_compute; reflexivity.
Qed.




(** [deliver(A)] when [A] is pending, pinned, not issued, and fails
    [Verify]: the run calls [Verify] and then [Abandon]. *)
Lemma deliver_failed_Verify_witness :
  let w := {| Toy.known := Toy.known Toy.w0; Toy.store := Toy.store Toy.w0;
              Toy.status := Toy.status Toy.w0; Toy.invalid := {[ 2 ]};
              Toy.options := Toy.options Toy.w0; Toy.built := None;
              Toy.lastAccepted := 1; Toy.vmPreference := 1;
              Toy.tree := {[ 1 ]}; Toy.preference := 1;
              Toy.validators := Toy.validators Toy.w0 |} in
  let t := set_pending {[ 2 ]}
             (set_processing {[ 2 := VMBlk Toy.A ]} (set_world w Toy.t0)) in
  exists r t',
    deliver (VMBlk Toy.A) t = Some (r, t')
    /\ calls t' = calls t ++ [Block_Verify_called (VMBlk Toy.A); Blocker_Abandon 2]
    /\ r = errs t'
    /\ (2 ∉ pending t')
    /\ processing t' !! 2 = None
    /\ LRU.lookup 2 (droppedCache t') = Some (VMBlk Toy.A).
Proof.
  cbn zeta.
  edestruct (deliver_failed_Verify (World := Toy.World)) as (r & t' & Hrun & H);
    [ | exists r, t'; split; [exact Hrun|] ].
  - vm_compute; reflexivity.
  - assert (Hc : calls t' = calls (set_pending {[ 2 ]}
                    (set_processing {[ 2 := VMBlk Toy.A ]}
                       (set_world
                          {| Toy.known := Toy.known Toy.w0; Toy.store := Toy.store Toy.w0;
                             Toy.status := Toy.status Toy.w0; Toy.invalid := {[ 2 ]};
                             Toy.options := Toy.options Toy.w0; Toy.built := None;
                             Toy.lastAccepted := 1; Toy.vmPreference := 1;
                             Toy.tree := {[ 1 ]}; Toy.preference := 1;
                             Toy.validators := Toy.validators Toy.w0 |} Toy.t0)))
                  ++ [Block_Verify_called (VMBlk Toy.A); Blocker_Abandon 2]).
    { vm_compute in Hrun. injection Hrun as _ <-. vm_compute. reflexivity. }
    split; [exact Hc|].
    destruct (H _ Hc) as (H1 & H2 & H3 & H4 & _).
    repeat split; assumption.
Defined.

(** C8 fails on a block whose [Verify] fails: the first [Put] of [A] issues
    it, [deliver] drops it, and [A] is neither pending nor issued
    afterwards; the second [Put] does not short-circuit: it registers a new
    Issuer, verifies [A] again and abandons it again. *)
Lemma Put_twice_reissues_dropped_block :
  let w := {| Toy.known := Toy.known Toy.w0; Toy.store := Toy.store Toy.w0;
              Toy.status := Toy.status Toy.w0; Toy.invalid := {[ 2 ]};
              Toy.options := Toy.options Toy.w0; Toy.built := None;
              Toy.lastAccepted := 1; Toy.vmPreference := 1;
              Toy.tree := {[ 1 ]}; Toy.preference := 1;
              Toy.validators := Toy.validators Toy.w0 |} in
  let t := set_world w Toy.t0 in
  exists t1 t2,
    Put 5 101 0 2 (Toy.bytes_of 2) t = Some (None, t1)
    /\ Put 5 101 0 2 (Toy.bytes_of 2) t1 = Some (None, t2)
    /\ Consensus_Issued (world t1) (VMBlk Toy.A) = false
    /\ (2 ∉ pending t1)
    /\ calls t2 = calls t1 ++ [Blocker_Register
                                 {| deps := ∅; action := issuer (VMBlk Toy.A) |};
                               Block_Verify_called (VMBlk Toy.A);
                               Blocker_Abandon 2]
    /\ t2 ≠ t1.
Proof.
  cbn zeta. eexists. eexists.
  split; [vm_compute; reflexivity|].
  split; [vm_compute; reflexivity|].
  split; [vm_compute; reflexivity|].
  split; [vm_compute; intros H; discriminate H|].
  split; [vm_compute; reflexivity|].
  intros Heq. apply (f_equal (fun t => length (calls t))) in Heq.
  vm_compute in Heq. discriminate.
Qed.

(** [Put(B)] twice: [B] waits for its missing parent after the first. *)
Lemma Put_twice_witness :
  exists t1,
    Put 5 101 0 3 (Toy.bytes_of 3) Toy.t0 = Some (None, t1)
    /\ Put 5 101 0 3 (Toy.bytes_of 3) t1 = Some (None, t1).
Proof.
  eexists. split; [vm_compute; reflexivity|].
  eapply (Put_twice 5 4 101 0 3 (Toy.bytes_of 3) Toy.t0).
  - vm_compute; reflexivity.
  - vm_compute; reflexivity.
  - vm_compute; reflexivity.
  - right. vm_compute. reflexivity.
  - vm_compute; reflexivity.
  - vm_compute; reflexivity.
Defined.

(** The [Add] of [A] made while handling [Put(A)] right after the
    hand-over: its parent, the genesis block, is issued. *)
Lemma Add_called_with_parent_issued_witness :
  In (Consensus_Add_called (world Toy.t_boot) (VMBlk Toy.A)) (calls Toy.t_A)
  /\ issued_or_decided (world Toy.t_boot) 1.
Proof.
  assert (Hin : In (Consensus_Add_called (world Toy.t_boot) (VMBlk Toy.A)) (calls Toy.t_A)).
  { vm_compute. right. right. right. left. reflexivity. }
  split; [exact Hin|].
  apply (Add_called_with_parent_issued (2 ^ 21) 4 2000 Toy.t_A) with (blk := VMBlk Toy.A);
    [|exact Hin].
  apply (reach_Put _ _ _ Toy.t_boot 5 101 0 2 (Toy.bytes_of 2) None);
    [|vm_compute; reflexivity].
  apply (reach_finishBootstrapping _ _ _ (Initialize Toy.params0 Toy.w0));
    [apply reach_Initialize|reflexivity|vm_compute; reflexivity].
Defined.

(** * Further checks on the concrete collaborators *)

Lemma Toy_t_boot_reachable : reachable (2 ^ 21) 4 2000 Toy.t_boot.
Proof.
  apply (reach_finishBootstrapping _ _ _ (Initialize Toy.params0 Toy.w0));
    [apply reach_Initialize|reflexivity|vm_compute; reflexivity].
Qed.

Lemma Toy_t_A_reachable : reachable (2 ^ 21) 4 2000 Toy.t_A.
Proof.
  apply (reach_Put _ _ _ Toy.t_boot 5 101 0 2 (Toy.bytes_of 2) None);
    [apply Toy_t_boot_reachable|vm_compute; reflexivity].
Qed.

Lemma Toy_t_query_reachable : reachable (2 ^ 21) 4 2000 Toy_t_query.
Proof.
  apply (reach_PullQuery _ _ _ Toy.t_boot 5 101 7 1 None);
    [apply Toy_t_boot_reachable|vm_compute; reflexivity].
Qed.

(** [Get] for the genesis block. *)
Lemma Get_reply_witness :
  (Get 101 7 1 Toy.t0).1 = None
  /\ (Get 101 7 1 Toy.t0).2
     = emit (Sender_Put 101 7 1 (Block_Bytes (VMBlk Toy.G))) (GetBlock 1 Toy.t0).2
  /\ calls (Get 101 7 1 Toy.t0).2
     = calls Toy.t0 ++ [Sender_Put 101 7 1 (Block_Bytes (VMBlk Toy.G))].
Proof. apply Get_reply. vm_compute; reflexivity. Defined.

(** [Get] and [GetAncestors] for [A], which the node does not have. *)
Lemma unknown_block_request_dropped_witness :
  Get 101 7 2 Toy.t0 = (None, Toy.t0)
  /\ GetAncestors (2 ^ 21) 4 2000 101 7 2 Toy.t0 = (None, Toy.t0).
Proof.
  apply (unknown_block_request_dropped _ _ _ _ _ _ _ (errExternal 3)).
  vm_compute; reflexivity.
Defined.

(** [GetAncestors] for [A] once [A] has been received: the response holds
    [A] and then copies of the genesis block. *)
Lemma GetAncestors_repeats_parent_witness :
  (GetBlock 2 Toy.t_A).1 = inl (VMBlk Toy.A)
  /\ exists k,
      calls (GetAncestors (2 ^ 21) 4 4 101 9 2 Toy.t_A).2
      = calls Toy.t_A
          ++ [Sender_MultiPut 101 9 (Toy.bytes_of 2 :: repeat (Toy.bytes_of 1) k)].
Proof.
  assert (H : (GetBlock 2 Toy.t_A).1 = inl (VMBlk Toy.A)) by (vm_compute; reflexivity).
  split; [exact H|].
  pose proof (GetAncestors_repeats_parent (2 ^ 21) 4 4 101 9 2 Toy.t_A (VMBlk Toy.A) H)
    as W.
  replace (GetBlock (Block_Parent (VMBlk Toy.A)) Toy.t_A).1
    with (inl (VMBlk Toy.G) : Block + error) in W by (vm_compute; reflexivity).
  destruct W as (k & _ & Hc). exists k. exact Hc.
Defined.

(** A [Put] with bytes that are not a block. *)
Lemma Put_unparseable_is_GetFailed_witness :
  Put 5 101 0 2 (Toy.bytes_of 99) Toy.t0 = GetFailed 101 0 Toy.t0.
Proof.
  apply (Put_unparseable_is_GetFailed _ _ _ _ _ _ (errExternal 2)).
  vm_compute; reflexivity.
Defined.

(** [GetFailed] when no request has been sent. *)
Lemma GetFailed_unsolicited_noop_witness :
  GetFailed 101 7 Toy.t0 = Some (None, Toy.t0).
Proof. apply GetFailed_unsolicited_noop. vm_compute; reflexivity. Defined.

(** A [PushQuery] that declares ID 3 and carries the bytes of [A]. *)
Lemma PushQuery_dropped_witness :
  PushQuery 5 101 7 3 (Toy.bytes_of 2) Toy.t0 = Some (None, Toy.t0).
Proof.
  apply PushQuery_dropped. intros b Hb. vm_compute in Hb.
  injection Hb as <-. vm_compute. discriminate.
Defined.

(** A [PushQuery] for [A] right after the hand-over. *)
Lemma PushQuery_is_Put_then_PullQuery_witness :
  PushQuery 5 101 7 2 (Toy.bytes_of 2) Toy.t_boot
  = bind (Put 5 101 7 2 (Toy.bytes_of 2))
      (fun err => match err with
                  | Some e => ret (Some e)
                  | None => PullQuery 5 101 7 2
                  end) Toy.t_boot.
Proof.
  apply (PushQuery_is_Put_then_PullQuery _ _ _ _ _ _ Toy.A);
    vm_compute; reflexivity.
Defined.

(** [Notify] when the VM has no block to build. *)
Lemma Notify_nothing_to_issue_witness :
  Notify 5 PendingTxs Toy.t0
  = Some (None, set_world (VM_BuildBlock (world Toy.t0)).1 Toy.t0)
  /\ forall code, Notify 5 (OtherMessage code) Toy.t0 = Some (None, Toy.t0).
Proof.
  apply Notify_nothing_to_issue; [reflexivity|].
  intros b Hb. vm_compute in Hb. discriminate.
Defined.

(** A request for [A] and its failure. *)
Lemma sendRequest_then_GetFailed_witness :
  RequestID (sendRequest 101 2 Toy.t0) = 1
  /\ exists t2,
      GetFailed 101 1 (sendRequest 101 2 Toy.t0) = Some (errs t2, t2)
      /\ Requests.Contains 2 (blkReqs t2) = false.
Proof.
  destruct (sendRequest_then_GetFailed 101 2 Toy.t0)
    as (Hr & _ & _ & t2 & Hrun & Hc & _).
  - reflexivity.
  - reflexivity.
  - split; [exact Hr|]. exists t2. split; [exact Hrun|exact Hc].
Defined.

(** [repoll] with one poll missing. *)
Lemma repoll_attempts_witness :
  RequestID (repoll Toy.t0) = 1.
Proof.
  destruct (repoll_attempts Toy.t0) as [H _]; [vm_compute; split; congruence|].
  rewrite H. vm_compute. reflexivity.
Defined.

(** [issue] on [B], whose parent [A] the node does not have. *)
Lemma issue_waits_for_parent_witness :
  exists t',
    issue (VMBlk Toy.B) Toy.t0 = Some (errs Toy.t0, t')
    /\ pending t' = pending Toy.t0 ∪ {[3]}
    /\ blocked t' = blocked Toy.t0 ++ [{| deps := {[2]}; action := issuer (VMBlk Toy.B) |}].
Proof.
  destruct (issue_waits_for_parent (VMBlk Toy.B) Toy.t0)
    as (t' & Hrun & Hp & _ & Hb & _).
  - vm_compute; reflexivity.
  - vm_compute. exact I.
  - exists t'. split; [exact Hrun|]. split; [exact Hp|exact Hb].
Defined.

(** A [PullQuery] and a vote for [A], which the node does not have. *)
Lemma query_for_unknown_block_witness :
  PullQuery 5 101 7 2 Toy.t0
  = Some (errs Toy.t0,
          set_blocked
            (blocked Toy.t0 ++ [{| deps := {[2]}; action := convincer 101 7 |}])
            (emit (Blocker_Register {| deps := {[2]}; action := convincer 101 7 |})
               (sendRequest 101 2 Toy.t0))).
Proof.
  apply (query_for_unknown_block 5 101 7 2 Toy.t0 (errExternal 3));
    vm_compute; reflexivity.
Defined.

(** [Put(B)] while [A] is unknown. *)
Lemma Put_missing_parent_witness :
  exists t1,
    Put 1 101 0 3 (Toy.bytes_of 3) Toy.t0 = Some (None, sendRequest 101 2 t1)
    /\ processing t1 = <[3 := VMBlk Toy.B]> (processing Toy.t0)
    /\ pending t1 = pending Toy.t0 ∪ {[3]}.
Proof.
  destruct (Put_missing_parent O 101 0 3 (Toy.bytes_of 3) Toy.t0 Toy.B (errExternal 3))
    as (t1 & Hrun & Hpr & Hpe & _).
  - reflexivity.
  - reflexivity.
  - vm_compute; reflexivity.
  - vm_compute; reflexivity.
  - vm_compute; reflexivity.
  - vm_compute. intros H. discriminate H.
  - vm_compute; reflexivity.
  - vm_compute; reflexivity.
  - exists t1. split; [exact Hrun|]. split; [exact Hpr|exact Hpe].
Defined.

(** [issueFrom] on [A] when [A] fails verification: [A] is dropped, the
    walk stops at the genesis block, and the result is [true] although [A]
    is not issued. *)
Lemma issueFrom_reports_last_ancestor_witness :
  let t := set_world Toy_w_invalid Toy.t0 in
  let t1 := Toy.run (issue (VMBlk Toy.A)) t in
  let t2 := (GetBlock 1 t1).2 in
  issueFrom 2 101 (VMBlk Toy.A) t
  = Some ((Consensus_Issued (world t2) (VMBlk Toy.G), None), t2)
  /\ Consensus_Issued (world t2) (VMBlk Toy.G) = true
  /\ Consensus_Issued (world t2) (VMBlk Toy.A) = false.
Proof.
  cbn zeta. split; [|split; vm_compute; reflexivity].
  apply (issueFrom_reports_last_ancestor O 101 (VMBlk Toy.A)
           (set_world Toy_w_invalid Toy.t0)
           (Toy.run (issue (VMBlk Toy.A)) (set_world Toy_w_invalid Toy.t0))).
  - vm_compute; reflexivity.
  - vm_compute. intros H. discriminate H.
  - vm_compute; reflexivity.
  - vm_compute; reflexivity.
  - vm_compute; reflexivity.
  - vm_compute; reflexivity.
  - left. vm_compute; reflexivity.
Defined.

(** The hand-over on the genesis block, which has no options. *)
Lemma finishBootstrapping_without_options_witness :
  finishBootstrapping (Initialize Toy.params0 Toy.w0)
  = Some (None,
          emit (VM_SetPreference_called 1)
            (set_world (VM_SetPreference (Consensus_Initialize Toy.w0 1) 1)
               (Initialize Toy.params0 Toy.w0))).
Proof.
  refine (proj1 (finishBootstrapping_without_options (Initialize Toy.params0 Toy.w0))
            Toy.G _ _); vm_compute; reflexivity.
Defined.

(** [GetBlock] for [A] once [A] has been received. *)
Lemma GetBlock_returns_requested_block_witness :
  exists b, VMBlk Toy.A = VMBlk b /\ vmID b = 2.
Proof.
  apply (GetBlock_returns_requested_block (2 ^ 21) 4 2000 Toy.t_A 2 (VMBlk Toy.A)).
  - apply Toy_t_A_reachable.
  - vm_compute; reflexivity.
Defined.

(** The decided cache after a [PullQuery] for the genesis block. *)
Lemma decidedCache_sound_witness :
  LRU.lookup 1 (decidedCache Toy_t_query) = Some tt
  /\ issued_or_decided (world Toy_t_query) 1.
Proof.
  assert (H : LRU.lookup 1 (decidedCache Toy_t_query) = Some tt)
    by (vm_compute; reflexivity).
  split; [exact H|].
  apply (proj1 (decidedCache_sound (2 ^ 21) 4 2000 Toy_t_query Toy_t_query_reachable)).
  exact H.
Defined.

(** The [Add] of [A] made while handling [Put(A)]: the call before it is
    the [Verify] of [A], which succeeded. *)
Lemma Add_preceded_by_Verify_witness :
  exists l0 w0,
    take 3 (calls Toy.t_A) = l0 ++ [Block_Verify_called (VMBlk Toy.A)]
    /\ Block_Verify w0 (VMBlk Toy.A) = (world Toy.t_boot, None).
Proof.
  apply (Add_preceded_by_Verify (2 ^ 21) 4 2000 Toy.t_A Toy_t_A_reachable
           (take 3 (calls Toy.t_A)) (world Toy.t_boot) (VMBlk Toy.A)
           (drop 4 (calls Toy.t_A))).
  vm_compute; reflexivity.
Defined.

(** A [Get] served before the hand-over. *)
Lemma bootstrapping_only_serves_witness :
  serving (Sender_Put 101 7 1 (Toy.bytes_of 1) : @Event Toy.World).
Proof.
  apply (bootstrapping_only_serves (2 ^ 21) 4 2000
           (Get 101 7 1 (Initialize Toy.params0 Toy.w0)).2).
  - apply reach_Get, reach_Initialize.
  - reflexivity.
  - vm_compute. left. reflexivity.
Defined.

(** The engine of the examples after [Put(A)]. *)
Lemma engine_raises_no_error_witness :
  errs Toy.t_A = None
  /\ forall e t', Notify 5 PendingTxs Toy.t_A = Some (e, t') -> e = None.
Proof.
  destruct (engine_raises_no_error (2 ^ 21) 4 2000 Toy.t_A Toy_t_A_reachable)
    as (H & _ & _ & _ & _ & _ & _ & HN & _).
  split; [exact H|]. intros e t'. apply HN.
Defined.

(** [issue] on [A], whose parent, the genesis block, is issued. *)
Lemma issue_delivers_when_parent_issued_witness :
  exists r t' l,
    issue (VMBlk Toy.A) Toy.t0 = Some (r, t')
    /\ r = errs t'
    /\ calls t' = calls Toy.t0
                  ++ Blocker_Register {| deps := ∅; action := issuer (VMBlk Toy.A) |}
                  :: Block_Verify_called (VMBlk Toy.A)
                  :: Consensus_Add_called Toy.w0 (VMBlk Toy.A) :: l.
Proof.
  apply (issue_delivers_when_parent_issued (VMBlk Toy.A) Toy.t0 Toy.w0).
  - reflexivity.
  - vm_compute; reflexivity.
  - vm_compute; reflexivity.
  - vm_compute; reflexivity.
Defined.

(** [issueFromByID] for the genesis block, which is accepted. *)
Lemma issueFromByID_caches_decided_witness :
  exists t1,
    issueFromByID 5 101 1 Toy.t0 = Some ((true, None), t1)
    /\ LRU.lookup 1 (decidedCache t1) = Some tt.
Proof.
  destruct (issueFromByID_caches_decided 5 101 1 Toy.t0 (VMBlk Toy.G))
    as (t1 & Hrun & Hl & _).
  - vm_compute; reflexivity.
  - vm_compute; reflexivity.
  - exists t1. split; [exact Hrun|exact Hl].
Defined.

(** [issueWithAncestors] on [B], whose parent [A] the node does not have. *)
Lemma issueWithAncestors_abandons_orphan_witness :
  exists t',
    issueWithAncestors 2 (VMBlk Toy.B) Toy.t0 = Some ((false, None), t')
    /\ blkReqs t' = Requests.RemoveAny 3 (blkReqs Toy.t0).
Proof.
  destruct (issueWithAncestors_abandons_orphan O (VMBlk Toy.B) Toy.t0 (errExternal 3))
    as (t' & Hrun & _ & _ & Hreq & _).
  - reflexivity.
  - vm_compute; reflexivity.
  - vm_compute; reflexivity.
  - vm_compute. intros H. discriminate H.
  - vm_compute; reflexivity.
  - vm_compute; reflexivity.
  - vm_compute; reflexivity.
  - vm_compute; reflexivity.
  - exists t'. split; [exact Hrun|exact Hreq].
Defined.
